(** * Visigence API server: authentication, whitelisting, slugs and audit trail

    A shallow embedding of the Express handlers of [server/] and of the
    helpers they call, together with the properties the specification
    states about them.

    Conventions of the embedding.
    - A JavaScript string is a [string]; its characters are the code units
      below 256, which covers every character class the handlers test.
    - A value read out of [req.body] / [req.query] that may be [undefined]
      is an [option].
    - An [async] handler is a computation in the monad [M]: it threads the
      [world] (the database tables, the clock, the console) and may throw.
    - [res.status(n).json(b)] is the returned [response].
    - A JavaScript object is the list of its entries in insertion order
      (the order [Object.keys] and the generated [SET] clause follow). *)

From Stdlib Require Import List String Ascii Bool Arith ZArith Lia.
From Stdlib Require Import DecimalString DecimalNat DecimalFacts FinFun.
Import ListNotations.
Open Scope string_scope.
Open Scope list_scope.
Open Scope nat_scope.

Set Implicit Arguments.
Set Warnings "-register-all".

(** ** JavaScript strings and the character classes of the regular expressions *)

Module JsString.

Definition chars (s : string) : list ascii := list_ascii_of_string s.
Definition of_chars (l : list ascii) : string := string_of_list_ascii l.

Definition code (c : ascii) : nat := nat_of_ascii c.

Definition in_range (lo hi : nat) (c : ascii) : bool :=
  (lo <=? code c) && (code c <=? hi).

(** [[a-z]], [[A-Z]], [\d] *)
Definition is_lower (c : ascii) : bool := in_range 97 122 c.
Definition is_upper (c : ascii) : bool := in_range 65 90 c.
Definition is_digit (c : ascii) : bool := in_range 48 57 c.

(** [\s] restricted to code units below 256: TAB, LF, VT, FF, CR, space and
    the no-break space. *)
Definition is_space (c : ascii) : bool :=
  in_range 9 13 c || (code c =? 32) || (code c =? 160).

Definition hyphen : ascii := ascii_of_nat 45.
Definition space : ascii := ascii_of_nat 32.

(** [re.test(s)] for a regular expression that is a single character class. *)
Definition test_class (p : ascii -> bool) (s : string) : bool :=
  existsb p (chars s).

(** [s.length] *)
Definition length (s : string) : nat := List.length (chars s).

(** [String.prototype.toLowerCase] on code units below 256: the ASCII
    capitals and the Latin-1 capitals (192..222 but the multiplication sign
    215) move up by 32. *)
Definition lower_char (c : ascii) : ascii :=
  if is_upper c then ascii_of_nat (code c + 32)
  else if in_range 192 222 c && negb (code c =? 215)
       then ascii_of_nat (code c + 32)
       else c.

Definition toLowerCase (s : string) : string :=
  of_chars (map lower_char (chars s)).

(** [s.replace(/[C]/g, '')] for a character class [C]: the characters of the
    class are deleted. *)
Definition delete_class (p : ascii -> bool) (s : string) : string :=
  of_chars (filter (fun c => negb (p c)) (chars s)).

(** [s.replace(/[C]+/g, r)] for a character class [C] and a one-character
    replacement: every maximal run of characters of the class becomes one
    [r].  A character of the class is emitted (as [r]) only when it ends
    its run. *)
Fixpoint squeeze (p : ascii -> bool) (r : ascii) (l : list ascii) : list ascii :=
  match l with
  | [] => []
  | c :: t =>
      if p c then
        match t with
        | [] => [r]
        | c' :: _ => if p c' then squeeze p r t else r :: squeeze p r t
        end
      else c :: squeeze p r t
  end.

Definition replace_runs (p : ascii -> bool) (r : ascii) (s : string) : string :=
  of_chars (squeeze p r (chars s)).

Fixpoint drop_while (p : ascii -> bool) (l : list ascii) : list ascii :=
  match l with
  | [] => []
  | c :: t => if p c then drop_while p t else l
  end.

(** [String.prototype.trim]: it takes no argument (one that is passed is
    ignored) and strips white space at both ends. *)
Definition trim (s : string) : string :=
  of_chars (rev (drop_while is_space (rev (drop_while is_space (chars s))))).

(** Decimal rendering of a non-negative integer inside a template literal. *)
Definition of_nat (n : nat) : string := NilEmpty.string_of_uint (Nat.to_uint n).

End JsString.

(** ** [parseInt] and the arithmetic of the list handlers *)

Module JsNumber.
Import JsString.

Definition digit_value (c : ascii) : option Z :=
  if is_digit c then Some (Z.of_nat (code c - 48))
  else if is_lower c then Some (Z.of_nat (code c - 87))
  else if is_upper c then Some (Z.of_nat (code c - 55))
  else None.

(** The longest prefix of digits of the radix; [acc] is [None] until a
    digit has been read. *)
Fixpoint digits_prefix (radix : Z) (acc : option Z) (l : list ascii) : option Z :=
  match l with
  | [] => acc
  | c :: t =>
      match digit_value c with
      | Some d =>
          if (d <? radix)%Z
          then digits_prefix radix
                 (Some (radix * match acc with Some a => a | None => 0 end + d)%Z) t
          else acc
      | None => acc
      end
  end.

Definition strip_sign (l : list ascii) : Z * list ascii :=
  match l with
  | c :: t =>
      if code c =? 45 then ((-1)%Z, t)
      else if code c =? 43 then (1%Z, t)
      else (1%Z, l)
  | [] => (1%Z, [])
  end.

Definition strip_radix (l : list ascii) : Z * list ascii :=
  match l with
  | z :: x :: t =>
      if (code z =? 48) && ((code x =? 120) || (code x =? 88))
      then (16%Z, t) else (10%Z, l)
  | _ => (10%Z, l)
  end.

(** [parseInt(s)]; [None] is [NaN].  Integers are exact (the handlers only
    meet values far below 2^53, or cap them). *)
Definition parseInt_string (s : string) : option Z :=
  let (sign, l1) := strip_sign (drop_while is_space (chars s)) in
  let (radix, l2) := strip_radix l1 in
  option_map (Z.mul sign) (digits_prefix radix None l2).

(** [parseInt(v)] for a possibly undefined query parameter. *)
Definition parseInt (v : option string) : option Z :=
  match v with
  | Some s => parseInt_string s
  | None => None
  end.

(** [n || d] on a number: [NaN] and [0] are falsy. *)
Definition or_default (n : option Z) (d : Z) : Z :=
  match n with
  | Some 0%Z | None => d
  | Some v => v
  end.

(** [Math.ceil(a / b)] for a non-zero [b]. *)
Definition ceil_div (a b : Z) : Z := (- ((- a) / b))%Z.

End JsNumber.

(** ** Password strength ([authController.js], [validatePasswordStrength]) *)

Module Password.
Import JsString.

(** The character class of [hasSpecialChar], by code unit:
    ! @ # $ % ^ & * ( ) , . ? double-quote : { } | < > *)
Definition special_codes : list nat :=
  [33; 64; 35; 36; 37; 94; 38; 42; 40; 41; 44; 46; 63; 34; 58; 123; 125; 124; 60; 62].

Definition is_special (c : ascii) : bool :=
  existsb (Nat.eqb (code c)) special_codes.

Record feedback := {
  fb_minLength : bool;
  fb_hasLowerCase : bool;
  fb_hasUpperCase : bool;
  fb_hasNumbers : bool;
  fb_hasSpecialChar : bool }.

Record strength := {
  isValid : bool;
  score : nat;
  details : feedback }.

Definition minLength : nat := 8.

Definition count_true (l : list bool) : nat :=
  List.length (filter (fun b => b) l).

Definition validatePasswordStrength (password : string) : strength :=
  let hasLowerCase := test_class is_lower password in
  let hasUpperCase := test_class is_upper password in
  let hasNumbers := test_class is_digit password in
  let hasSpecialChar := test_class is_special password in
  let valid :=
    (minLength <=? length password) && hasLowerCase && hasUpperCase && hasNumbers in
  {| isValid := valid;
     score := count_true [hasLowerCase; hasUpperCase; hasNumbers; hasSpecialChar];
     details := {| fb_minLength := minLength <=? length password;
                   fb_hasLowerCase := hasLowerCase;
                   fb_hasUpperCase := hasUpperCase;
                   fb_hasNumbers := hasNumbers;
                   fb_hasSpecialChar := hasSpecialChar |} |}.

(** What the specification asks of a password, in its own words. *)
Definition contains (p : ascii -> bool) (password : string) : Prop :=
  exists c, In c (chars password) /\ p c = true.

Definition meets_policy (password : string) : Prop :=
  8 <= length password /\
  contains is_lower password /\
  contains is_upper password /\
  contains is_digit password.

End Password.

(** ** Slugs ([messageController.js], [generateSlug]) *)

Module Slug.
Import JsString.

(** The class [[a-z0-9 -]]; the first [replace] deletes its complement. *)
Definition slug_char (c : ascii) : bool :=
  is_lower c || is_digit c || (code c =? 32) || (code c =? 45).

Definition is_hyphen (c : ascii) : bool := code c =? 45.

Definition generateSlug (title : string) : string :=
  trim
    (replace_runs is_hyphen hyphen
       (replace_runs is_space hyphen
          (delete_class (fun c => negb (slug_char c))
             (toLowerCase title)))).

(** The template literal [`${slug}-${counter}`]. *)
Definition suffixed (slug : string) (counter : nat) : string :=
  (slug ++ String hyphen (of_nat counter))%string.

End Slug.

(** ** Values, tables and the world a handler runs in *)

Module Core.

(** A value parsed from a JSON request body. *)
Inductive json :=
| JNull
| JBool (b : bool)
| JNum (n : Z)
| JStr (s : string)
| JArr (items : list json)
| JObj (fields : list (string * json)).

(** [o[k]] on a parsed object; [None] is [undefined]. *)
Fixpoint field (k : string) (o : list (string * json)) : option json :=
  match o with
  | [] => None
  | (k', v) :: t => if String.eqb k k' then Some v else field k t
  end.

(** JavaScript truthiness of a possibly undefined value. *)
Definition truthy (v : option json) : bool :=
  match v with
  | None | Some JNull | Some (JBool false) => false
  | Some (JNum n) => negb (n =? 0)%Z
  | Some (JStr s) => negb (s =? "")%string
  | Some _ => true
  end.

(** [a.includes(x)] on an array of strings. *)
Definition includes (a : list string) (x : string) : bool :=
  existsb (String.eqb x) a.

(** The tables hold the columns that the statements of the controllers
    name.  Timestamps are milliseconds. *)
Record user_row := {
  u_id : string;
  u_email : string;
  u_password_hash : string;
  u_first_name : string;
  u_last_name : string;
  u_username : string;
  u_bio : option string;
  u_avatar_url : option string;
  u_role : string;
  u_status : string;
  u_last_login : option Z;
  u_login_count : option Z;
  u_updated_at : Z }.

Record message_row := {
  m_id : string;
  m_title : string;
  m_content : string;
  m_excerpt : option string;
  m_slug : string;
  m_category_id : option string;
  m_author_id : string;
  m_status : string;
  m_is_featured : bool;
  m_is_pinned : bool;
  m_view_count : Z;
  m_like_count : Z;
  m_comment_count : Z;
  m_published_at : option Z;
  m_updated_at : Z }.

Record token_row := {
  t_token : string;
  t_user_id : string;
  t_expires_at : Z;
  t_is_revoked : bool }.

(** What [JSON.stringify] is applied to before an audit row is written. *)
Inductive snapshot :=
| SnapUser (u : user_row)
| SnapMessage (m : message_row).

Record audit_row := {
  a_user_id : string;
  a_action : string;
  a_resource_type : string;
  a_resource_id : string;
  a_old_values : option snapshot;
  a_new_values : option snapshot;
  a_ip_address : option string;
  a_user_agent : option string }.

(** A dynamically assembled [SELECT] handed to [sql.unsafe]: the text
    fragments that vary, and the bound parameters. *)
Record list_query := {
  q_table : string;
  q_where : list string;
  q_params : list string;
  q_sort : string;
  q_order : string;
  q_limit : Z;
  q_offset : Z }.

(** The world of a request: the tables, the clock ([now] is what
    [new Date()] reads), the paged [SELECT]s executed so far, the console,
    and the plan of the coming statements (see [sql]). *)
Record world := {
  users : list user_row;
  messages : list message_row;
  message_tags : list (string * string);
  refresh_tokens : list token_row;
  audit_logs : list audit_row;
  now : Z;
  executed : list list_query;
  console : list string;
  faults : list bool }.

Definition with_users (v : list user_row) (w : world) : world :=
  {| users := v; messages := messages w; message_tags := message_tags w;
     refresh_tokens := refresh_tokens w; audit_logs := audit_logs w;
     now := now w; executed := executed w; console := console w;
     faults := faults w |}.

Definition with_messages (v : list message_row) (w : world) : world :=
  {| users := users w; messages := v; message_tags := message_tags w;
     refresh_tokens := refresh_tokens w; audit_logs := audit_logs w;
     now := now w; executed := executed w; console := console w;
     faults := faults w |}.

Definition with_message_tags (v : list (string * string)) (w : world) : world :=
  {| users := users w; messages := messages w; message_tags := v;
     refresh_tokens := refresh_tokens w; audit_logs := audit_logs w;
     now := now w; executed := executed w; console := console w;
     faults := faults w |}.

Definition with_audit_logs (v : list audit_row) (w : world) : world :=
  {| users := users w; messages := messages w; message_tags := message_tags w;
     refresh_tokens := refresh_tokens w; audit_logs := v;
     now := now w; executed := executed w; console := console w;
     faults := faults w |}.

Definition with_executed (v : list list_query) (w : world) : world :=
  {| users := users w; messages := messages w; message_tags := message_tags w;
     refresh_tokens := refresh_tokens w; audit_logs := audit_logs w;
     now := now w; executed := v; console := console w;
     faults := faults w |}.

Definition with_console (v : list string) (w : world) : world :=
  {| users := users w; messages := messages w; message_tags := message_tags w;
     refresh_tokens := refresh_tokens w; audit_logs := audit_logs w;
     now := now w; executed := executed w; console := v;
     faults := faults w |}.

Definition with_faults (v : list bool) (w : world) : world :=
  {| users := users w; messages := messages w; message_tags := message_tags w;
     refresh_tokens := refresh_tokens w; audit_logs := audit_logs w;
     now := now w; executed := executed w; console := console w;
     faults := v |}.

(** *** The handler monad: state and exceptions *)

Inductive exn := SqlError | TokenExpiredError | JsonWebTokenError | TypeError.

(** [Unfinished] marks a loop that has used up the fuel the embedding
    gives it; it is no JavaScript value and no handler catches it. *)
Inductive outcome (A : Type) :=
| Returned (a : A)
| Thrown (e : exn)
| Unfinished.
Arguments Thrown {A} e.
Arguments Unfinished {A}.

Definition M (A : Type) : Type := world -> outcome A * world.

Definition ret {A} (a : A) : M A := fun w => (Returned a, w).

Definition bind {A B} (c : M A) (k : A -> M B) : M B :=
  fun w =>
    match c w with
    | (Returned a, w') => k a w'
    | (Thrown e, w') => (Thrown e, w')
    | (Unfinished, w') => (Unfinished, w')
    end.

Definition throw {A} (e : exn) : M A := fun w => (Thrown e, w).

(** [try { c } catch (error) { h error }] *)
Definition try_catch {A} (c : M A) (h : exn -> M A) : M A :=
  fun w =>
    match c w with
    | (Returned a, w') => (Returned a, w')
    | (Thrown e, w') => h e w'
    | (Unfinished, w') => (Unfinished, w')
    end.

Definition unfinished {A} : M A := fun w => (Unfinished, w).

Definition get_world : M world := fun w => (Returned w, w).

(** One awaited statement.  The next bit of the fault plan says whether the
    statement is lost to the driver (connection, timeout); [stmt] answers
    [None] when the statement itself is refused by the database. *)
Definition sql {A} (stmt : world -> option (A * world)) : M A :=
  fun w =>
    match faults w with
    | true :: plan => (Thrown SqlError, with_faults plan w)
    | false :: plan =>
        match stmt (with_faults plan w) with
        | Some (a, w') => (Returned a, w')
        | None => (Thrown SqlError, with_faults plan w)
        end
    | [] =>
        match stmt w with
        | Some (a, w') => (Returned a, w')
        | None => (Thrown SqlError, w)
        end
    end.

(** [logger.*] and [console.error]: a line on the console. *)
Definition log_line (line : string) : M unit :=
  fun w => (Returned tt, with_console (console w ++ [line]) w).

End Core.

Declare Scope handler_scope.
Delimit Scope handler_scope with handler.
Notation "x <- c ;; k" := (Core.bind c (fun x => k))
  (at level 61, c at next level, right associativity) : handler_scope.
Notation "c ;;; k" := (Core.bind c (fun _ => k))
  (at level 61, right associativity) : handler_scope.

(** ** The audit trail ([utils/auditLogger.js]) *)

Module Audit.
Import Core.
Local Open Scope handler_scope.

Definition insert_audit (row : audit_row) : M unit :=
  sql (fun w => Some (tt, with_audit_logs (audit_logs w ++ [row]) w)).

Definition createAuditLog (userId action resourceType resourceId : string)
    (oldValues newValues : option snapshot)
    (ipAddress userAgent : option string) : M unit :=
  try_catch
    (insert_audit
       {| a_user_id := userId; a_action := action;
          a_resource_type := resourceType; a_resource_id := resourceId;
          a_old_values := oldValues; a_new_values := newValues;
          a_ip_address := ipAddress; a_user_agent := userAgent |})
    (fun error => log_line "Failed to create audit log:").

End Audit.

(** ** Requests, responses and what the server takes from outside *)

Module Http.
Import Core.

(** [req.user], the columns [authenticateToken] selects. *)
Record principal := {
  p_id : string;
  p_email : string;
  p_username : string;
  p_first_name : string;
  p_last_name : string;
  p_role : string;
  p_status : string;
  p_avatar_url : option string }.

Definition principal_of (u : user_row) : principal :=
  {| p_id := u_id u; p_email := u_email u; p_username := u_username u;
     p_first_name := u_first_name u; p_last_name := u_last_name u;
     p_role := u_role u; p_status := u_status u;
     p_avatar_url := u_avatar_url u |}.

Record request := {
  authorization : option string;
  query : list (string * string);
  body : list (string * json);
  param : string;
  user : option principal;
  ip : option string;
  user_agent : option string }.

Definition with_user (p : option principal) (r : request) : request :=
  {| authorization := authorization r; query := query r; body := body r;
     param := param r; user := p; ip := ip r; user_agent := user_agent r |}.

Definition with_body (b : list (string * json)) (r : request) : request :=
  {| authorization := authorization r; query := query r; body := b;
     param := param r; user := user r; ip := ip r; user_agent := user_agent r |}.

Definition with_query (q : list (string * string)) (r : request) : request :=
  {| authorization := authorization r; query := q; body := body r;
     param := param r; user := user r; ip := ip r; user_agent := user_agent r |}.

(** [req.query.k] *)
Fixpoint query_param (k : string) (q : list (string * string)) : option string :=
  match q with
  | [] => None
  | (k', v) :: t => if String.eqb k k' then Some v else query_param k t
  end.

Record token_user := {
  tu_id : string;
  tu_email : string;
  tu_firstName : string;
  tu_lastName : string;
  tu_username : string;
  tu_role : string }.

Record user_view := {
  uv_id : string;
  uv_email : string;
  uv_firstName : string;
  uv_lastName : string;
  uv_username : string;
  uv_avatarUrl : option string;
  uv_bio : option string;
  uv_role : string;
  uv_status : string;
  uv_lastLogin : option Z;
  uv_loginCount : option Z;
  uv_updatedAt : Z }.

(** The message as the JSON responses show it.  The joined category,
    author and tag columns are copied through unchanged by the handlers
    and are not part of the embedding. *)
Record message_view := {
  mv_id : string;
  mv_title : string;
  mv_content : string;
  mv_excerpt : option string;
  mv_slug : string;
  mv_status : string;
  mv_isFeatured : bool;
  mv_isPinned : bool;
  mv_viewCount : Z;
  mv_likeCount : Z;
  mv_commentCount : Z;
  mv_publishedAt : option Z;
  mv_updatedAt : Z }.

Record pagination := {
  pg_page : Z;
  pg_limit : Z;
  pg_total : Z;
  pg_pages : Z }.

Inductive payload :=
| NoData
| Errors (errors : list (string * string))
| TokenData (accessToken : string) (u : token_user)
| UserData (u : user_view)
| MessageData (m : message_view)
| UsersPage (l : list user_view) (p : pagination)
| MessagesPage (l : list message_view) (p : pagination).

(** [res.status(status).json({ success, message, data | errors })] *)
Record response := {
  status : nat;
  success : bool;
  message : option string;
  data : payload }.

Definition failure (code : nat) (msg : string) : response :=
  {| status := code; success := false; message := Some msg; data := NoData |}.

Definition ok (msg : option string) (d : payload) : response :=
  {| status := 200; success := true; message := msg; data := d |}.

Definition created (msg : string) (d : payload) : response :=
  {| status := 201; success := true; message := Some msg; data := d |}.

(** A middleware either answers or hands the (possibly changed) request to
    the next one. *)
Inductive step :=
| Answer (r : response)
| Next (req : request).

(** What [jwt.verify] does with a token: the decoded [userId], or one of
    its two kinds of error. *)
Inductive verdict :=
| Verified (userId : string)
| Expired
| Rejected.

(** The libraries, the language runtime and the database engine, taken as
    given: signature checks and signing ([jsonwebtoken]), [String(v)], the
    text, boolean or integer a bound parameter becomes in a column of that
    type ([None]: the statement is refused), the identifier a new row gets,
    the rows and the count a paged [SELECT] yields. *)
Record env := {
  verify_access : string -> verdict;
  verify_refresh : string -> verdict;
  sign_access : string -> string;
  to_string : json -> string;
  pg_text : json -> option string;
  pg_bool : json -> option bool;
  pg_int : json -> option Z;
  gen_random_uuid : list message_row -> string;
  page_of_users : list_query -> list user_row -> list user_row;
  count_users : list_query -> list user_row -> Z;
  page_of_messages : list_query -> list message_row -> list message_row;
  count_messages : list_query -> list message_row -> Z }.

Definition jwt_verify (v : verdict) : M string :=
  match v with
  | Verified userId => ret userId
  | Expired => throw TokenExpiredError
  | Rejected => throw JsonWebTokenError
  end.

End Http.

(** ** Authorization middleware ([middleware/auth.js]) *)

Module AuthMiddleware.
Import Core Http JsString.
Local Open Scope handler_scope.

(** [s.split(' ')] *)
Fixpoint split_chars (sep : ascii) (cur : list ascii) (l : list ascii)
  : list (list ascii) :=
  match l with
  | [] => [rev cur]
  | c :: t =>
      if Ascii.eqb c sep then rev cur :: split_chars sep [] t
      else split_chars sep (c :: cur) t
  end.

Definition split (sep : ascii) (s : string) : list string :=
  map of_chars (split_chars sep [] (chars s)).

(** [authHeader && authHeader.split(' ')[1]], then the test [!token]:
    [None] when the result is falsy. *)
Definition bearer_token (authHeader : option string) : option string :=
  match authHeader with
  | None => None
  | Some h =>
      match nth_error (split space h) 1 with
      | Some t => if (t =? "")%string then None else Some t
      | None => None
      end
  end.

(** [SELECT ... FROM users WHERE id = $1 AND status = 'active'] *)
Definition select_active_user (id : string) : M (list user_row) :=
  sql (fun w =>
    Some (filter (fun u => (u_id u =? id)%string && (u_status u =? "active")%string)
                 (users w), w)).

Section WithEnv.
Variable e : env.

Definition authenticateToken (req : request) : M step :=
  try_catch
    (match bearer_token (authorization req) with
     | None => ret (Answer (failure 401 "Access token required"))
     | Some token =>
         userId <- jwt_verify (verify_access e token) ;;
         rows <- select_active_user userId ;;
         match rows with
         | [] => ret (Answer (failure 401 "Invalid token or user not found"))
         | u :: _ => ret (Next (with_user (Some (principal_of u)) req))
         end
     end)
    (fun error =>
       match error with
       | TokenExpiredError => ret (Answer (failure 401 "Token expired"))
       | _ => ret (Answer (failure 403 "Invalid token"))
       end).

Definition requireRole (roles : list string) (req : request) : step :=
  match user req with
  | None => Answer (failure 401 "Authentication required")
  | Some p =>
      if includes roles (p_role p) then Next req
      else Answer (failure 403 "Insufficient permissions")
  end.

Definition requireAdmin := requireRole ["admin"].
Definition requireModerator := requireRole ["admin"; "moderator"].

Definition optionalAuth (req : request) : M step :=
  try_catch
    (match bearer_token (authorization req) with
     | None => ret (Next req)
     | Some token =>
         userId <- jwt_verify (verify_access e token) ;;
         rows <- select_active_user userId ;;
         match rows with
         | [] => ret (Next req)
         | u :: _ => ret (Next (with_user (Some (principal_of u)) req))
         end
     end)
    (fun error => ret (Next req)).

End WithEnv.
End AuthMiddleware.

(** ** Token refresh ([authController.js], [refreshToken]) *)

Module AuthController.
Import Core Http.
Local Open Scope handler_scope.

(** [SELECT user_id, expires_at, is_revoked FROM refresh_tokens WHERE token = $1] *)
Definition select_token (token : string) : M (list token_row) :=
  sql (fun w =>
    Some (filter (fun t => (t_token t =? token)%string) (refresh_tokens w), w)).

Definition token_user_of (u : user_row) : token_user :=
  {| tu_id := u_id u; tu_email := u_email u; tu_firstName := u_first_name u;
     tu_lastName := u_last_name u; tu_username := u_username u;
     tu_role := u_role u |}.

Section WithEnv.
Variable e : env.

Definition refreshToken (req : request) : M response :=
  try_catch
    (let refreshToken := field "refreshToken" (body req) in
     if negb (truthy refreshToken) then
       ret (failure 401 "Refresh token required")
     else
       match refreshToken with
       | Some (JStr token) =>
           userId <- jwt_verify (verify_refresh e token) ;;
           rows <- select_token token ;;
           w <- get_world ;;
           let invalid :=
             match rows with
             | [] => true
             | tokenRecord :: _ =>
                 t_is_revoked tokenRecord || (t_expires_at tokenRecord <? now w)%Z
             end in
           if invalid then
             log_line "Invalid or expired refresh token used" ;;;
             ret (failure 401 "Invalid or expired refresh token")
           else
             found <- AuthMiddleware.select_active_user userId ;;
             match found with
             | [] =>
                 log_line "Refresh token used for non-existent or inactive user" ;;;
                 ret (failure 401 "User not found or inactive")
             | u :: _ =>
                 let newAccessToken := sign_access e (u_id u) in
                 log_line "Access token refreshed" ;;;
                 ret (ok None (TokenData newAccessToken (token_user_of u)))
             end
       | _ => throw JsonWebTokenError
       end)
    (fun error =>
       log_line "Refresh token error:" ;;;
       ret (failure 401 "Invalid refresh token")).

End WithEnv.
End AuthController.

(** ** Whitelists and request validation ([middleware/validation.js]) *)

Module Validation.
Import Core Http JsString JsNumber Slug.

(** [/^[0-9a-f]{8}-[0-9a-f]{4}-[0-9a-f]{4}-[0-9a-f]{4}-[0-9a-f]{12}$/i] *)
Definition is_hex (c : ascii) : bool :=
  is_digit c || in_range 97 102 c || in_range 65 70 c.

Fixpoint take_hex (n : nat) (l : list ascii) : option (list ascii) :=
  match n with
  | 0 => Some l
  | S n' =>
      match l with
      | c :: t => if is_hex c then take_hex n' t else None
      | [] => None
      end
  end.

Fixpoint hex_groups (groups : list nat) (l : list ascii) : bool :=
  match groups with
  | [] => false
  | [n] => match take_hex n l with Some [] => true | _ => false end
  | n :: rest =>
      match take_hex n l with
      | Some (c :: t) => is_hyphen c && hex_groups rest t
      | _ => false
      end
  end.

Definition is_uuid (s : string) : bool := hex_groups [8; 4; 4; 4; 12] (chars s).

Definition ALLOWED_USER_UPDATE_FIELDS : list string :=
  ["first_name"; "last_name"; "username"; "bio"; "avatar_url"; "role"; "status"].

Definition ALLOWED_MESSAGE_UPDATE_FIELDS : list string :=
  ["title"; "content"; "excerpt"; "category_id"; "status"; "is_featured"; "is_pinned"].

Definition ALLOWED_SORT_FIELDS : list string :=
  ["created_at"; "updated_at"; "title"; "view_count"; "like_count"; "published_at"].

(** [for (const field of allowed) if (body[field] !== undefined) ...] *)
Fixpoint pick (allowed : list string) (b : list (string * json))
  : list (string * json) :=
  match allowed with
  | [] => []
  | f :: rest =>
      match field f b with
      | Some v => (f, v) :: pick rest b
      | None => pick rest b
      end
  end.

Definition whitelistUserFields (req : request) : step :=
  Next (with_body (pick ALLOWED_USER_UPDATE_FIELDS (body req)) req).

Definition whitelistMessageFields (req : request) : step :=
  Next (with_body
          (pick ALLOWED_MESSAGE_UPDATE_FIELDS (body req)
           ++ match field "tags" (body req) with
              | Some v => [("tags", v)]
              | None => []
              end)
          req).

(** The validators and sanitizers of [express-validator] that the chains
    use, on the string a query parameter is. *)

(** [isInt({ min, max })]: an optional sign and digits, within bounds. *)
Definition int_literal (s : string) : option Z :=
  let (sign, ds) := strip_sign (chars s) in
  match ds with
  | [] => None
  | _ => if forallb is_digit ds
         then option_map (Z.mul sign) (digits_prefix 10 None ds)
         else None
  end.

Definition isInt (min max : Z) (s : string) : bool :=
  match int_literal s with
  | Some v => (min <=? v)%Z && (v <=? max)%Z
  | None => false
  end.

Definition isIn (values : list string) (s : string) : bool := includes values s.

(** [matches(/^[C]+$/)] for a character class [C] *)
Definition matches_class (p : ascii -> bool) (s : string) : bool :=
  match chars s with
  | [] => false
  | l => forallb p l
  end.

Definition is_word (c : ascii) : bool :=
  is_lower c || is_upper c || is_digit c || (code c =? 95).

Definition escape_char (c : ascii) : string :=
  if code c =? 38 then "&amp;"
  else if code c =? 34 then "&quot;"
  else if code c =? 39 then "&#x27;"
  else if code c =? 60 then "&lt;"
  else if code c =? 62 then "&gt;"
  else if code c =? 47 then "&#x2F;"
  else if code c =? 92 then "&#x5C;"
  else if code c =? 96 then "&#96;"
  else String c EmptyString.

Definition escape (s : string) : string :=
  of_chars (flat_map (fun c => chars (escape_char c)) (chars s)).

(** One chain [query(name).optional()...]: the sanitizers rewrite the
    parameter, the validator may add an error; an absent parameter is
    skipped. *)
Definition set_param (k v : string) (q : list (string * string))
  : list (string * string) :=
  map (fun kv => if (fst kv =? k)%string then (k, v) else kv) q.

Definition chain (name : string) (sanitize : string -> string)
    (valid : string -> bool) (msg : string)
    (acc : list (string * string) * list (string * string))
  : list (string * string) * list (string * string) :=
  let (q, errors) := acc in
  match query_param name q with
  | None => acc
  | Some v =>
      let v' := sanitize v in
      (set_param name v' q,
       if valid v' then errors else errors ++ [(name, msg)])
  end.

Definition handleValidationErrors (req : request)
    (errors : list (string * string)) : step :=
  match errors with
  | [] => Next req
  | _ => Answer {| status := 400; success := false;
                   message := Some "Validation failed";
                   data := Errors errors |}
  end.

Definition statuses : list string := ["active"; "hidden"; "flagged"; "deleted"].

Definition validatePagination (req : request) : step :=
  let id := fun s : string => s in
  let clean := fun s => escape (trim s) in
  let (q, errors) :=
    chain "author" clean (matches_class is_word)
      "Author username contains invalid characters"
    (chain "status" id (isIn statuses) "Invalid status value"
    (chain "category" clean
       (matches_class (fun c => is_word c || is_hyphen c))
       "Category slug contains invalid characters"
    (chain "search" clean (fun s => length s <=? 100)
       "Search query must not exceed 100 characters"
    (chain "order" id (isIn ["asc"; "desc"]) "Order must be either asc or desc"
    (chain "sort" id (isIn ALLOWED_SORT_FIELDS)
       "Sort field must be one of: created_at, updated_at, title, view_count, like_count, published_at"
    (chain "limit" id (isInt 1 100) "Limit must be between 1 and 100"
    (chain "page" id (isInt 1 1000) "Page must be between 1 and 1000"
       (query req, []))))))))
  in handleValidationErrors (with_query q req) errors.

(** [validateUUID('id')] on the route parameter *)
Definition validateUUID (req : request) : step :=
  handleValidationErrors req
    (if is_uuid (param req) then [] else [("id", "id must be a valid UUID")]).

End Validation.

(** ** Messages ([messageController.js]) *)

Module MessageController.
Import Core Http JsString JsNumber Slug Audit Validation.
Local Open Scope handler_scope.

Definition view_of (m : message_row) : message_view :=
  {| mv_id := m_id m; mv_title := m_title m; mv_content := m_content m;
     mv_excerpt := m_excerpt m; mv_slug := m_slug m; mv_status := m_status m;
     mv_isFeatured := m_is_featured m; mv_isPinned := m_is_pinned m;
     mv_viewCount := m_view_count m; mv_likeCount := m_like_count m;
     mv_commentCount := m_comment_count m;
     mv_publishedAt := m_published_at m; mv_updatedAt := m_updated_at m |}.

Definition with_viewCount (n : Z) (v : message_view) : message_view :=
  {| mv_id := mv_id v; mv_title := mv_title v; mv_content := mv_content v;
     mv_excerpt := mv_excerpt v; mv_slug := mv_slug v; mv_status := mv_status v;
     mv_isFeatured := mv_isFeatured v; mv_isPinned := mv_isPinned v;
     mv_viewCount := n; mv_likeCount := mv_likeCount v;
     mv_commentCount := mv_commentCount v;
     mv_publishedAt := mv_publishedAt v; mv_updatedAt := mv_updatedAt v |}.

Definition with_view_count (n : Z) (m : message_row) : message_row :=
  {| m_id := m_id m; m_title := m_title m; m_content := m_content m;
     m_excerpt := m_excerpt m; m_slug := m_slug m;
     m_category_id := m_category_id m; m_author_id := m_author_id m;
     m_status := m_status m; m_is_featured := m_is_featured m;
     m_is_pinned := m_is_pinned m; m_view_count := n;
     m_like_count := m_like_count m; m_comment_count := m_comment_count m;
     m_published_at := m_published_at m; m_updated_at := m_updated_at m |}.

(** [req.user?.role] and [req.user?.id] *)
Definition role_of (req : request) : option string := option_map p_role (user req).
Definition id_of (req : request) : option string := option_map p_id (user req).

Definition is_role (r : string) (o : option string) : bool :=
  match o with Some x => (x =? r)%string | None => false end.

Definition elevated (o : option string) : bool :=
  is_role "admin" o || is_role "moderator" o.

(** [SELECT ... FROM messages m ... WHERE m.id = $1] or [... m.slug = $1] *)
Definition select_message (by_id : bool) (key : string) : M (list message_row) :=
  sql (fun w =>
    Some (filter (fun m => if by_id then (m_id m =? key)%string
                           else (m_slug m =? key)%string)
                 (messages w), w)).

(** [UPDATE messages SET view_count = view_count + 1 WHERE id = $1] *)
Definition increment_view_count (id : string) : M unit :=
  sql (fun w =>
    Some (tt,
          with_messages
            (map (fun m => if (m_id m =? id)%string
                           then with_view_count (m_view_count m + 1)%Z m
                           else m)
                 (messages w)) w)).

Definition getMessageBySlug (req : request) : M response :=
  try_catch
    (let slug := param req in
     if (slug =? "")%string then ret (failure 400 "Invalid slug parameter")
     else
       rows <- select_message (is_uuid slug) slug ;;
       match rows with
       | [] =>
           log_line "Message not found" ;;;
           ret (failure 404 "Message not found")
       | message :: _ =>
           if negb (m_status message =? "active")%string
              && negb (is_role "admin" (role_of req))
              && negb (is_role "moderator" (role_of req))
              && negb (is_role (m_author_id message) (id_of req))
           then
             log_line "Unauthorized access attempt to message" ;;;
             ret (failure 404 "Message not found")
           else
             (if (m_status message =? "active")%string
              then increment_view_count (m_id message)
              else ret tt) ;;;
             log_line "Message viewed" ;;;
             ret (ok None
                    (MessageData
                       (with_viewCount (m_view_count message + 1)%Z
                                       (view_of message))))
       end)
    (fun error =>
       log_line "Get message by slug error:" ;;;
       ret (failure 500 "Internal server error")).

(** [SELECT id FROM messages WHERE slug = $1], with [AND id != $2] when a
    message is being renamed; the answer is whether a row came back. *)
Definition slug_taken (except : option string) (finalSlug : string) : M bool :=
  sql (fun w =>
    Some (existsb (fun m => (m_slug m =? finalSlug)%string
                            && match except with
                               | Some id => negb (m_id m =? id)%string
                               | None => true
                               end)
                  (messages w), w)).

(** The [while (slugExists)] loop.  [finalSlug] and [counter] are the loop
    variables; one unit of fuel is one turn. *)
Fixpoint slug_loop (fuel : nat) (except : option string)
    (slug finalSlug : string) (counter : nat) : M string :=
  match fuel with
  | 0 => unfinished
  | S fuel' =>
      existing <- slug_taken except finalSlug ;;
      if existing
      then slug_loop fuel' except slug (suffixed slug counter) (S counter)
      else ret finalSlug
  end.

(** The loop as the handlers start it: [finalSlug = slug], [counter = 1],
    and as many turns as the table has rows, plus one. *)
Definition unique_slug (except : option string) (slug : string) : M string :=
  w <- get_world ;;
  slug_loop (S (List.length (messages w))) except slug slug 1.

(** [x || d] on a possibly undefined value. *)
Definition or_else (v : option json) (d : json) : json :=
  match v with
  | Some x => if truthy v then x else d
  | None => d
  end.

(** A value on the right of [SET column = $n]. *)
Inductive cell :=
| CJson (v : json)
| CText (s : string)
| CDate (t : Z).

(** [DELETE FROM messages WHERE id = $1] *)
Definition delete_message (id : string) : M unit :=
  sql (fun w =>
    Some (tt, with_messages
                (filter (fun m => negb (m_id m =? id)%string) (messages w)) w)).

(** [DELETE FROM message_tags WHERE message_id = $1] *)
Definition delete_tags (id : string) : M unit :=
  sql (fun w =>
    Some (tt, with_message_tags
                (filter (fun mt => negb (fst mt =? id)%string) (message_tags w)) w)).

Definition has_tag (id tag : string) (l : list (string * string)) : bool :=
  existsb (fun mt => (fst mt =? id)%string && (snd mt =? tag)%string) l.

(** The [UPDATE ... RETURNING *] of both controllers: every selected row
    is rewritten by [set]; the statement is refused, and nothing changes,
    when [set] refuses a row.  The answer is the new table and the rows
    returned. *)
Fixpoint update_rows {R} (sel : R -> bool) (set : R -> option R) (rows : list R)
  : option (list R * list R) :=
  match rows with
  | [] => Some ([], [])
  | r :: t =>
      match update_rows sel set t with
      | None => None
      | Some (t', out) =>
          if sel r then
            match set r with
            | Some r' => Some (r' :: t', r' :: out)
            | None => None
            end
          else Some (r :: t', out)
      end
  end.

Section WithEnv.
Variable e : env.

(** A bound parameter in a [NOT NULL] text column, and in a nullable one. *)
Definition text_cell (v : json) : option string :=
  match v with
  | JNull => None
  | _ => pg_text e v
  end.

Definition nullable_text_cell (v : json) : option (option string) :=
  match v with
  | JNull => Some None
  | _ => option_map Some (pg_text e v)
  end.

(** A parameter that may be [undefined]: the driver refuses it. *)
Definition bound {A} (conv : json -> option A) (v : option json) : option A :=
  match v with
  | Some x => conv x
  | None => None
  end.

(** [INSERT INTO message_tags ... ON CONFLICT (message_id, tag_id) DO NOTHING] *)
Definition insert_tag (id : string) (tagId : json) : M unit :=
  sql (fun w =>
    match pg_text e tagId with
    | Some tag =>
        Some (tt, if has_tag id tag (message_tags w) then w
                  else with_message_tags (message_tags w ++ [(id, tag)]) w)
    | None => None
    end).

(** [for (const tagId of tags)] *)
Fixpoint insert_tags (id : string) (tags : list json) : M unit :=
  match tags with
  | [] => ret tt
  | tagId :: rest =>
      (if is_uuid (to_string e tagId) then insert_tag id tagId
       else log_line "Invalid tag ID provided") ;;;
      insert_tags id rest
  end.

(** [INSERT INTO messages (...) VALUES (...) RETURNING *] *)
Definition insert_message (title content excerpt : option json) (finalSlug : string)
    (categoryId : option json) (author : string) (messageStatus : json)
    (isFeatured isPinned : option json) : M message_row :=
  sql (fun w =>
    match bound text_cell title, bound text_cell content,
          nullable_text_cell (or_else excerpt JNull),
          nullable_text_cell (or_else categoryId JNull),
          text_cell messageStatus,
          pg_bool e (or_else isFeatured (JBool false)),
          pg_bool e (or_else isPinned (JBool false)) with
    | Some t, Some c, Some ex, Some cat, Some st, Some ft, Some pn =>
        let row :=
          {| m_id := gen_random_uuid e (messages w);
             m_title := t; m_content := c; m_excerpt := ex;
             m_slug := finalSlug; m_category_id := cat;
             m_author_id := author; m_status := st;
             m_is_featured := ft; m_is_pinned := pn;
             m_view_count := 0; m_like_count := 0; m_comment_count := 0;
             m_published_at :=
               match messageStatus with
               | JStr "active" => Some (now w)
               | _ => None
               end;
             m_updated_at := now w |} in
        Some (row, with_messages (messages w ++ [row]) w)
    | _, _, _, _, _, _, _ => None
    end).

(** [generateSlug(title)] on whatever the body holds under [title]. *)
Definition slug_of_title (title : option json) : M string :=
  match title with
  | Some (JStr t) => ret (generateSlug t)
  | _ => throw TypeError
  end.

(** [req.user], whose fields the handler reads without a test. *)
Definition the_user (req : request) : M principal :=
  match user req with
  | Some p => ret p
  | None => throw TypeError
  end.

Definition createMessage (req : request) : M response :=
  try_catch
    (let b := body req in
     slug <- slug_of_title (field "title" b) ;;
     finalSlug <- unique_slug None slug ;;
     u <- the_user req ;;
     let messageStatus :=
       if (p_role u =? "user")%string then JStr "active"
       else or_else (field "status" b) (JStr "active") in
     message <- insert_message (field "title" b) (field "content" b)
                  (field "excerpt" b) finalSlug (field "categoryId" b)
                  (p_id u) messageStatus
                  (field "isFeatured" b) (field "isPinned" b) ;;
     match field "tags" b with
     | Some (JArr (t :: ts)) => insert_tags (m_id message) (t :: ts)
     | _ => ret tt
     end ;;;
     createAuditLog (p_id u) "create" "message" (m_id message)
       None (Some (SnapMessage message)) (ip req) (user_agent req) ;;;
     log_line "Message created" ;;;
     ret (created "Message created successfully" (MessageData (view_of message))))
    (fun error =>
       log_line "Create message error:" ;;;
       ret (failure 500 "Internal server error")).

(** How a [SET] value lands in a column of each type; [None]: refused. *)
Definition as_text (v : cell) : option string :=
  match v with
  | CJson j => text_cell j
  | CText s => Some s
  | CDate _ => None
  end.

Definition as_nullable_text (v : cell) : option (option string) :=
  match v with
  | CJson j => nullable_text_cell j
  | CText s => Some (Some s)
  | CDate _ => None
  end.

Definition as_bool (v : cell) : option bool :=
  match v with
  | CJson j => pg_bool e j
  | _ => None
  end.

Definition as_time (v : cell) : option (option Z) :=
  match v with
  | CDate t => Some (Some t)
  | CJson JNull => Some None
  | _ => None
  end.

(** An integer in a [NOT NULL] column, and in a nullable one. *)
Definition as_int (v : cell) : option Z :=
  match v with
  | CJson JNull => None
  | CJson j => pg_int e j
  | _ => None
  end.

Definition as_nullable_int (v : cell) : option (option Z) :=
  match v with
  | CJson JNull => Some None
  | CJson j => option_map Some (pg_int e j)
  | _ => None
  end.

(** The columns of [messages] that the embedding keeps, but for
    [updated_at]: the statement sets it itself, and PostgreSQL refuses a
    second assignment to a column. *)
Definition message_columns : list string :=
  ["id"; "title"; "content"; "excerpt"; "slug"; "category_id"; "author_id";
   "status"; "is_featured"; "is_pinned"; "view_count"; "like_count";
   "comment_count"; "published_at"].

(** [SET col = v] on one row: any of these columns can be named, the
    identifier, the author and the counters as well as the others; any
    other name is refused. *)
Definition set_message_column (col : string) (v : cell) (m : message_row)
  : option message_row :=
  let on {A} (name : string) (conv : cell -> option A) (old : A) : option A :=
    if (col =? name)%string then conv v else Some old in
  if negb (includes message_columns col) then None
  else
    match on "id" as_text (m_id m),
          on "title" as_text (m_title m),
          on "content" as_text (m_content m),
          on "excerpt" as_nullable_text (m_excerpt m),
          on "slug" as_text (m_slug m),
          on "category_id" as_nullable_text (m_category_id m),
          on "author_id" as_text (m_author_id m),
          on "status" as_text (m_status m) with
    | Some id, Some t, Some c, Some ex, Some sl, Some cat, Some au, Some st =>
        match on "is_featured" as_bool (m_is_featured m),
              on "is_pinned" as_bool (m_is_pinned m),
              on "view_count" as_int (m_view_count m),
              on "like_count" as_int (m_like_count m),
              on "comment_count" as_int (m_comment_count m),
              on "published_at" as_time (m_published_at m) with
        | Some ft, Some pn, Some vc, Some lc, Some cc, Some pa =>
            Some {| m_id := id; m_title := t; m_content := c; m_excerpt := ex;
                    m_slug := sl; m_category_id := cat; m_author_id := au;
                    m_status := st; m_is_featured := ft; m_is_pinned := pn;
                    m_view_count := vc; m_like_count := lc;
                    m_comment_count := cc;
                    m_published_at := pa; m_updated_at := m_updated_at m |}
        | _, _, _, _, _, _ => None
        end
    | _, _, _, _, _, _, _, _ => None
    end.

Fixpoint set_message_columns (updates : list (string * cell)) (m : message_row)
  : option message_row :=
  match updates with
  | [] => Some m
  | (col, v) :: rest =>
      match set_message_column col v m with
      | Some m' => set_message_columns rest m'
      | None => None
      end
  end.

Definition touch_message (t : Z) (m : message_row) : message_row :=
  {| m_id := m_id m; m_title := m_title m; m_content := m_content m;
     m_excerpt := m_excerpt m; m_slug := m_slug m;
     m_category_id := m_category_id m; m_author_id := m_author_id m;
     m_status := m_status m; m_is_featured := m_is_featured m;
     m_is_pinned := m_is_pinned m; m_view_count := m_view_count m;
     m_like_count := m_like_count m; m_comment_count := m_comment_count m;
     m_published_at := m_published_at m; m_updated_at := t |}.

(** [UPDATE messages SET ..., updated_at = NOW() WHERE id = $1 RETURNING *] *)
Definition update_message (id : string) (updates : list (string * cell))
  : M (list message_row) :=
  sql (fun w =>
    match update_rows (fun m => (m_id m =? id)%string)
            (fun m => option_map (touch_message (now w))
                        (set_message_columns updates m))
            (messages w) with
    | Some (table, returned) => Some (returned, with_messages table w)
    | None => None
    end).

(** [v === s] for a body value and a string. *)
Definition is_string (s : string) (v : json) : bool :=
  match v with
  | JStr x => (x =? s)%string
  | _ => false
  end.

(** [if (v !== undefined && ALLOWED.includes(col)) updates[col] = v] *)
Definition assign (allowed : list string) (col : string) (v : option json)
  : list (string * cell) :=
  match v with
  | Some x => if includes allowed col then [(col, CJson x)] else []
  | None => []
  end.

(** The [updates] object of [updateMessage], as the list of its entries in
    the order they are assigned. *)
Definition message_updates (u : principal) (id : string)
    (existingMessage : message_row) (b : list (string * json))
  : M (list (string * cell)) :=
  titled <-
    match field "title" b with
    | Some title =>
        if includes ALLOWED_MESSAGE_UPDATE_FIELDS "title" then
          if is_string (m_title existingMessage) title
          then ret [("title", CJson title)]
          else
            slug <- slug_of_title (Some title) ;;
            finalSlug <- unique_slug (Some id) slug ;;
            ret [("title", CJson title); ("slug", CText finalSlug)]
        else ret []
    | None => ret []
    end ;;
  w <- get_world ;;
  let plain :=
    titled
    ++ assign ALLOWED_MESSAGE_UPDATE_FIELDS "content" (field "content" b)
    ++ assign ALLOWED_MESSAGE_UPDATE_FIELDS "excerpt" (field "excerpt" b)
    ++ assign ALLOWED_MESSAGE_UPDATE_FIELDS "category_id" (field "categoryId" b) in
  if (p_role u =? "admin")%string || (p_role u =? "moderator")%string then
    ret (plain
         ++ assign ALLOWED_MESSAGE_UPDATE_FIELDS "is_featured" (field "isFeatured" b)
         ++ assign ALLOWED_MESSAGE_UPDATE_FIELDS "is_pinned" (field "isPinned" b)
         ++ match field "status" b with
            | Some status =>
                if includes ALLOWED_MESSAGE_UPDATE_FIELDS "status" then
                  ("status", CJson status)
                  :: (if is_string "active" status
                         && negb (m_status existingMessage =? "active")%string
                      then [("published_at", CDate (now w))] else [])
                else []
            | None => []
            end)
  else ret plain.

Definition updateMessage (req : request) : M response :=
  try_catch
    (let id := param req in
     let b := body req in
     rows <- select_message true id ;;
     match rows with
     | [] => ret (failure 404 "Message not found")
     | existingMessage :: _ =>
         u <- the_user req ;;
         let canEdit :=
           (p_role u =? "admin")%string || (p_role u =? "moderator")%string
           || (p_id u =? m_author_id existingMessage)%string in
         if negb canEdit then
           log_line "Unauthorized message update attempt" ;;;
           ret (failure 403 "Insufficient permissions")
         else
           updates <- message_updates u id existingMessage b ;;
           if (List.length updates =? 0) && negb (truthy (field "tags" b)) then
             ret (failure 400 "No valid fields to update")
           else
             updatedMessage <-
               (if 0 <? List.length updates then
                  returned <- update_message id updates ;;
                  ret (hd_error returned)
                else ret (Some existingMessage)) ;;
             match field "tags" b with
             | Some (JArr tags) => delete_tags id ;;; insert_tags id tags
             | _ => ret tt
             end ;;;
             createAuditLog (p_id u) "update" "message" id
               (Some (SnapMessage existingMessage))
               (option_map SnapMessage updatedMessage)
               (ip req) (user_agent req) ;;;
             match updatedMessage with
             | None => throw TypeError
             | Some m =>
                 log_line "Message updated" ;;;
                 ret (ok (Some "Message updated successfully")
                         (MessageData (view_of m)))
             end
     end)
    (fun error =>
       log_line "Update message error:" ;;;
       ret (failure 500 "Internal server error")).

Definition deleteMessage (req : request) : M response :=
  try_catch
    (let id := param req in
     rows <- select_message true id ;;
     match rows with
     | [] => ret (failure 404 "Message not found")
     | message :: _ =>
         u <- the_user req ;;
         let canDelete :=
           (p_role u =? "admin")%string || (p_role u =? "moderator")%string
           || (p_id u =? m_author_id message)%string in
         if negb canDelete then
           log_line "Unauthorized message deletion attempt" ;;;
           ret (failure 403 "Insufficient permissions")
         else
           delete_message id ;;;
           createAuditLog (p_id u) "delete" "message" id
             (Some (SnapMessage message)) None (ip req) (user_agent req) ;;;
           log_line "Message deleted" ;;;
           ret (ok (Some "Message deleted successfully") NoData)
     end)
    (fun error =>
       log_line "Delete message error:" ;;;
       ret (failure 500 "Internal server error")).

(** [`$${params.length + 1}`] *)
Definition placeholder (params : list string) : string :=
  ("$" ++ of_nat (List.length params + 1))%string.

(** [if (present) { whereConditions.push(cond); params.push(p) }] *)
Definition push_if (present : bool) (cond : list string -> string) (p : string)
    (acc : list string * list string) : list string * list string :=
  if present then (fst acc ++ [cond (snd acc)], snd acc ++ [p]) else acc.

Definition nonempty (s : string) : bool := negb (s =? "")%string.

Definition buildSafeWhereClause (search category status author : string)
    (userRole : option string) : list string * list string :=
  let a1 :=
    push_if (nonempty search)
      (fun ps => ("(m.title ILIKE " ++ placeholder ps
                  ++ " OR m.content ILIKE " ++ placeholder ps ++ ")")%string)
      ("%" ++ search ++ "%")%string (["1=1"], []) in
  let a2 :=
    push_if (nonempty category)
      (fun ps => ("c.slug = " ++ placeholder ps)%string) category a1 in
  let a3 :=
    if nonempty status then
      push_if true (fun ps => ("m.status = " ++ placeholder ps)%string) status a2
    else if negb (is_role "admin" userRole) && negb (is_role "moderator" userRole)
         then (fst a2 ++ ["m.status = 'active'"], snd a2)
         else a2 in
  push_if (nonempty author)
    (fun ps => ("u.username = " ++ placeholder ps)%string) author a3.

(** [req.query.k || ''] *)
Definition param_or_empty (k : string) (q : list (string * string)) : string :=
  match query_param k q with
  | Some v => v
  | None => ""
  end.

Definition allowedSortFields : list string :=
  ["created_at"; "updated_at"; "title"; "view_count"; "like_count"; "published_at"].

(** [allowed.includes(req.query.sort) ? req.query.sort : 'created_at'] *)
Definition sort_column (allowed : list string) (q : list (string * string))
  : string :=
  match query_param "sort" q with
  | Some s => if includes allowed s then s else "created_at"
  | None => "created_at"
  end.

(** [req.query.order === 'asc' ? 'asc' : 'desc'] *)
Definition sort_order (q : list (string * string)) : string :=
  match query_param "order" q with
  | Some o => if (o =? "asc")%string then "asc" else "desc"
  | None => "desc"
  end.

(** The paged [SELECT] of [getMessages], as it is assembled from the
    query string. *)
Definition messages_query (req : request) : list_query :=
  let q := query req in
  let page := or_default (parseInt (query_param "page" q)) 1 in
  let limit := Z.min (or_default (parseInt (query_param "limit" q)) 10) 100 in
  let offset := ((page - 1) * limit)%Z in
  let sort := sort_column allowedSortFields q in
  let order := sort_order q in
  let clause :=
    buildSafeWhereClause (param_or_empty "search" q) (param_or_empty "category" q)
      (param_or_empty "status" q) (param_or_empty "author" q) (role_of req) in
  {| q_table := "messages"; q_where := fst clause; q_params := snd clause;
     q_sort := sort; q_order := order; q_limit := limit; q_offset := offset |}.

Definition getMessages (req : request) : M response :=
  try_catch
    (let lq := messages_query req in
     let page := or_default (parseInt (query_param "page" (query req))) 1 in
     total <- sql (fun w => Some (count_messages e lq (messages w), w)) ;;
     rows <- sql (fun w =>
               Some (page_of_messages e lq (messages w),
                     with_executed (executed w ++ [lq]) w)) ;;
     log_line "Retrieved messages" ;;;
     ret (ok None
            (MessagesPage (map view_of rows)
               {| pg_page := page; pg_limit := q_limit lq; pg_total := total;
                  pg_pages := ceil_div total (q_limit lq) |})))
    (fun error =>
       log_line "Get messages error:" ;;;
       ret (failure 500 "Internal server error")).

End WithEnv.
End MessageController.

(** ** Users (the user controller) *)

Module UserController.
Import Core Http JsString JsNumber Audit Validation MessageController.
Local Open Scope handler_scope.

Definition buildSafeUserWhereClause (search role status : string)
  : list string * list string :=
  let a1 :=
    push_if (nonempty search)
      (fun ps => ("(first_name ILIKE " ++ placeholder ps
                  ++ " OR last_name ILIKE " ++ placeholder ps
                  ++ " OR email ILIKE " ++ placeholder ps
                  ++ " OR username ILIKE " ++ placeholder ps ++ ")")%string)
      ("%" ++ search ++ "%")%string ([], []) in
  let a2 := push_if (nonempty role)
              (fun ps => ("role = " ++ placeholder ps)%string) role a1 in
  push_if (nonempty status)
    (fun ps => ("status = " ++ placeholder ps)%string) status a2.

Definition allowedSortFields : list string :=
  ["created_at"; "updated_at"; "email"; "username"; "last_login"].

Definition user_view_of (u : user_row) : user_view :=
  {| uv_id := u_id u; uv_email := u_email u; uv_firstName := u_first_name u;
     uv_lastName := u_last_name u; uv_username := u_username u;
     uv_avatarUrl := u_avatar_url u; uv_bio := u_bio u; uv_role := u_role u;
     uv_status := u_status u; uv_lastLogin := u_last_login u;
     uv_loginCount := u_login_count u; uv_updatedAt := u_updated_at u |}.

(** The paged [SELECT] of [getUsers]. *)
Definition users_query (req : request) : list_query :=
  let q := query req in
  let page := or_default (parseInt (query_param "page" q)) 1 in
  let limit := Z.min (or_default (parseInt (query_param "limit" q)) 10) 100 in
  let offset := ((page - 1) * limit)%Z in
  let sort := sort_column allowedSortFields q in
  let order := sort_order q in
  let clause :=
    buildSafeUserWhereClause (param_or_empty "search" q)
      (param_or_empty "role" q) (param_or_empty "status" q) in
  {| q_table := "users"; q_where := fst clause; q_params := snd clause;
     q_sort := sort; q_order := order; q_limit := limit; q_offset := offset |}.

Section WithEnv.
Variable e : env.

Definition getUsers (req : request) : M response :=
  try_catch
    (let lq := users_query req in
     let page := or_default (parseInt (query_param "page" (query req))) 1 in
     total <- sql (fun w => Some (count_users e lq (users w), w)) ;;
     rows <- sql (fun w =>
               Some (page_of_users e lq (users w),
                     with_executed (executed w ++ [lq]) w)) ;;
     _ <- the_user req ;;
     log_line "Retrieved users" ;;;
     ret (ok None
            (UsersPage (map user_view_of rows)
               {| pg_page := page; pg_limit := q_limit lq; pg_total := total;
                  pg_pages := ceil_div total (q_limit lq) |})))
    (fun error =>
       log_line "Get users error:" ;;;
       ret (failure 500 "Internal server error")).

(** The columns of [users] that the embedding keeps, but for [updated_at]:
    the statement sets it itself, and PostgreSQL refuses a second
    assignment to a column. *)
Definition user_columns : list string :=
  ["id"; "email"; "password_hash"; "first_name"; "last_name"; "username";
   "bio"; "avatar_url"; "role"; "status"; "last_login"; "login_count"].

(** [SET col = v] on one row of [users]: any of these columns can be
    named, the identifier, the email and the password hash as well as the
    others; any other name is refused. *)
Definition set_user_column (col : string) (v : cell) (u : user_row)
  : option user_row :=
  let on {A} (name : string) (conv : cell -> option A) (old : A) : option A :=
    if (col =? name)%string then conv v else Some old in
  if negb (includes user_columns col) then None
  else
    match on "id" (as_text e) (u_id u),
          on "email" (as_text e) (u_email u),
          on "password_hash" (as_text e) (u_password_hash u),
          on "first_name" (as_text e) (u_first_name u),
          on "last_name" (as_text e) (u_last_name u),
          on "username" (as_text e) (u_username u),
          on "bio" (as_nullable_text e) (u_bio u) with
    | Some id, Some em, Some ph, Some fn, Some ln, Some un, Some bio =>
        match on "avatar_url" (as_nullable_text e) (u_avatar_url u),
              on "role" (as_text e) (u_role u),
              on "status" (as_text e) (u_status u),
              on "last_login" as_time (u_last_login u),
              on "login_count" (as_nullable_int e) (u_login_count u) with
        | Some av, Some ro, Some st, Some ll, Some lc =>
            Some {| u_id := id; u_email := em; u_password_hash := ph;
                    u_first_name := fn; u_last_name := ln; u_username := un;
                    u_bio := bio; u_avatar_url := av; u_role := ro;
                    u_status := st; u_last_login := ll; u_login_count := lc;
                    u_updated_at := u_updated_at u |}
        | _, _, _, _, _ => None
        end
    | _, _, _, _, _, _, _ => None
    end.

Fixpoint set_user_columns (updates : list (string * cell)) (u : user_row)
  : option user_row :=
  match updates with
  | [] => Some u
  | (col, v) :: rest =>
      match set_user_column col v u with
      | Some u' => set_user_columns rest u'
      | None => None
      end
  end.

Definition touch_user (t : Z) (u : user_row) : user_row :=
  {| u_id := u_id u; u_email := u_email u; u_password_hash := u_password_hash u;
     u_first_name := u_first_name u; u_last_name := u_last_name u;
     u_username := u_username u; u_bio := u_bio u;
     u_avatar_url := u_avatar_url u; u_role := u_role u;
     u_status := u_status u; u_last_login := u_last_login u;
     u_login_count := u_login_count u; u_updated_at := t |}.

(** [UPDATE users SET ..., updated_at = NOW() WHERE id = $1 RETURNING *] *)
Definition update_user (id : string) (updates : list (string * cell))
  : M (list user_row) :=
  sql (fun w =>
    match update_rows (fun u => (u_id u =? id)%string)
            (fun u => option_map (touch_user (now w))
                        (set_user_columns updates u))
            (users w) with
    | Some (table, returned) => Some (returned, with_users table w)
    | None => None
    end).

(** [SELECT * FROM users WHERE id = $1] *)
Definition select_user (id : string) : M (list user_row) :=
  sql (fun w => Some (filter (fun u => (u_id u =? id)%string) (users w), w)).

(** [SELECT id FROM users WHERE username = $1 AND id != $2] *)
Definition username_taken (username : json) (id : string) : M bool :=
  sql (fun w =>
    match pg_text e username with
    | Some name =>
        Some (existsb (fun u => (u_username u =? name)%string
                                && negb (u_id u =? id)%string)
                      (users w), w)
    | None => None
    end).

(** [if (v !== undefined && ALLOWED.includes(col) && values.includes(v))] *)
Definition assign_one_of (allowed : list string) (col : string)
    (values : list string) (v : option json) : list (string * cell) :=
  match v with
  | Some x =>
      if includes allowed col && existsb (fun s => is_string s x) values
      then [(col, CJson x)] else []
  | None => []
  end.

(** The [updates] object of [updateUser]. *)
Definition user_updates (isAdmin : bool) (b : list (string * json))
  : list (string * cell) :=
  assign ALLOWED_USER_UPDATE_FIELDS "first_name" (field "firstName" b)
  ++ assign ALLOWED_USER_UPDATE_FIELDS "last_name" (field "lastName" b)
  ++ assign ALLOWED_USER_UPDATE_FIELDS "username" (field "username" b)
  ++ assign ALLOWED_USER_UPDATE_FIELDS "bio" (field "bio" b)
  ++ assign ALLOWED_USER_UPDATE_FIELDS "avatar_url" (field "avatarUrl" b)
  ++ (if isAdmin then
        assign_one_of ALLOWED_USER_UPDATE_FIELDS "role"
          ["user"; "admin"; "moderator"] (field "role" b)
        ++ assign_one_of ALLOWED_USER_UPDATE_FIELDS "status"
             ["active"; "inactive"; "suspended"; "pending_verification"]
             (field "status" b)
      else []).

Definition updateUser (req : request) : M response :=
  try_catch
    (let id := param req in
     let b := body req in
     if negb (is_uuid id) then ret (failure 400 "Invalid user ID format")
     else
       rows <- select_user id ;;
       match rows with
       | [] => ret (failure 404 "User not found")
       | existingUser :: _ =>
           taken <-
             match field "username" b with
             | Some username =>
                 if truthy (Some username)
                    && negb (is_string (u_username existingUser) username)
                 then username_taken username id
                 else ret false
             | None => ret false
             end ;;
           if taken then ret (failure 400 "Username already taken")
           else
             u <- the_user req ;;
             let isAdmin := (p_role u =? "admin")%string in
             let canUpdateUser := isAdmin || (p_id u =? id)%string in
             if negb canUpdateUser then
               log_line "Unauthorized user update attempt" ;;;
               ret (failure 403 "Insufficient permissions")
             else
               let updates := user_updates isAdmin b in
               if List.length updates =? 0 then
                 ret (failure 400 "No valid fields to update")
               else
                 returned <- update_user id updates ;;
                 let updatedUser := hd_error returned in
                 createAuditLog (p_id u) "update" "user" id
                   (Some (SnapUser existingUser))
                   (option_map SnapUser updatedUser)
                   (ip req) (user_agent req) ;;;
                 match updatedUser with
                 | None => throw TypeError
                 | Some updated =>
                     log_line "User updated" ;;;
                     ret (ok (Some "User updated successfully")
                             (UserData (user_view_of updated)))
                 end
       end)
    (fun error =>
       log_line "Update user error:" ;;;
       ret (failure 500 "Internal server error")).

End WithEnv.
End UserController.

(** ** The routes ([routes/]): the middleware in front of each handler *)

Module Routes.
Import Core Http Validation AuthMiddleware.
Local Open Scope handler_scope.

Definition and_then (s : step) (k : request -> M response) : M response :=
  match s with
  | Answer r => ret r
  | Next req => k req
  end.

Section WithEnv.
Variable e : env.

(** [router.post('/refresh', refreshToken)] *)
Definition post_auth_refresh : request -> M response :=
  AuthController.refreshToken e.

(** [router.get('/', optionalAuth, validatePagination, getMessages)] *)
Definition get_messages (req : request) : M response :=
  s <- optionalAuth e req ;;
  and_then s (fun req =>
  and_then (validatePagination req) (MessageController.getMessages e)).

(** [router.get('/:slug', optionalAuth, getMessageBySlug)] *)
Definition get_message (req : request) : M response :=
  s <- optionalAuth e req ;;
  and_then s MessageController.getMessageBySlug.

(** [router.use(authenticateToken)];
    [router.get('/', requireModerator, validatePagination, getUsers)] *)
Definition get_users (req : request) : M response :=
  s <- authenticateToken e req ;;
  and_then s (fun req =>
  and_then (requireModerator req) (fun req =>
  and_then (validatePagination req) (UserController.getUsers e))).

(** [router.put('/:id', validateUUID('id'), whitelistUserFields, updateUser)] *)
Definition put_user (req : request) : M response :=
  s <- authenticateToken e req ;;
  and_then s (fun req =>
  and_then (validateUUID req) (fun req =>
  and_then (whitelistUserFields req) (UserController.updateUser e))).

End WithEnv.
End Routes.

(** ** Concrete values for the examples *)

Module Sample.
Import Core Http.

(** The response of a run, for a run that returned. *)
Definition fst_returned (res : outcome response * world) : response :=
  match fst res with
  | Returned r => r
  | _ => failure 0 ""
  end.

(** Tokens are read here as [ok:<id>], [old:<id>] or anything else. *)
Definition verify (token : string) : verdict :=
  match token with
  | String "o" (String "k" (String ":" id)) => Verified id
  | String "o" (String "l" (String "d" _)) => Expired
  | _ => Rejected
  end.

Definition text_of (v : json) : option string :=
  match v with
  | JStr s => Some s
  | _ => None
  end.

Definition bool_of (v : json) : option bool :=
  match v with
  | JBool b => Some b
  | _ => None
  end.

Definition int_of (v : json) : option Z :=
  match v with
  | JNum n => Some n
  | _ => None
  end.

Definition env0 : env :=
  {| verify_access := verify;
     verify_refresh := verify;
     sign_access := fun id => ("access:" ++ id)%string;
     to_string := fun v => match v with JStr s => s | _ => "" end;
     pg_text := text_of;
     pg_bool := bool_of;
     pg_int := int_of;
     gen_random_uuid := fun rows => JsString.of_nat (List.length rows);
     page_of_users := fun q rows => rows;
     count_users := fun q rows => Z.of_nat (List.length rows);
     page_of_messages := fun q rows => rows;
     count_messages := fun q rows => Z.of_nat (List.length rows) |}.

Definition alice_id : string := "123e4567-e89b-12d3-a456-426614174000".

Definition alice : user_row :=
  {| u_id := alice_id; u_email := "alice@example.org";
     u_password_hash := "$2a$12$hash"; u_first_name := "Alice";
     u_last_name := "Liddell"; u_username := "alice"; u_bio := None;
     u_avatar_url := None; u_role := "user"; u_status := "active";
     u_last_login := None; u_login_count := Some 0%Z; u_updated_at := 0 |}.

Definition admin_id : string := "223e4567-e89b-12d3-a456-426614174000".

Definition admin : user_row :=
  {| u_id := admin_id; u_email := "root@example.org";
     u_password_hash := "$2a$12$other"; u_first_name := "Ada";
     u_last_name := "Root"; u_username := "ada"; u_bio := None;
     u_avatar_url := None; u_role := "admin"; u_status := "active";
     u_last_login := None; u_login_count := Some 0%Z; u_updated_at := 0 |}.

Definition alice_token : string := ("ok:" ++ alice_id)%string.
Definition admin_token : string := ("ok:" ++ admin_id)%string.

Definition post (id title slug status : string) (views : Z) : message_row :=
  {| m_id := id; m_title := title; m_content := "Some content here";
     m_excerpt := None; m_slug := slug; m_category_id := None;
     m_author_id := alice_id; m_status := status; m_is_featured := false;
     m_is_pinned := false; m_view_count := views; m_like_count := 0;
     m_comment_count := 0; m_published_at := None; m_updated_at := 0 |}.

Definition world0 : world :=
  {| users := [alice; admin];
     messages := [post "m1" "Hello 1" "hello-1" "active" 41];
     message_tags := [];
     refresh_tokens :=
       [ {| t_token := alice_token; t_user_id := alice_id;
            t_expires_at := 2000; t_is_revoked := true |};
         {| t_token := admin_token; t_user_id := admin_id;
            t_expires_at := 2000; t_is_revoked := false |} ];
     audit_logs := [];
     now := 1000;
     executed := [];
     console := [];
     faults := [] |}.

Definition request0 : request :=
  {| authorization := None; query := []; body := []; param := "";
     user := None; ip := None; user_agent := None |}.

Definition with_param (p : string) (r : request) : request :=
  {| authorization := authorization r; query := query r; body := body r;
     param := p; user := user r; ip := ip r; user_agent := user_agent r |}.

Definition as_alice (r : request) : request :=
  with_user (Some (principal_of alice)) r.

Definition as_admin (r : request) : request :=
  with_user (Some (principal_of admin)) r.

(** Alice posts a message with a title. *)
Definition titled (title : string) : request :=
  as_alice
    (with_body [("title", JStr title); ("content", JStr "Some content here")]
               request0).

End Sample.

(** ** The vocabulary of the properties *)

Module Vocabulary.
Import Core Http JsString JsNumber Password Slug Validation MessageController.

(** How many of the three required character classes a password has. *)
Definition classes_met (password : string) : nat :=
  count_true [test_class is_lower password; test_class is_upper password;
              test_class is_digit password].

(** The part of the world the business operations are about. *)
Definition same_tables (w w' : world) : Prop :=
  users w' = users w /\ messages w' = messages w
  /\ message_tags w' = message_tags w /\ refresh_tokens w' = refresh_tokens w.

(** [c] relates every world it is run in to the one it leaves. *)
Definition keeps (R : world -> world -> Prop) {A} (c : M A) : Prop :=
  forall w, R w (snd (c w)).

(** The persisted record of a token does not allow a refresh: there is
    none, or it is revoked, or its expiry lies before the clock. *)
Definition stale (w : world) (token : string) : Prop :=
  match filter (fun t => (t_token t =? token)%string) (refresh_tokens w) with
  | [] => True
  | tokenRecord :: _ =>
      t_is_revoked tokenRecord = true \/ (t_expires_at tokenRecord < now w)%Z
  end.

(** The row a key names: the first one the [SELECT] yields. *)
Definition fetched (key : string) (rows : list message_row) : option message_row :=
  hd_error
    (filter (fun m => if is_uuid key then (m_id m =? key)%string
                      else (m_slug m =? key)%string) rows).

(** One more view on the rows of an identifier. *)
Definition bump (id : string) (m : message_row) : message_row :=
  if (m_id m =? id)%string then with_view_count (m_view_count m + 1)%Z m else m.

(** A request that passes [validatePagination]. *)
Definition paged (req : request) : Prop :=
  (forall v, query_param "page" (query req) = Some v -> isInt 1 1000 v = true)
  /\ (forall v, query_param "limit" (query req) = Some v -> isInt 1 100 v = true)
  /\ (forall v, query_param "sort" (query req) = Some v ->
        isIn ALLOWED_SORT_FIELDS v = true)
  /\ (forall v, query_param "order" (query req) = Some v ->
        isIn ["asc"; "desc"] v = true).

(** The columns of a row that no update may touch. *)
Definition credentials (u : user_row) : string * string * string :=
  (u_id u, u_email u, u_password_hash u).

(** Every row of [users] has kept them. *)
Definition same_credentials (w w' : world) : Prop :=
  map credentials (users w') = map credentials (users w).

(** The body without the fields of the given names. *)
Definition drop_fields (names : list string) (b : list (string * json))
  : list (string * json) :=
  filter (fun kv => negb (includes names (fst kv))) b.

(** The fields of a payload that [updateMessage] and [updateUser] read
    only for an elevated caller, under the names the handlers read them
    by and, for the two flags, under their column names as well. *)
Definition message_gated : list string :=
  ["isFeatured"; "isPinned"; "status"; "is_featured"; "is_pinned"].

Definition user_gated : list string := ["role"; "status"].

(** No two neighbours of a list are both in the class. *)
Fixpoint no_adjacent (p : ascii -> bool) (l : list ascii) : bool :=
  match l with
  | a :: (b :: _) as t => negb (p a && p b) && no_adjacent p t
  | _ => true
  end.

(** The characters a slug is made of: [[a-z0-9-]]. *)
Definition final_char (c : ascii) : bool :=
  is_lower c || is_digit c || is_hyphen c.

(** The slug without its last step, [trim]. *)
Definition normalised (title : string) : string :=
  replace_runs is_hyphen hyphen
    (replace_runs is_space hyphen
       (delete_class (fun c => negb (slug_char c)) (toLowerCase title))).

(** The candidates the loop tries, in order: the slug, then the slug
    with [-1], [-2], ... *)
Definition candidate (slug : string) (k : nat) : string :=
  match k with
  | 0 => slug
  | S _ => suffixed slug k
  end.

(** Whether the [SELECT] of the loop finds a row for a slug. *)
Definition taken_by (except : option string) (rows : list message_row)
    (s : string) : bool :=
  existsb (fun m => (m_slug m =? s)%string
                    && match except with
                       | Some id => negb (m_id m =? id)%string
                       | None => true
                       end) rows.

(** The table [messages] is as it was. *)
Definition same_messages (w w' : world) : Prop := messages w' = messages w.

End Vocabulary.

(** ** Plain-text sanitizer ([utils/sanitizer.js], [sanitizeText]) *)

Module Sanitizer.
Import Core JsString Validation.

(** The class [[<>]] *)
Definition is_angle (c : ascii) : bool := (code c =? 60) || (code c =? 62).

(** A character of the subject against a lower-case ASCII character of a
    pattern under the [i] flag. *)
Definition same_letter (p c : ascii) : bool := Ascii.eqb (lower_char c) p.

(** Whether the subject begins with the literal. *)
Fixpoint starts_with (literal subject : list ascii) : bool :=
  match literal, subject with
  | [], _ => true
  | p :: literal', c :: t => same_letter p c && starts_with literal' t
  | _ :: _, [] => false
  end.

Fixpoint count_while (p : ascii -> bool) (l : list ascii) : nat :=
  match l with
  | c :: t => if p c then S (count_while p t) else 0
  | [] => 0
  end.

(** [/javascript:/i] at the head of the subject: the length of the match. *)
Definition match_protocol (l : list ascii) : option nat :=
  if starts_with (chars "javascript:") l then Some 11 else None.

(** [/on\w+\s*=/i] at the head of the subject.  The two greedy runs need no
    backtracking: a shorter run of [\w] is followed by a [\w], a shorter
    run of [\s] by a [\s], and neither is [=]. *)
Definition match_handler (l : list ascii) : option nat :=
  match l with
  | o :: n :: rest =>
      if same_letter "o" o && same_letter "n" n then
        let words := count_while is_word rest in
        let spaces := count_while is_space (skipn words rest) in
        match words, skipn spaces (skipn words rest) with
        | S _, c :: _ =>
            if code c =? 61 then Some (2 + words + spaces + 1) else None
        | _, _ => None
        end
      else None
  | _ => None
  end.

(** [s.replace(re, '')] under the [g] flag, for a pattern that matches no
    empty string: the subject is scanned from the left, a match is dropped
    and the scan goes on behind it.  [skip] is what is left to drop of the
    match the scan is in. *)
Fixpoint delete_matches (m : list ascii -> option nat) (skip : nat)
    (l : list ascii) : list ascii :=
  match l with
  | [] => []
  | c :: t =>
      match skip with
      | S k => delete_matches m k t
      | 0 =>
          match m (c :: t) with
          | Some (S n) => delete_matches m n t
          | _ => c :: delete_matches m 0 t
          end
      end
  end.

Definition sanitizeText (text : option json) : string :=
  match text with
  | Some (JStr s) =>
      if (s =? "")%string then ""
      else
        of_chars
          (delete_matches match_handler 0
             (delete_matches match_protocol 0
                (chars (delete_class is_angle (trim s)))))
  | _ => ""
  end.

End Sanitizer.

(** ** Sessions ([authController.js]: [login], [logout], [getProfile]) *)

Module Session.
Import Core Http JsString Audit AuthMiddleware AuthController.
Import MessageController UserController.
Local Open Scope handler_scope.

(** [bcryptjs], the second secret of [jsonwebtoken] and the calendar, taken
    as given: [bcrypt.compare(s, hash)], what the call of
    [bcrypt.hash(s, 14)] yields, [jwt.sign] with [JWT_REFRESH_SECRET], and
    the instant [setDate(getDate() + 7)] moves a date to. *)
Record crypto := {
  bcrypt_compare : string -> string -> bool;
  bcrypt_hash : string -> string;
  sign_refresh : string -> string;
  seven_days_later : Z -> Z }.

(** The body of the answers of [login]. *)
Record login_data := {
  ld_user : token_user;
  ld_accessToken : string;
  ld_refreshToken : string }.

Record login_response := {
  lr_status : nat;
  lr_success : bool;
  lr_message : string;
  lr_data : option login_data }.

Definition login_failure (code : nat) (msg : string) : login_response :=
  {| lr_status := code; lr_success := false; lr_message := msg;
     lr_data := None |}.

Definition with_refresh_tokens (v : list token_row) (w : world) : world :=
  {| users := users w; messages := messages w; message_tags := message_tags w;
     refresh_tokens := v; audit_logs := audit_logs w;
     now := now w; executed := executed w; console := console w;
     faults := faults w |}.

Definition revoke (t : token_row) : token_row :=
  {| t_token := t_token t; t_user_id := t_user_id t;
     t_expires_at := t_expires_at t; t_is_revoked := true |}.

(** [SELECT ... FROM users WHERE email = $1] *)
Definition select_user_by_email (email : string) : M (list user_row) :=
  sql (fun w => Some (filter (fun u => (u_email u =? email)%string) (users w), w)).

Definition with_login (t : Z) (count : Z) (u : user_row) : user_row :=
  {| u_id := u_id u; u_email := u_email u; u_password_hash := u_password_hash u;
     u_first_name := u_first_name u; u_last_name := u_last_name u;
     u_username := u_username u; u_bio := u_bio u;
     u_avatar_url := u_avatar_url u; u_role := u_role u;
     u_status := u_status u; u_last_login := Some t;
     u_login_count := Some count; u_updated_at := u_updated_at u |}.

(** [user.login_count + 1] on the row the [SELECT] gave: [null + 1] is 1. *)
Definition next_login_count (user : user_row) : Z :=
  match u_login_count user with
  | Some n => (n + 1)%Z
  | None => 1%Z
  end.

(** [UPDATE users SET last_login = NOW(), login_count = $1 WHERE id = $2];
    the count is bound to an [integer] column, which refuses what is
    beyond its range. *)
Definition record_login (user : user_row) : M unit :=
  sql (fun w =>
    let count := next_login_count user in
    if ((-2147483648 <=? count) && (count <=? 2147483647))%Z then
      Some (tt,
            with_users
              (map (fun u => if (u_id u =? u_id user)%string
                             then with_login (now w) count u
                             else u)
                   (users w)) w)
    else None).

(** [bcrypt.compare(s, hash)] and [bcrypt.hash(s, 14)] reject what is no
    string. *)
Definition string_of (v : option json) : M string :=
  match v with
  | Some (JStr s) => ret s
  | _ => throw TypeError
  end.

Section WithEnv.
Variable e : env.
Variable c : crypto.

Definition generateTokens (userId : string) : string * string :=
  (sign_access e userId, sign_refresh c userId).

(** [INSERT INTO refresh_tokens (token, user_id, expires_at) VALUES (...)];
    [is_revoked] takes its default. *)
Definition storeRefreshToken (userId refreshToken : string) : M unit :=
  w <- get_world ;;
  let expiresAt := seven_days_later c (now w) in
  sql (fun w =>
    Some (tt,
          with_refresh_tokens
            (refresh_tokens w
             ++ [{| t_token := refreshToken; t_user_id := userId;
                    t_expires_at := expiresAt; t_is_revoked := false |}]) w)).

Definition login (req : request) : M login_response :=
  try_catch
    (let b := body req in
     email <- string_of (field "email" b) ;;
     let sanitizedEmail := trim (toLowerCase email) in
     rows <- select_user_by_email sanitizedEmail ;;
     match rows with
     | [] =>
         log_line "Login attempt with non-existent email" ;;;
         ret (login_failure 401 "Invalid email or password")
     | user :: _ =>
         if negb (u_status user =? "active")%string then
           log_line "Login attempt with inactive account" ;;;
           ret (login_failure 401 "Account is not active")
         else
           password <- string_of (field "password" b) ;;
           let isValidPassword :=
             bcrypt_compare c password (u_password_hash user) in
           if negb isValidPassword then
             log_line "Login attempt with invalid password" ;;;
             ret (login_failure 401 "Invalid email or password")
           else
             record_login user ;;;
             let (accessToken, refreshToken) := generateTokens (u_id user) in
             storeRefreshToken (u_id user) refreshToken ;;;
             createAuditLog (u_id user) "login" "user" (u_id user)
               None None (ip req) (user_agent req) ;;;
             log_line "User logged in successfully" ;;;
             ret {| lr_status := 200; lr_success := true;
                    lr_message := "Login successful";
                    lr_data :=
                      Some {| ld_user := token_user_of user;
                              ld_accessToken := accessToken;
                              ld_refreshToken := refreshToken |} |}
     end)
    (fun error =>
       log_line "Login error:" ;;;
       ret (login_failure 500 "Internal server error")).

(** [UPDATE refresh_tokens SET is_revoked = true WHERE token = $1] *)
Definition revoke_token (token : json) : M unit :=
  sql (fun w =>
    match pg_text e token with
    | Some t =>
        Some (tt,
              with_refresh_tokens
                (map (fun r => if (t_token r =? t)%string then revoke r else r)
                     (refresh_tokens w)) w)
    | None => None
    end).

Definition logout (req : request) : M response :=
  try_catch
    (match field "refreshToken" (body req) with
     | Some refreshToken =>
         if truthy (Some refreshToken) then revoke_token refreshToken
         else ret tt
     | None => ret tt
     end ;;;
     match user req with
     | Some u =>
         createAuditLog (p_id u) "logout" "user" (p_id u)
           None None (ip req) (user_agent req) ;;;
         log_line "User logged out"
     | None => ret tt
     end ;;;
     ret (ok (Some "Logout successful") NoData))
    (fun error =>
       log_line "Logout error:" ;;;
       ret (failure 500 "Internal server error")).

End WithEnv.

Definition getProfile (req : request) : M response :=
  try_catch
    (u <- the_user req ;;
     rows <- select_user (p_id u) ;;
     match rows with
     | [] =>
         log_line "Profile request for non-existent user" ;;;
         ret (failure 404 "User not found")
     | user :: _ =>
         log_line "Profile accessed" ;;;
         ret (ok None (UserData (user_view_of user)))
     end)
    (fun error =>
       log_line "Get profile error:" ;;;
       ret (failure 500 "Internal server error")).

End Session.

(** ** Accounts (the user controller: [getUserById], [deleteUser],
    [updatePassword]) *)

Module Account.
Import Core Http JsString Audit Validation MessageController UserController.
Import Session.
Local Open Scope handler_scope.

Definition getUserById (req : request) : M response :=
  try_catch
    (let id := param req in
     if negb (is_uuid id) then ret (failure 400 "Invalid user ID format")
     else
       rows <- select_user id ;;
       match rows with
       | [] =>
           log_line ("User not found: " ++ id) ;;;
           ret (failure 404 "User not found")
       | user :: _ =>
           log_line ("User profile accessed: " ++ id) ;;;
           ret (ok None (UserData (user_view_of user)))
       end)
    (fun error =>
       log_line "Get user by ID error:" ;;;
       ret (failure 500 "Internal server error")).

(** [DELETE FROM users WHERE id = $1]: what the statement does to [users];
    what the foreign keys of other tables do then is the database's. *)
Definition delete_user (id : string) : M unit :=
  sql (fun w =>
    Some (tt, with_users
                (filter (fun u => negb (u_id u =? id)%string) (users w)) w)).

Definition deleteUser (req : request) : M response :=
  try_catch
    (let id := param req in
     if negb (is_uuid id) then ret (failure 400 "Invalid user ID format")
     else
       rows <- select_user id ;;
       match rows with
       | [] => ret (failure 404 "User not found")
       | user :: _ =>
           u <- the_user req ;;
           if (p_id u =? id)%string then
             ret (failure 400 "Cannot delete your own account")
           else if (u_role user =? "admin")%string
                   && negb (p_role u =? "super_admin")%string then
             log_line "Attempt to delete admin user" ;;;
             ret (failure 403 "Cannot delete admin users")
           else
             delete_user id ;;;
             createAuditLog (p_id u) "delete" "user" id
               (Some (SnapUser user)) None (ip req) (user_agent req) ;;;
             log_line ("User deleted: " ++ u_username user) ;;;
             ret (ok (Some "User deleted successfully") NoData)
       end)
    (fun error =>
       log_line "Delete user error:" ;;;
       ret (failure 500 "Internal server error")).

(** The characters [.] matches: all but the line terminators (of which
    LF and CR lie below 256). *)
Definition is_line_terminator (c : ascii) : bool :=
  (code c =? 10) || (code c =? 13).

Definition dot (c : ascii) : bool := negb (is_line_terminator c).

(** The lookahead [(?=.*[C])] at the start of the subject: a character of
    the class with nothing but [.] before it. *)
Fixpoint ahead (p : ascii -> bool) (l : list ascii) : bool :=
  match l with
  | [] => false
  | c :: t => p c || (dot c && ahead p t)
  end.

(** [/^(?=.*[a-z])(?=.*[A-Z])(?=.*\d).{8,}$/.test(s)] *)
Definition passwordRegex (s : string) : bool :=
  let l := chars s in
  ahead is_lower l && ahead is_upper l && ahead is_digit l
  && forallb dot l && (8 <=? List.length l).

(** [UPDATE users SET password_hash = $1, updated_at = NOW() WHERE id = $2] *)
Definition with_password_hash (h : string) (t : Z) (u : user_row) : user_row :=
  {| u_id := u_id u; u_email := u_email u; u_password_hash := h;
     u_first_name := u_first_name u; u_last_name := u_last_name u;
     u_username := u_username u; u_bio := u_bio u;
     u_avatar_url := u_avatar_url u; u_role := u_role u;
     u_status := u_status u; u_last_login := u_last_login u;
     u_login_count := u_login_count u; u_updated_at := t |}.

Definition set_password (id newPasswordHash : string) : M unit :=
  sql (fun w =>
    Some (tt,
          with_users
            (map (fun u => if (u_id u =? id)%string
                           then with_password_hash newPasswordHash (now w) u
                           else u)
                 (users w)) w)).

(** [UPDATE refresh_tokens SET is_revoked = true WHERE user_id = $1] *)
Definition revoke_tokens_of (id : string) : M unit :=
  sql (fun w =>
    Some (tt,
          with_refresh_tokens
            (map (fun r => if (t_user_id r =? id)%string then revoke r else r)
                 (refresh_tokens w)) w)).

Section WithEnv.
Variable e : env.
Variable c : crypto.

(** The string a regular expression tests a possibly undefined value as. *)
Definition subject (v : option json) : string :=
  match v with
  | Some (JStr s) => s
  | Some x => to_string e x
  | None => "undefined"
  end.

Definition updatePassword (req : request) : M response :=
  try_catch
    (let id := param req in
     let currentPassword := field "currentPassword" (body req) in
     let newPassword := field "newPassword" (body req) in
     if negb (is_uuid id) then ret (failure 400 "Invalid user ID format")
     else if negb (passwordRegex (subject newPassword)) then
       ret (failure 400
              "Password must be at least 8 characters long and contain at least one lowercase letter, one uppercase letter, and one number")
     else
       u <- the_user req ;;
       let canUpdate := (p_role u =? "admin")%string || (p_id u =? id)%string in
       if negb canUpdate then
         log_line "Unauthorized password update attempt" ;;;
         ret (failure 403 "Insufficient permissions")
       else
         rows <- select_user id ;;
         match rows with
         | [] => ret (failure 404 "User not found")
         | user :: _ =>
             let change :=
               newPasswordText <- string_of newPassword ;;
               let newPasswordHash := bcrypt_hash c newPasswordText in
               set_password id newPasswordHash ;;;
               revoke_tokens_of id ;;;
               createAuditLog (p_id u) "password_reset" "user" id
                 None None (ip req) (user_agent req) ;;;
               log_line ("Password updated for user: " ++ u_username user) ;;;
               ret (ok (Some "Password updated successfully") NoData) in
             if negb (p_role u =? "admin")%string then
               if negb (truthy currentPassword) then
                 ret (failure 400 "Current password is required")
               else
                 currentPasswordText <- string_of currentPassword ;;
                 let isValidPassword :=
                   bcrypt_compare c currentPasswordText (u_password_hash user) in
                 if negb isValidPassword then
                   log_line "Invalid current password provided" ;;;
                   ret (failure 400 "Current password is incorrect")
                 else change
             else change
         end)
    (fun error =>
       log_line "Update password error:" ;;;
       ret (failure 500 "Internal server error")).

End WithEnv.
End Account.

(** ** More routes ([routes/auth.js], the users and the messages router) *)

Module AccountRoutes.
Import Core Http Validation AuthMiddleware Routes.
Local Open Scope handler_scope.

Section WithEnv.
Variable e : env.
Variable c : Session.crypto.

(** [router.post('/logout', authenticateToken, logout)] *)
Definition post_auth_logout (req : request) : M response :=
  s <- authenticateToken e req ;;
  and_then s (Session.logout e).

(** [router.get('/profile', authenticateToken, getProfile)] *)
Definition get_auth_profile (req : request) : M response :=
  s <- authenticateToken e req ;;
  and_then s Session.getProfile.

(** [router.use(authenticateToken)];
    [router.get('/:id', validateUUID('id'), getUserById)] *)
Definition get_user (req : request) : M response :=
  s <- authenticateToken e req ;;
  and_then s (fun req =>
  and_then (validateUUID req) Account.getUserById).

(** [router.put('/:id/password', validateUUID('id'), updatePassword)] *)
Definition put_user_password (req : request) : M response :=
  s <- authenticateToken e req ;;
  and_then s (fun req =>
  and_then (validateUUID req) (Account.updatePassword e c)).

(** [router.delete('/:id', requireAdmin, validateUUID('id'), deleteUser)] *)
Definition delete_user (req : request) : M response :=
  s <- authenticateToken e req ;;
  and_then s (fun req =>
  and_then (requireAdmin req) (fun req =>
  and_then (validateUUID req) Account.deleteUser)).

(** [router.delete('/:id', authenticateToken, validateUUID('id'), deleteMessage)] *)
Definition delete_message (req : request) : M response :=
  s <- authenticateToken e req ;;
  and_then s (fun req =>
  and_then (validateUUID req) MessageController.deleteMessage).

End WithEnv.
End AccountRoutes.

(** ** More concrete values for the examples *)

Module Cast.
Import Core Http Session.

(** A hash is read here as its salt prefix followed by the password. *)
Definition crypto0 : crypto :=
  {| bcrypt_compare := fun s hash => (hash =? "$2a$14$" ++ s)%string;
     bcrypt_hash := fun s => ("$2a$14$" ++ s)%string;
     sign_refresh := fun id => ("ok:" ++ id)%string;
     seven_days_later := fun t => (t + 604800000)%Z |}.

Definition carol_id : string := "323e4567-e89b-12d3-a456-426614174000".

Definition carol : user_row :=
  {| u_id := carol_id; u_email := "carol@example.org";
     u_password_hash := "$2a$14$Secret123"; u_first_name := "Carol";
     u_last_name := "Danvers"; u_username := "carol"; u_bio := None;
     u_avatar_url := None; u_role := "user"; u_status := "active";
     u_last_login := None; u_login_count := Some 0%Z; u_updated_at := 0 |}.

Definition carol_token : string := ("ok:" ++ carol_id)%string.

(** The sample world with Carol, and with a live refresh token of hers. *)
Definition world1 : world :=
  with_users (users Sample.world0 ++ [carol]) Sample.world0.

Definition world2 : world :=
  with_refresh_tokens
    (refresh_tokens world1
     ++ [{| t_token := carol_token; t_user_id := carol_id;
            t_expires_at := 2000; t_is_revoked := false |}])
    world1.

Definition as_carol (r : request) : request :=
  with_user (Some (principal_of carol)) r.

Definition bearer (token : string) (r : request) : request :=
  {| authorization := Some ("Bearer " ++ token)%string; query := query r;
     body := body r; param := param r; user := user r; ip := ip r;
     user_agent := user_agent r |}.

End Cast.

(** ** Reading the audit trail ([utils/auditLogger.js], [getAuditLogs]) *)

Module AuditQuery.
Import Core Http JsString JsNumber.
Local Open Scope handler_scope.

(** The [filters] argument; a filter that is absent is [undefined]. *)
Record filters := {
  f_userId : option json;
  f_action : option json;
  f_resourceType : option json;
  f_resourceId : option json;
  f_dateFrom : option json;
  f_dateTo : option json }.

(** [`$${params.length + 1}`] *)
Definition placeholder (params : list json) : string :=
  ("$" ++ of_nat (List.length params + 1))%string.

(** [if (filters.k) { whereConditions.push(`col $n`); params.push(filters.k) }] *)
Definition push_filter (v : option json) (condition : string)
    (acc : list string * list json) : list string * list json :=
  match v with
  | Some x =>
      if truthy v
      then (fst acc ++ [(condition ++ placeholder (snd acc))%string],
            snd acc ++ [x])
      else acc
  | None => acc
  end.

(** The two statements handed to [sql.unsafe]: the conditions of the
    [WHERE] clause, the parameters of the filters, the placeholders of
    [LIMIT] and [OFFSET] and the two numbers bound to them. *)
Record audit_query := {
  aq_where : list string;
  aq_params : list json;
  aq_limit_at : string;
  aq_offset_at : string;
  aq_limit : Z;
  aq_offset : Z }.

Definition audit_logs_query (f : filters) (page limit : Z) : audit_query :=
  let offset := ((page - 1) * limit)%Z in
  let clause :=
    push_filter (f_dateTo f) "al.created_at <= "
      (push_filter (f_dateFrom f) "al.created_at >= "
         (push_filter (f_resourceId f) "al.resource_id = "
            (push_filter (f_resourceType f) "al.resource_type = "
               (push_filter (f_action f) "al.action = "
                  (push_filter (f_userId f) "al.user_id = "
                     (["1=1"], [])))))) in
  {| aq_where := fst clause; aq_params := snd clause;
     aq_limit_at := ("$" ++ of_nat (List.length (snd clause) + 1))%string;
     aq_offset_at := ("$" ++ of_nat (List.length (snd clause) + 2))%string;
     aq_limit := limit; aq_offset := offset |}.

(** The database engine on the audit table, taken as given: the count and
    the page of rows, each joined with its user if there is one; [None]:
    the statement is refused. *)
Record audit_engine := {
  count_audit : audit_query -> list audit_row -> option Z;
  page_of_audit : audit_query -> list audit_row -> list user_row
                  -> option (list (audit_row * option user_row)) }.

Record log_user := {
  lu_username : string;
  lu_firstName : string;
  lu_lastName : string;
  lu_email : string }.

(** One entry of [data.logs]: the columns of the row, and
    [log.username ? { ... } : null]. *)
Definition log_view (joined : audit_row * option user_row)
  : audit_row * option log_user :=
  (fst joined,
   match snd joined with
   | Some u =>
       if (u_username u =? "")%string then None
       else Some {| lu_username := u_username u;
                    lu_firstName := u_first_name u;
                    lu_lastName := u_last_name u; lu_email := u_email u |}
   | None => None
   end).

(** [{ success: true, data: { logs, pagination } }] or
    [{ success: false, error }]; [pages] is no integer when the limit
    is zero. *)
Inductive audit_result :=
| Logs (logs : list (audit_row * option log_user)) (page limit total : Z)
       (pages : option Z)
| Failed.

Definition getAuditLogs (g : audit_engine) (f : filters) (page limit : Z)
  : M audit_result :=
  try_catch
    (let q := audit_logs_query f page limit in
     total <- sql (fun w =>
                option_map (fun t => (t, w)) (count_audit g q (audit_logs w))) ;;
     logs <- sql (fun w =>
               option_map (fun l => (l, w))
                 (page_of_audit g q (audit_logs w) (users w))) ;;
     ret (Logs (map log_view logs) page limit total
            (if (limit =? 0)%Z then None else Some (ceil_div total limit))))
    (fun error =>
       log_line "Failed to get audit logs:" ;;;
       ret Failed).

End AuditQuery.

(** ** The vocabulary of the further properties *)

Module Logic.
Import Core Http JsString JsNumber Slug Validation AuthMiddleware.
Import MessageController UserController Session Account Vocabulary.

(** What a run of [c] from [w] comes to: [Q] holds of the value and the
    world it returns, or [E] of the error and the world it throws in; a
    run that is cut short for want of fuel satisfies nothing. *)
Definition spec {A} (c : M A) (w : world)
    (Q : A -> world -> Prop) (E : exn -> world -> Prop) : Prop :=
  match c w with
  | (Returned a, w') => Q a w'
  | (Thrown x, w') => E x w'
  | (Unfinished, _) => False
  end.

(** No error gets out. *)
Definition caught (x : exn) (w : world) : Prop := False.

(** The columns of a user that the route [PUT /users/:id] cannot reach. *)
Definition names (u : user_row) : string * string * string * option string :=
  (u_id u, u_first_name u, u_last_name u, u_avatar_url u).
(** What a page of a list is cut by. *)
Definition in_window (q : list_query) : Prop :=
  (1 <= q_limit q <= 100)%Z /\ (0 <= q_offset q <= 99900)%Z
  /\ (q_order q = "asc" \/ q_order q = "desc").

Definition well_paged (p : pagination) : Prop :=
  (1 <= pg_page p <= 1000)%Z /\ (1 <= pg_limit p <= 100)%Z
  /\ ((pg_pages p - 1) * pg_limit p < pg_total p <= pg_pages p * pg_limit p)%Z.

Definition windowed (w : world) (r : response) (w' : world) : Prop :=
  (executed w' = executed w
   \/ exists q, executed w' = executed w ++ [q] /\ in_window q)
  /\ match data r with
     | MessagesPage _ p | UsersPage _ p => well_paged p
     | _ => True
     end.

(** [w'] is [w] but for the tags of the messages, the console and the
    fault plan. *)
Definition tags_only (w w' : world) : Prop :=
  users w' = users w /\ messages w' = messages w
  /\ refresh_tokens w' = refresh_tokens w /\ audit_logs w' = audit_logs w
  /\ now w' = now w /\ executed w' = executed w.

(** Row by row, [rows'] is [rows] with the same identifiers, and with the
    same row wherever the identifier is not [id]. *)
Definition others_untouched (id : string) (rows rows' : list user_row) : Prop :=
  Forall2 (fun u u' => u_id u' = u_id u /\ (u_id u <> id -> u' = u)) rows rows'.

(** The refresh tokens after those of a user have been revoked, and the
    users after the password of one has been set at an instant. *)
Definition tokens_revoked_of (id : string) (l : list token_row) : list token_row :=
  map (fun r => if (t_user_id r =? id)%string then revoke r else r) l.

Definition password_set (id hash : string) (t : Z) (l : list user_row)
  : list user_row :=
  map (fun u => if (u_id u =? id)%string then with_password_hash hash t u else u) l.

(** The users after a login of [user] has been recorded at an instant:
    the rows of that identifier have the instant and the next count. *)
Definition login_recorded (user : user_row) (t : Z) (l : list user_row)
  : list user_row :=
  map (fun u => if (u_id u =? u_id user)%string
                then with_login t (next_login_count user) u else u) l.

(** A user apart from what a login records. *)
Definition apart_from_login (u : user_row) : user_row :=
  {| u_id := u_id u; u_email := u_email u; u_password_hash := u_password_hash u;
     u_first_name := u_first_name u; u_last_name := u_last_name u;
     u_username := u_username u; u_bio := u_bio u;
     u_avatar_url := u_avatar_url u; u_role := u_role u;
     u_status := u_status u; u_last_login := None; u_login_count := None;
     u_updated_at := u_updated_at u |}.

(** The refresh tokens after one token has been revoked. *)
Definition token_revoked (token : string) (l : list token_row) : list token_row :=
  map (fun r => if (t_token r =? token)%string then revoke r else r) l.

(** The request of a refresh with a given token. *)
Definition refresh_with (token : string) (req : request) : request :=
  with_body [("refreshToken", JStr token)] req.

(** [a] is [b] with some characters left out. *)
Inductive Subseq : list ascii -> list ascii -> Prop :=
| Subseq_nil : Subseq [] []
| Subseq_keep c a b : Subseq a b -> Subseq (c :: a) (c :: b)
| Subseq_drop c a b : Subseq a b -> Subseq a (c :: b).

(** The characters the last three steps of [sanitizeText] look for. *)
Definition is_markup (c : ascii) : bool :=
  (code c =? 60) || (code c =? 62) || (code c =? 58) || (code c =? 61).

(** The columns of a message that no update may touch. *)
Definition kept (m : message_row) : string * string * Z * Z * Z :=
  (m_id m, m_author_id m, m_view_count m, m_like_count m, m_comment_count m).

(** The columns a [SET] clause of [updateMessage] may name: those of the
    allow-list, the slug that goes with a new title and the instant of
    publication that goes with a new status. *)
Definition message_set_columns : list string :=
  ALLOWED_MESSAGE_UPDATE_FIELDS ++ ["slug"; "published_at"].

(** The columns of [message_row] that are none of them. *)
Definition kept_columns : list string :=
  ["id"; "author_id"; "view_count"; "like_count"; "comment_count"].

(** A [SET] clause names only columns of a list. *)
Definition names_within (columns : list string) (updates : list (string * cell))
  : Prop :=
  forall col, In col (map fst updates) -> In col columns.

(** Row by row, [rows'] is [rows] with the same kept columns, and with
    the same row wherever the identifier is not [id]. *)
Definition other_messages_untouched (id : string)
    (rows rows' : list message_row) : Prop :=
  Forall2 (fun m m' => kept m' = kept m /\ (m_id m <> id -> m' = m)) rows rows'.

(** The slug an update of the message [old] of identifier [id] leaves it
    with, given the title of the payload: the stored one when the title
    is absent or is the stored title, else the first candidate of the new
    title that no other message holds. *)
Definition slug_after (id : string) (rows : list message_row)
    (title : option json) (old : message_row) (slug : string) : Prop :=
  match title with
  | Some (JStr t) =>
      if (t =? m_title old)%string then slug = m_slug old
      else exists k,
             slug = candidate (generateSlug t) k
             /\ taken_by (Some id) rows (candidate (generateSlug t) k) = false
             /\ forall j, j < k ->
                  taken_by (Some id) rows (candidate (generateSlug t) j) = true
  | _ => slug = m_slug old
  end.

(** The entries of a [SET] clause that name the slug. *)
Definition slug_entries (updates : list (string * cell)) : list (string * cell) :=
  filter (fun kv => (fst kv =? "slug")%string) updates.

(** What the [SET] clause of an update of [old] holds about the slug:
    nothing when the title is absent or is the stored one, else one
    entry, with the first candidate that no other message holds. *)
Definition slug_plan (id : string) (rows : list message_row)
    (title : option json) (old : message_row)
    (updates : list (string * cell)) : Prop :=
  match title with
  | Some (JStr t) =>
      if (t =? m_title old)%string then slug_entries updates = []
      else exists k,
             slug_entries updates
             = [("slug", CText (candidate (generateSlug t) k))]
             /\ taken_by (Some id) rows (candidate (generateSlug t) k) = false
             /\ forall j, j < k ->
                  taken_by (Some id) rows (candidate (generateSlug t) j) = true
  | _ => slug_entries updates = []
  end.

(** The request carries no token that verifies to an active user: the
    header has none, or the verification fails, or no active row has the
    identifier it yields. *)
Definition unauthenticated (e : env) (req : request) (w : world) : Prop :=
  match bearer_token (authorization req) with
  | Some token =>
      match verify_access e token with
      | Verified userId =>
          filter (fun u => (u_id u =? userId)%string
                           && (u_status u =? "active")%string) (users w) = []
      | _ => True
      end
  | None => True
  end.

(** A route turns the request away and touches nothing. *)
Definition turned_away (run : M response) (w : world) : Prop :=
  exists r w',
    run w = (Returned r, w')
    /\ (status r = 401 \/ status r = 403) /\ success r = false
    /\ data r = NoData /\ same_tables w w'.

(** The value a filter adds to the parameters: its own, if it is set. *)
Definition set_filter (v : option json) : list json :=
  match v with
  | Some x => if truthy v then [x] else []
  | None => []
  end.

(** The filters that are set, in the order [getAuditLogs] tests them. *)
Definition set_filters (f : AuditQuery.filters) : list json :=
  flat_map set_filter
    [AuditQuery.f_userId f; AuditQuery.f_action f;
     AuditQuery.f_resourceType f; AuditQuery.f_resourceId f;
     AuditQuery.f_dateFrom f; AuditQuery.f_dateTo f].

(** Which filters are set. *)
Definition filter_pattern (f : AuditQuery.filters) : list bool :=
  map truthy
    [AuditQuery.f_userId f; AuditQuery.f_action f;
     AuditQuery.f_resourceType f; AuditQuery.f_resourceId f;
     AuditQuery.f_dateFrom f; AuditQuery.f_dateTo f].

End Logic.

(** * Properties *)

Unset Implicit Arguments.

(** ** Strings *)

Module JsStringFacts.
Import JsString.

Lemma chars_of_chars (l : list ascii) : chars (of_chars l) = l.
Proof. apply list_ascii_of_string_of_list_ascii. Qed.

Lemma of_chars_chars (s : string) : of_chars (chars s) = s.
Proof. apply string_of_list_ascii_of_string. Qed.

Lemma chars_append (s t : string) : chars (s ++ t) = (chars s ++ chars t)%list.
Proof. induction s as [|c s IH]; simpl; [reflexivity | now rewrite <- IH]. Qed.

Lemma of_nat_inj (n m : nat) : of_nat n = of_nat m -> n = m.
Proof.
  unfold of_nat. intro H.
  assert (E : Some (Nat.to_uint n) = Some (Nat.to_uint m)).
  { rewrite <- !NilEmpty.usu. now rewrite H. }
  injection E as E. now apply Unsigned.to_uint_inj.
Qed.

Lemma test_class_spec (p : ascii -> bool) (s : string) :
  test_class p s = true <-> exists c, In c (chars s) /\ p c = true.
Proof. unfold test_class. apply existsb_exists. Qed.

Lemma test_class_append (p : ascii -> bool) (s t : string) :
  test_class p (s ++ t) = test_class p s || test_class p t.
Proof. unfold test_class. rewrite chars_append. apply existsb_app. Qed.

Lemma length_append (s t : string) : length (s ++ t) = length s + length t.
Proof. unfold length. rewrite chars_append. apply length_app. Qed.

End JsStringFacts.

(** ** Password strength *)

Module PasswordFacts.
Import JsString JsStringFacts Password Vocabulary.

Lemma special_is_no_letter_or_digit (c : ascii) :
  is_special c = true ->
  is_lower c = false /\ is_upper c = false /\ is_digit c = false.
Proof.
  unfold is_special, is_lower, is_upper, is_digit, in_range, special_codes.
  intro H. apply existsb_exists in H. destruct H as [n [Hin Heq]].
  apply Nat.eqb_eq in Heq. rewrite Heq. simpl in Hin.
  repeat (destruct Hin as [<- | Hin]; [repeat split; reflexivity |]).
  destruct Hin.
Qed.

(** C9.  The validator answers valid exactly for the passwords of at least
    eight characters that hold a lower-case letter, an upper-case letter
    and a digit.  The score counts those three classes and adds one for a
    special character; adding a special character to a password never
    takes validity away and raises the score of a password that had none. *)
Theorem password_valid_iff_policy (password : string) :
  (isValid (validatePasswordStrength password) = true <-> meets_policy password)
  /\ score (validatePasswordStrength password)
     = classes_met password
       + (if test_class is_special password then 1 else 0)
  /\ (forall c, is_special c = true ->
        let longer := (password ++ String c EmptyString)%string in
        (isValid (validatePasswordStrength password) = true ->
         isValid (validatePasswordStrength longer) = true)
        /\ (test_class is_special password = false ->
            score (validatePasswordStrength longer)
            = S (score (validatePasswordStrength password)))).
Proof.
  split; [| split].
  - unfold validatePasswordStrength, meets_policy, contains; cbn [isValid].
    rewrite !andb_true_iff, Nat.leb_le, !test_class_spec.
    unfold minLength. tauto.
  - unfold validatePasswordStrength, classes_met, count_true; simpl.
    destruct (test_class is_lower password), (test_class is_upper password),
      (test_class is_digit password), (test_class is_special password);
      reflexivity.
  - intros c Hc longer.
    destruct (special_is_no_letter_or_digit c Hc) as [Hl [Hu Hd]].
    assert (El : test_class is_lower longer = test_class is_lower password).
    { unfold longer. rewrite test_class_append. unfold test_class at 2. simpl.
      rewrite Hl. now rewrite !orb_false_r. }
    assert (Eu : test_class is_upper longer = test_class is_upper password).
    { unfold longer. rewrite test_class_append. unfold test_class at 2. simpl.
      rewrite Hu. now rewrite !orb_false_r. }
    assert (Ed : test_class is_digit longer = test_class is_digit password).
    { unfold longer. rewrite test_class_append. unfold test_class at 2. simpl.
      rewrite Hd. now rewrite !orb_false_r. }
    assert (Es : test_class is_special longer = true).
    { unfold longer. rewrite test_class_append. unfold test_class at 2. simpl.
      rewrite Hc. now rewrite orb_true_r. }
    split.
    + unfold validatePasswordStrength; cbn [isValid].
      rewrite El, Eu, Ed. rewrite !andb_true_iff, !Nat.leb_le.
      unfold longer. rewrite length_append. intuition lia.
    + intro Hno. unfold validatePasswordStrength, count_true; simpl.
      rewrite El, Eu, Ed, Es, Hno.
      destruct (test_class is_lower password), (test_class is_upper password),
        (test_class is_digit password); reflexivity.
Qed.

(** A valid password without any special character, and what one more
    character does to its score. *)
Lemma password_valid_iff_policy_witness :
  isValid (validatePasswordStrength "Abcdefg1") = true
  /\ test_class is_special "Abcdefg1" = false
  /\ score (validatePasswordStrength "Abcdefg1!") = 4.
Proof.
  destruct (password_valid_iff_policy "Abcdefg1") as [Hv [_ Hs]].
  destruct (Hs "!"%char eq_refl) as [_ Hscore].
  split; [| split].
  - apply Hv. unfold meets_policy, contains. repeat split.
    + vm_compute. lia.
    + exists "b"%char. split; [simpl; tauto | reflexivity].
    + exists "A"%char. split; [simpl; tauto | reflexivity].
    + exists "1"%char. split; [simpl; tauto | reflexivity].
  - reflexivity.
  - exact (Hscore eq_refl).
Defined.

End PasswordFacts.

(** ** Running a handler *)

(** Unfold the operations of the handler monad and reduce what that
    exposes. *)
Ltac run :=
  cbv beta iota delta
    [Core.bind Core.ret Core.throw Core.try_catch Core.log_line
     Core.get_world Core.unfinished Core.sql Http.jwt_verify].

(** ** Token refresh and the authorization middleware *)

Module AuthFacts.
Import Core Http AuthMiddleware AuthController Vocabulary.

(** C1.  A refresh request whose token has no persisted record, or a
    revoked one, or one past its persisted expiry, is answered 401 without
    an access token, whatever the signature check says. *)
Theorem refresh_rejects_stale_record (e : env) (req : request) (w : world)
    (token : string) :
  field "refreshToken" (body req) = Some (JStr token) ->
  stale w token ->
  exists msg w',
    refreshToken e req w = (Returned (failure 401 msg), w').
Proof.
  intros Hbody Hstale.
  assert (Hdone : forall m (w1 : world),
             exists msg w', (Returned (failure 401 m), w1)
                            = (Returned (failure 401 msg), w')) by eauto.
  unfold refreshToken, stale in *. rewrite Hbody.
  destruct (negb (truthy (Some (JStr token)))); [run; apply Hdone |].
  destruct (verify_refresh e token); run; try apply Hdone.
  unfold select_token; run.
  destruct (faults w) as [| [|] plan]; cbn; try apply Hdone;
    (destruct (filter _ (refresh_tokens w)) as [| r rows]; cbn; try apply Hdone;
     destruct (t_is_revoked r); cbn; try apply Hdone;
     destruct Hstale as [Hr | Hlt]; [discriminate |];
     apply Z.ltb_lt in Hlt; rewrite Hlt; cbn; apply Hdone).
Qed.

(** A revoked record under a token whose signature verifies. *)
Lemma refresh_rejects_stale_record_witness :
  verify_refresh Sample.env0 Sample.alice_token = Verified Sample.alice_id
  /\ exists msg w',
       refreshToken Sample.env0
         (with_body [("refreshToken", JStr Sample.alice_token)]
                    Sample.request0)
         Sample.world0
       = (Returned (failure 401 msg), w').
Proof.
  split; [reflexivity |].
  apply (refresh_rejects_stale_record Sample.env0
           (with_body [("refreshToken", JStr Sample.alice_token)]
                      Sample.request0)
           Sample.world0 Sample.alice_token).
  - reflexivity.
  - unfold stale. simpl. left. reflexivity.
Defined.

(** A live record does lead to a new access token. *)
Example refresh_accepts_live_record :
  fst (refreshToken Sample.env0
         (with_body [("refreshToken", JStr Sample.admin_token)]
                    Sample.request0)
         Sample.world0)
  = Returned (ok None (TokenData ("access:" ++ Sample.admin_id)
                         (token_user_of Sample.admin))).
Proof. reflexivity. Qed.

(** C2, as the code has it.  The middleware tells an expired bearer token
    (401, Token expired) from any other failed verification (403, Invalid
    token).  The refresh endpoint does not: whatever makes the verification
    of the refresh token fail, the answer is the same 401. *)
Theorem expired_token_told_apart_by_middleware (e : env) (req : request)
    (w : world) (token : string) :
  (bearer_token (authorization req) = Some token ->
   (verify_access e token = Expired ->
    authenticateToken e req w
    = (Returned (Answer (failure 401 "Token expired")), w))
   /\ (verify_access e token = Rejected ->
       authenticateToken e req w
       = (Returned (Answer (failure 403 "Invalid token")), w)))
  /\ (field "refreshToken" (body req) = Some (JStr token) ->
      token <> "" ->
      verify_refresh e token = Expired \/ verify_refresh e token = Rejected ->
      refreshToken e req w
      = (Returned (failure 401 "Invalid refresh token"),
         with_console (console w ++ ["Refresh token error:"]) w)).
Proof.
  split.
  - intro Hb. unfold authenticateToken. rewrite Hb.
    split; intro Hv; rewrite Hv; reflexivity.
  - intros Hb Hne Hv. unfold refreshToken. rewrite Hb.
    assert (Ht : negb (truthy (Some (JStr token))) = false).
    { simpl. rewrite negb_involutive. now apply String.eqb_neq. }
    run. rewrite Ht.
    destruct Hv as [Hv | Hv]; rewrite Hv; reflexivity.
Qed.

Lemma expired_token_told_apart_by_middleware_witness :
  let req :=
    {| authorization := Some "Bearer old:token";
       query := []; body := [("refreshToken", JStr "old:token")];
       param := ""; user := None; ip := None; user_agent := None |} in
  authenticateToken Sample.env0 req Sample.world0
  = (Returned (Answer (failure 401 "Token expired")), Sample.world0)
  /\ refreshToken Sample.env0 req Sample.world0
     = (Returned (failure 401 "Invalid refresh token"),
        with_console (console Sample.world0 ++ ["Refresh token error:"])
                     Sample.world0).
Proof.
  intro req.
  destruct (expired_token_told_apart_by_middleware Sample.env0 req
              Sample.world0 "old:token") as [Hmw Hrefresh].
  split.
  - apply Hmw; reflexivity.
  - apply Hrefresh; [reflexivity | discriminate | left; reflexivity].
Defined.

(** The refresh endpoint answers a forged token and an expired one alike,
    with 401 and not 403. *)
Lemma refresh_answers_forged_like_expired :
  let expired := with_body [("refreshToken", JStr "old:token")] Sample.request0 in
  let forged := with_body [("refreshToken", JStr "forged")] Sample.request0 in
  verify_refresh Sample.env0 "old:token" = Expired
  /\ verify_refresh Sample.env0 "forged" = Rejected
  /\ refreshToken Sample.env0 forged Sample.world0
     = refreshToken Sample.env0 expired Sample.world0
  /\ option_map status
       (match fst (refreshToken Sample.env0 forged Sample.world0) with
        | Returned r => Some r
        | _ => None
        end) = Some 401.
Proof. repeat split. Qed.

End AuthFacts.

(** ** Reading one message *)

Module ViewFacts.
Import Core Http Validation MessageController Vocabulary.

Lemma fetched_bump (key id : string) (rows : list message_row) :
  fetched key (map (bump id) rows) = option_map (bump id) (fetched key rows).
Proof.
  unfold fetched. induction rows as [| m rows IH]; [reflexivity |].
  simpl.
  assert (E : (if is_uuid key then (m_id (bump id m) =? key)%string
               else (m_slug (bump id m) =? key)%string)
              = (if is_uuid key then (m_id m =? key)%string
                 else (m_slug m =? key)%string)).
  { unfold bump. destruct (m_id m =? id)%string; reflexivity. }
  rewrite E.
  destruct (if is_uuid key then (m_id m =? key)%string
            else (m_slug m =? key)%string); [reflexivity | exact IH].
Qed.

(** C3.  A fetch that succeeds on an active message adds exactly one to
    the stored view count of that message and of no other, and the
    [viewCount] of the response is the value now stored; a fetch that
    succeeds on a message that is not active leaves the table as it was. *)
Theorem view_count_incremented_once (req : request) (w w' : world)
    (r : response) :
  getMessageBySlug req w = (Returned r, w') ->
  status r = 200 ->
  exists m,
    fetched (param req) (messages w) = Some m
    /\ if (m_status m =? "active")%string then
         messages w' = map (bump (m_id m)) (messages w)
         /\ exists stored view,
              fetched (param req) (messages w') = Some stored
              /\ m_view_count stored = (m_view_count m + 1)%Z
              /\ data r = MessageData view
              /\ mv_viewCount view = m_view_count stored
       else messages w' = messages w.
Proof.
  unfold getMessageBySlug, select_message, increment_view_count, fetched.
  run.
  destruct (param req =? "")%string;
    [intros H; inversion H; subst; discriminate |].
  set (sel := fun m : message_row =>
                if is_uuid (param req) then (m_id m =? param req)%string
                else (m_slug m =? param req)%string).
  assert (Hstored : forall m rows,
            hd_error (filter sel rows) = Some m ->
            hd_error (filter sel (map (bump (m_id m)) rows))
            = Some (with_view_count (m_view_count m + 1)%Z m)).
  { intros m rows Hm.
    change (fetched (param req) (map (bump (m_id m)) rows)
            = Some (with_view_count (m_view_count m + 1)%Z m)).
    rewrite fetched_bump. unfold fetched. fold sel. rewrite Hm. simpl.
    unfold bump. now rewrite String.eqb_refl. }
  destruct (faults w) as [| [|] plan] eqn:Hf; cbn -[filter];
    try (intros H; inversion H; subst; discriminate).
  - destruct (filter sel (messages w)) as [| m rows] eqn:Hsel; cbn -[filter];
      [intros H; inversion H; subst; discriminate |].
    destruct (m_status m =? "active")%string eqn:Hact; cbn -[filter].
    + rewrite Hf. cbn -[filter].
      intros H Hs; inversion H; subst; clear H.
      exists m. split; [reflexivity |]. rewrite Hact. cbn -[filter].
      split; [reflexivity |].
      exists (with_view_count (m_view_count m + 1)%Z m),
             (with_viewCount (m_view_count m + 1)%Z (view_of m)).
      repeat split. apply Hstored. fold sel. now rewrite Hsel.
    + destruct (negb (is_role "admin" (role_of req))
                && negb (is_role "moderator" (role_of req))
                && negb (is_role (m_author_id m) (id_of req))); cbn -[filter];
        intros H Hs; inversion H; subst; clear H; try discriminate.
      exists m. split; [reflexivity |]. rewrite Hact. reflexivity.
  - destruct (filter sel (messages w)) as [| m rows] eqn:Hsel; cbn -[filter];
      [intros H; inversion H; subst; discriminate |].
    destruct (m_status m =? "active")%string eqn:Hact; cbn -[filter].
    + destruct plan as [| [|] plan']; cbn -[filter];
        intros H Hs; inversion H; subst; clear H; try discriminate;
        (exists m; split; [reflexivity |]; rewrite Hact; cbn -[filter];
         split; [reflexivity |];
         exists (with_view_count (m_view_count m + 1)%Z m),
                (with_viewCount (m_view_count m + 1)%Z (view_of m));
         repeat split; apply Hstored; fold sel; now rewrite Hsel).
    + destruct (negb (is_role "admin" (role_of req))
                && negb (is_role "moderator" (role_of req))
                && negb (is_role (m_author_id m) (id_of req))); cbn -[filter];
        intros H Hs; inversion H; subst; clear H; try discriminate.
      exists m. split; [reflexivity |]. rewrite Hact. reflexivity.
Qed.

End ViewFacts.

Module ViewWitness.
Import Core Http MessageController ViewFacts Vocabulary.

Lemma view_count_incremented_once_witness :
  let req := Sample.with_param "hello-1" Sample.request0 in
  let w' := snd (getMessageBySlug req Sample.world0) in
  exists r,
    fst (getMessageBySlug req Sample.world0) = Returned r
    /\ mv_viewCount (match data r with
                     | MessageData v => v
                     | _ => view_of (Sample.post "" "" "" "" 0)
                     end) = 42%Z
    /\ exists m,
         fetched "hello-1" (messages Sample.world0) = Some m
         /\ if (m_status m =? "active")%string then
              messages w' = map (bump (m_id m)) (messages Sample.world0)
              /\ exists stored view,
                   fetched "hello-1" (messages w') = Some stored
                   /\ m_view_count stored = (m_view_count m + 1)%Z
                   /\ data r = MessageData view
                   /\ mv_viewCount view = m_view_count stored
            else messages w' = messages Sample.world0.
Proof.
  intros req w'. eexists. split; [reflexivity |]. split; [reflexivity |].
  apply (view_count_incremented_once req Sample.world0 w' _); reflexivity.
Defined.

End ViewWitness.

(** ** Validation of the query string *)

Module ValidationFacts.
Import Core Http JsString JsNumber Validation Vocabulary.

Lemma query_param_set (k name v : string) (q : list (string * string)) :
  query_param k (set_param name v q)
  = if (k =? name)%string
    then match query_param k q with Some _ => Some v | None => None end
    else query_param k q.
Proof.
  induction q as [| [k' v'] q IH]; simpl.
  - now destruct (k =? name)%string.
  - destruct (k' =? name)%string eqn:E1; simpl.
    + apply String.eqb_eq in E1. subst k'.
      destruct (k =? name)%string eqn:E2; [reflexivity | exact IH].
    + destruct (k =? k')%string eqn:E2.
      * apply String.eqb_eq in E2. subst k'. now rewrite E1.
      * exact IH.
Qed.

(** What one chain does to the errors and to the parameters. *)
Lemma chain_spec (name : string) (san : string -> string)
    (valid : string -> bool) (msg : string)
    (acc : list (string * string) * list (string * string)) :
  (snd (chain name san valid msg acc) = [] ->
   snd acc = []
   /\ forall v, query_param name (fst acc) = Some v -> valid (san v) = true)
  /\ (forall k, k <> name ->
        query_param k (fst (chain name san valid msg acc))
        = query_param k (fst acc))
  /\ query_param name (fst (chain name san valid msg acc))
     = option_map san (query_param name (fst acc)).
Proof.
  unfold chain. destruct acc as [q errors]. simpl.
  destruct (query_param name q) as [v |] eqn:Hq; simpl.
  - split; [| split].
    + destruct (valid (san v)) eqn:Hv.
      * intro He. split; [exact He |]. intros v' Hv'. now inversion Hv'; subst.
      * intro He. destruct errors; discriminate.
    + intros k Hk. rewrite query_param_set.
      apply String.eqb_neq in Hk. now rewrite Hk.
    + rewrite query_param_set, String.eqb_refl, Hq. reflexivity.
  - split; [| split].
    + intro He. split; [exact He | discriminate].
    + reflexivity.
    + now rewrite Hq.
Qed.

Ltac chain_facts c A B C :=
  let body := eval unfold c in c in
  match body with
  | chain ?n ?s ?v ?m ?a =>
      pose proof (chain_spec n s v m a) as [A [B C]]; fold c in A, B, C
  end.

Lemma digit_is_no_space (c : ascii) : is_digit c = true -> is_space c = false.
Proof.
  unfold is_digit, is_space, in_range. intro H.
  apply andb_true_iff in H. rewrite !Nat.leb_le in H.
  rewrite !orb_false_iff, andb_false_iff, !Nat.eqb_neq, !Nat.leb_gt. lia.
Qed.

Lemma strip_radix_digits (ds : list ascii) :
  forallb is_digit ds = true -> strip_radix ds = (10%Z, ds).
Proof.
  destruct ds as [| z [| x t]]; try reflexivity.
  simpl. intro H. apply andb_true_iff in H. destruct H as [_ H].
  apply andb_true_iff in H. destruct H as [Hx _].
  unfold is_digit, in_range in Hx. apply andb_true_iff in Hx.
  rewrite !Nat.leb_le in Hx.
  assert (E1 : (code x =? 120) = false) by (apply Nat.eqb_neq; lia).
  assert (E2 : (code x =? 88) = false) by (apply Nat.eqb_neq; lia).
  now rewrite E1, E2, andb_false_r.
Qed.

(** On the strings [isInt] accepts, [parseInt] reads the same integer. *)
Lemma int_literal_parseInt (s : string) (v : Z) :
  int_literal s = Some v -> parseInt_string s = Some v.
Proof.
  unfold int_literal, parseInt_string.
  destruct (chars s) as [| c t] eqn:Hc; [discriminate |].
  assert (Hsp : (code c =? 45) = true \/ (code c =? 43) = true
                \/ strip_sign (c :: t) = (1%Z, c :: t)).
  { simpl. destruct (code c =? 45); [tauto |].
    destruct (code c =? 43); tauto. }
  assert (Hdrop : forall (ok : is_space c = false),
             drop_while is_space (c :: t) = c :: t).
  { intro ok. simpl. now rewrite ok. }
  destruct (strip_sign (c :: t)) as [sign ds] eqn:Hs.
  destruct ds as [| d ds']; [discriminate |].
  destruct (forallb is_digit (d :: ds')) eqn:Hd; [| discriminate].
  intro Hv.
  assert (Hns : is_space c = false).
  { destruct Hsp as [H | [H | H]].
    - apply Nat.eqb_eq in H. unfold is_space, in_range. now rewrite H.
    - apply Nat.eqb_eq in H. unfold is_space, in_range. now rewrite H.
    - inversion H; subst. simpl in Hd. apply andb_true_iff in Hd.
      apply digit_is_no_space. tauto. }
  rewrite (Hdrop Hns), Hs. rewrite (strip_radix_digits _ Hd). exact Hv.
Qed.

Lemma isInt_parseInt (lo hi : Z) (s : string) :
  isInt lo hi s = true ->
  exists v, parseInt (Some s) = Some v /\ (lo <= v <= hi)%Z.
Proof.
  unfold isInt. destruct (int_literal s) as [v |] eqn:Hv; [| discriminate].
  intro H. apply andb_true_iff in H. rewrite !Z.leb_le in H.
  exists v. split; [now apply int_literal_parseInt | lia].
Qed.

Lemma validatePagination_spec (req : request) :
  match validatePagination req with
  | Answer r => status r = 400
  | Next req' =>
      paged req /\ user req' = user req
      /\ (forall k, In k ["page"; "limit"; "sort"; "order"] ->
            query_param k (query req') = query_param k (query req))
  end.
Proof.
  unfold validatePagination.
  set (c1 := chain "page" _ _ _ _).
  set (c2 := chain "limit" _ _ _ c1).
  set (c3 := chain "sort" _ _ _ c2).
  set (c4 := chain "order" _ _ _ c3).
  set (c5 := chain "search" _ _ _ c4).
  set (c6 := chain "category" _ _ _ c5).
  set (c7 := chain "status" _ _ _ c6).
  set (c8 := chain "author" _ _ _ c7).
  destruct c8 as [q errors] eqn:H8.
  unfold handleValidationErrors.
  destruct errors as [| err errors]; [| reflexivity].
  assert (E8 : snd c8 = []) by now rewrite H8.
  assert (Q8 : fst c8 = q) by now rewrite H8.
  clear H8.
  chain_facts c8 A8 B8 C8. chain_facts c7 A7 B7 C7.
  chain_facts c6 A6 B6 C6. chain_facts c5 A5 B5 C5.
  chain_facts c4 A4 B4 C4. chain_facts c3 A3 B3 C3.
  chain_facts c2 A2 B2 C2. chain_facts c1 A1 B1 C1.
  change (fst (query req, @nil (string * string))) with (query req) in *.
  destruct (A8 E8) as [E7 _]. destruct (A7 E7) as [E6 _].
  destruct (A6 E6) as [E5 _]. destruct (A5 E5) as [E4 _].
  destruct (A4 E4) as [E3 V4]. destruct (A3 E3) as [E2 V3].
  destruct (A2 E2) as [E1 V2]. destruct (A1 E1) as [_ V1].
  assert (Hq : forall k, In k ["page"; "limit"; "sort"; "order"] ->
             query_param k q = query_param k (query req)).
  { intros k Hk. rewrite <- Q8.
    rewrite B8, B7, B6, B5
      by (simpl in Hk; intuition (subst; discriminate)).
    simpl in Hk. destruct Hk as [<- | [<- | [<- | [<- | []]]]].
    - rewrite B4, B3, B2 by discriminate. rewrite C1.
      now destruct (query_param "page" (query req)).
    - rewrite B4, B3 by discriminate. rewrite C2, B1 by discriminate.
      now destruct (query_param "limit" (query req)).
    - rewrite B4 by discriminate. rewrite C3, B2, B1 by discriminate.
      now destruct (query_param "sort" (query req)).
    - rewrite C4, B3, B2, B1 by discriminate.
      now destruct (query_param "order" (query req)). }
  split; [| split; [reflexivity | exact Hq]].
  unfold paged. repeat split; intros v Hv.
  - apply V1. exact Hv.
  - apply V2. rewrite B1 by discriminate. exact Hv.
  - apply V3. rewrite B2, B1 by discriminate. exact Hv.
  - apply V4. rewrite B3, B2, B1 by discriminate. exact Hv.
Qed.

End ValidationFacts.

(** ** The list routes: page size and sort column *)

Module ListFacts.
Import Core Http JsString JsNumber Validation ValidationFacts Vocabulary.
Import AuthMiddleware MessageController Routes.

Lemma optionalAuth_spec (e : env) (req : request) (w : world) :
  exists req' w',
    optionalAuth e req w = (Returned (Next req'), w')
    /\ query req' = query req
    /\ executed w' = executed w.
Proof.
  unfold optionalAuth, select_active_user.
  destruct (bearer_token (authorization req)) as [token |]; run;
    [| now exists req, w].
  destruct (verify_access e token) as [userId | |]; run;
    try (now exists req, w).
  destruct (faults w) as [| [|] plan]; cbn -[filter].
  - destruct (filter _ (users w)) as [| u rows];
      eexists; eexists; repeat split.
  - eexists; eexists; repeat split.
  - destruct (filter _ (users w)) as [| u rows];
      eexists; eexists; repeat split.
Qed.

Lemma authenticateToken_spec (e : env) (req : request) (w : world) :
  exists w',
    executed w' = executed w
    /\ same_tables w w'
    /\ ((exists r, authenticateToken e req w = (Returned (Answer r), w')
                   /\ (status r = 401 \/ status r = 403))
        \/ (exists u, authenticateToken e req w
                      = (Returned (Next (with_user (Some (principal_of u)) req)), w')
                      /\ In u (users w))).
Proof.
  unfold authenticateToken, select_active_user.
  destruct (bearer_token (authorization req)) as [token |]; run.
  2: { exists w. repeat split. left. eexists. split; [reflexivity | now left]. }
  destruct (verify_access e token) as [userId | |]; run.
  2: { exists w. repeat split. left. eexists. split; [reflexivity | now left]. }
  2: { exists w. repeat split. left. eexists. split; [reflexivity | now right]. }
  destruct (faults w) as [| [|] plan]; cbn -[filter].
  - destruct (filter _ (users w)) as [| u rows] eqn:Hf.
    + exists w. repeat split. left. eexists. split; [reflexivity | now left].
    + exists w. repeat split. right. exists u. split; [reflexivity |].
      assert (Hin : In u (u :: rows)) by now left.
      rewrite <- Hf in Hin. now apply filter_In in Hin.
  - exists (with_faults plan w). repeat split. left. eexists.
    split; [reflexivity | now right].
  - destruct (filter _ (users w)) as [| u rows] eqn:Hf.
    + exists (with_faults plan w). repeat split. left. eexists.
      split; [reflexivity | now left].
    + exists (with_faults plan w). repeat split. right. exists u.
      split; [reflexivity |].
      assert (Hin : In u (u :: rows)) by now left.
      rewrite <- Hf in Hin. now apply filter_In in Hin.
Qed.

Lemma requireModerator_spec (req : request) :
  requireModerator req = Next req
  \/ exists r, requireModerator req = Answer r
               /\ (status r = 401 \/ status r = 403).
Proof.
  unfold requireModerator, requireRole.
  destruct (user req) as [p |].
  - destruct (includes _ (p_role p)); [now left |].
    right. eexists. split; [reflexivity | now right].
  - right. eexists. split; [reflexivity | now left].
Qed.

(** The list handler answers, and runs its paged query at most once. *)
Lemma getUsers_spec (e : env) (req : request) (w : world) :
  exists r w',
    UserController.getUsers e req w = (Returned r, w')
    /\ (executed w' = executed w
        \/ executed w' = executed w ++ [UserController.users_query req]).
Proof.
  unfold UserController.getUsers, the_user. run.
  destruct (faults w) as [| [|] plan] eqn:Hf; cbn.
  - rewrite Hf. destruct (user req); cbn;
      eexists; eexists; (split; [reflexivity | auto]).
  - eexists; eexists; split; [reflexivity | now left].
  - destruct plan as [| [|] plan]; cbn; try destruct (user req); cbn;
      eexists; eexists; (split; [reflexivity |]); auto.
Qed.

(** The page size the handlers compute from a validated [limit]. *)
Lemma limit_of_paged (q : list (string * string)) :
  (forall v, query_param "limit" q = Some v -> isInt 1 100 v = true) ->
  (1 <= Z.min (or_default (parseInt (query_param "limit" q)) 10) 100 <= 100)%Z.
Proof.
  intro H. destruct (query_param "limit" q) as [v |].
  - destruct (isInt_parseInt 1 100 v (H v eq_refl)) as [n [Hn Hr]].
    rewrite Hn. unfold or_default. destruct n; lia.
  - simpl. lia.
Qed.

Lemma limit_capped (v : option string) :
  (Z.min (or_default (parseInt v) 10) 100 <= 100)%Z.
Proof. lia. Qed.

Lemma sort_column_allowed (allowed : list string) (q : list (string * string)) :
  In "created_at" allowed -> In (sort_column allowed q) allowed.
Proof.
  intro Hd. unfold sort_column.
  destruct (query_param "sort" q) as [s |]; [| exact Hd].
  destruct (includes allowed s) eqn:Hs; [| exact Hd].
  unfold includes in Hs. apply existsb_exists in Hs.
  destruct Hs as [x [Hin Hx]]. apply String.eqb_eq in Hx. now subst.
Qed.

(** What the messages route does with a request: it answers, and it runs
    the paged query at most once, with a page size between 1 and 100. *)
Lemma get_messages_spec (e : env) (req : request) (w : world) :
  exists r w',
    get_messages e req w = (Returned r, w')
    /\ (executed w' = executed w
        \/ (exists q, executed w' = executed w ++ [q]
                      /\ (1 <= q_limit q <= 100)%Z
                      /\ In (q_sort q) MessageController.allowedSortFields)
           /\ (forall v, query_param "limit" (query req) = Some v ->
                 isInt 1 100 v = true)
           /\ (forall v, query_param "sort" (query req) = Some v ->
                 isIn ALLOWED_SORT_FIELDS v = true))
    /\ (status r = 400 \/ status r = 200 \/ status r = 500).
Proof.
  unfold get_messages, bind.
  destruct (optionalAuth_spec e req w) as (req1 & w1 & H1 & Hq1 & Hx1).
  rewrite H1. unfold and_then.
  pose proof (validatePagination_spec req1) as Hv.
  destruct (validatePagination req1) as [r | req2].
  - exists r, w1. split; [reflexivity |]. split; [now left | now left].
  - destruct Hv as (Hp & _ & Hsame).
    destruct Hp as (_ & Hlimit & Hsort & _).
    unfold getMessages. run.
    assert (Hl : (1 <= q_limit (messages_query req2) <= 100)%Z).
    { unfold messages_query; cbn [q_limit]. apply limit_of_paged.
      rewrite (Hsame "limit") by (simpl; tauto). exact Hlimit. }
    assert (Hs : In (q_sort (messages_query req2))
                    MessageController.allowedSortFields).
    { unfold messages_query; cbn [q_sort]. apply sort_column_allowed.
      simpl; tauto. }
    rewrite Hq1 in Hlimit, Hsort.
    destruct (faults w1) as [| [|] plan] eqn:Hf; cbn.
    + rewrite Hf. eexists; eexists. split; [reflexivity |].
      split; [| auto]. right. cbn. rewrite Hx1. eauto 6.
    + eexists; eexists. split; [reflexivity |]. split; [now left | auto].
    + destruct plan as [| [|] plan]; cbn;
        eexists; eexists; (split; [reflexivity |]);
        (split; [| auto]); cbn; rewrite <- ?Hx1; eauto 7.
Qed.

(** C4, as the code has it.  The page size of an executed list query is
    never above 100 (the handler caps it), and on the route it lies between
    1 and 100; a request with [limit=99999] does not reach the query: the
    pagination validator answers it with 400.  The handler, were it
    reached, would run the query with 100. *)
Theorem page_size_at_most_100 (e : env) (req : request) (w : world) :
  (q_limit (messages_query req) <= 100)%Z
  /\ (q_limit (UserController.users_query req) <= 100)%Z
  /\ (exists r w',
        get_messages e req w = (Returned r, w')
        /\ (executed w' = executed w
            \/ exists q, executed w' = executed w ++ [q]
                         /\ (1 <= q_limit q <= 100)%Z))
  /\ (query_param "limit" (query req) = Some "99999" ->
      q_limit (messages_query req) = 100%Z
      /\ exists r w',
           get_messages e req w = (Returned r, w')
           /\ status r = 400 /\ executed w' = executed w).
Proof.
  split; [apply limit_capped |]. split; [apply limit_capped |].
  destruct (get_messages_spec e req w) as (r & w' & Hr & Hx & Hs).
  split.
  - exists r, w'. split; [exact Hr |].
    destruct Hx as [Hx | [(q & Hq & Hl & _) _]]; [now left |].
    right. now exists q.
  - intro H99. split.
    + unfold messages_query; cbn [q_limit]. now rewrite H99.
    + exists r, w'. split; [exact Hr |].
      destruct Hx as [Hx | (_ & Hlimit & _)].
      * split; [| exact Hx].
        (* no query was run: the answer is that of the validator *)
        revert Hr. unfold get_messages, bind.
        destruct (optionalAuth_spec e req w) as (req1 & w1 & H1 & Hq1 & Hx1).
        rewrite H1. unfold and_then.
        pose proof (validatePagination_spec req1) as Hv.
        destruct (validatePagination req1) as [r1 | req2].
        -- intro E. inversion E; subst. exact Hv.
        -- destruct Hv as ((_ & Hlimit & _) & _).
           rewrite Hq1 in Hlimit. specialize (Hlimit _ H99). discriminate.
      * specialize (Hlimit _ H99). discriminate.
Qed.

Lemma page_size_at_most_100_witness :
  let req := with_query [("limit", "99999")] Sample.request0 in
  q_limit (messages_query req) = 100%Z
  /\ exists r w',
       get_messages Sample.env0 req Sample.world0 = (Returned r, w')
       /\ status r = 400 /\ executed w' = executed Sample.world0.
Proof.
  intro req.
  destruct (page_size_at_most_100 Sample.env0 req Sample.world0)
    as (_ & _ & _ & H).
  apply H. reflexivity.
Defined.

(** [GET /api/messages?limit=99999] is answered 400 by the validator, and
    no query is executed with a limit of 100. *)
Lemma limit_99999_is_rejected_not_clamped :
  get_messages Sample.env0
    (with_query [("limit", "99999")] Sample.request0) Sample.world0
  = (Returned {| status := 400; success := false;
                 message := Some "Validation failed";
                 data := Errors [("limit", "Limit must be between 1 and 100")] |},
     Sample.world0)
  /\ executed Sample.world0 = [].
Proof. split; reflexivity. Qed.

(** What the users route does with a request: a middleware answers it
    and no query is run, or it passes validation and the handler runs its
    paged query at most once. *)
Lemma get_users_spec (e : env) (req : request) (w : world) :
  exists r w',
    get_users e req w = (Returned r, w')
    /\ ((executed w' = executed w
         /\ (status r = 400 \/ status r = 401 \/ status r = 403))
        \/ ((forall v, query_param "sort" (query req) = Some v ->
                isIn ALLOWED_SORT_FIELDS v = true)
            /\ (executed w' = executed w
                \/ exists q, executed w' = executed w ++ [q]
                             /\ (1 <= q_limit q <= 100)%Z
                             /\ In (q_sort q) UserController.allowedSortFields))).
Proof.
  unfold get_users, bind.
  destruct (authenticateToken_spec e req w) as (w1 & Hx1 & _ & [H1 | H1]).
  { destruct H1 as (r & H1 & Hs). rewrite H1. unfold and_then.
    exists r, w1. split; [reflexivity |]. left. tauto. }
  destruct H1 as (u & H1 & _). rewrite H1. unfold and_then.
  set (req1 := with_user (Some (principal_of u)) req).
  destruct (requireModerator_spec req1) as [Hm | (r & Hm & Hs)]; rewrite Hm.
  2: { exists r, w1. split; [reflexivity |]. left. tauto. }
  pose proof (validatePagination_spec req1) as Hv.
  destruct (validatePagination req1) as [r | req2].
  { exists r, w1. split; [reflexivity |]. left. tauto. }
  destruct Hv as (Hp & Hu & Hsame).
  destruct Hp as (_ & Hlimit & Hsort & _).
  assert (Hl : (1 <= q_limit (UserController.users_query req2) <= 100)%Z).
  { unfold UserController.users_query; cbn [q_limit]. apply limit_of_paged.
    rewrite (Hsame "limit") by (simpl; tauto). exact Hlimit. }
  assert (Hs : In (q_sort (UserController.users_query req2))
                  UserController.allowedSortFields).
  { unfold UserController.users_query; cbn [q_sort].
    apply sort_column_allowed. simpl; tauto. }
  change (query req1) with (query req) in Hsort.
  destruct (getUsers_spec e req2 w1) as (r & w' & Hr & Hx).
  exists r, w'. split; [exact Hr |]. right. split; [exact Hsort |].
  rewrite <- Hx1. destruct Hx as [Hx | Hx]; [now left |].
  right. eauto.
Qed.

(** C7.  The sort column of an executed user-list query is always one of
    the controller's allow-list, so never [password_hash]; a request with
    [sort=password_hash] is rejected on the route (no query is run), and
    the handler itself would sort by [created_at], descending unless
    [order=asc] is asked for. *)
Theorem sort_key_from_allow_list (e : env) (req : request) (w : world) :
  In (q_sort (UserController.users_query req)) UserController.allowedSortFields
  /\ q_sort (UserController.users_query req) <> "password_hash"
  /\ In (q_sort (messages_query req)) MessageController.allowedSortFields
  /\ (exists r w',
        get_users e req w = (Returned r, w')
        /\ (executed w' = executed w
            \/ exists q, executed w' = executed w ++ [q]
                         /\ In (q_sort q) UserController.allowedSortFields
                         /\ q_sort q <> "password_hash"))
  /\ (query_param "sort" (query req) = Some "password_hash" ->
      q_sort (UserController.users_query req) = "created_at"
      /\ (query_param "order" (query req) <> Some "asc" ->
          q_order (UserController.users_query req) = "desc")
      /\ exists r w',
           get_users e req w = (Returned r, w')
           /\ (status r = 400 \/ status r = 401 \/ status r = 403)
           /\ executed w' = executed w).
Proof.
  assert (Hno : forall s, In s UserController.allowedSortFields ->
                          s <> "password_hash").
  { intros s Hs. simpl in Hs. intuition (subst; discriminate). }
  assert (Hin : In (q_sort (UserController.users_query req))
                   UserController.allowedSortFields).
  { unfold UserController.users_query; cbn [q_sort].
    apply sort_column_allowed. simpl; tauto. }
  split; [exact Hin |]. split; [now apply Hno |].
  split.
  { unfold messages_query; cbn [q_sort]. apply sort_column_allowed.
    simpl; tauto. }
  destruct (get_users_spec e req w) as (r & w' & Hr & Hx).
  split.
  - exists r, w'. split; [exact Hr |].
    destruct Hx as [[Hx _] | [_ [Hx | (q & Hq & _ & Hsq)]]];
      [now left | now left |].
    right. exists q. auto.
  - intro Hp. split; [| split].
    + unfold UserController.users_query, sort_column; cbn [q_sort].
      now rewrite Hp.
    + intro Ho. unfold UserController.users_query, sort_order; cbn [q_order].
      destruct (query_param "order" (query req)) as [o |]; [| reflexivity].
      destruct (o =? "asc")%string eqn:Eo; [| reflexivity].
      apply String.eqb_eq in Eo. now subst.
    + exists r, w'. split; [exact Hr |].
      destruct Hx as [[Hx Hs] | [Hsort _]].
      * split; [exact Hs | exact Hx].
      * specialize (Hsort _ Hp). discriminate.
Qed.

Lemma sort_key_from_allow_list_witness :
  let req :=
    {| authorization := Some ("Bearer " ++ Sample.admin_token)%string;
       query := [("sort", "password_hash")]; body := []; param := "";
       user := None; ip := None; user_agent := None |} in
  q_sort (UserController.users_query req) = "created_at"
  /\ fst (get_users Sample.env0 req Sample.world0)
     = Returned {| status := 400; success := false;
                   message := Some "Validation failed";
                   data := Errors
                     [("sort",
                       "Sort field must be one of: created_at, updated_at, title, view_count, like_count, published_at")] |}
  /\ exists r w',
       get_users Sample.env0 req Sample.world0 = (Returned r, w')
       /\ (status r = 400 \/ status r = 401 \/ status r = 403)
       /\ executed w' = executed Sample.world0.
Proof.
  intro req.
  destruct (sort_key_from_allow_list Sample.env0 req Sample.world0)
    as (_ & _ & _ & _ & H).
  destruct (H eq_refl) as (Hs & _ & Hr).
  split; [exact Hs |]. split; [reflexivity | exact Hr].
Defined.

End ListFacts.

(** ** What a computation leaves alone, and how it came to return *)

Module Frames.
Import Core Http Vocabulary.

Section Keeps.
Variable R : world -> world -> Prop.
Hypothesis R_refl : forall w, R w w.
Hypothesis R_trans : forall w1 w2 w3, R w1 w2 -> R w2 w3 -> R w1 w3.
Hypothesis R_faults : forall plan w, R w (with_faults plan w).
Hypothesis R_console : forall l w, R w (with_console l w).

Lemma keeps_ret {A} (a : A) : keeps R (ret a).
Proof. intro w. apply R_refl. Qed.

Lemma keeps_throw {A} (x : exn) : keeps R (@throw A x).
Proof. intro w. apply R_refl. Qed.

Lemma keeps_unfinished {A} : keeps R (@unfinished A).
Proof. intro w. apply R_refl. Qed.

Lemma keeps_get_world : keeps R get_world.
Proof. intro w. apply R_refl. Qed.

Lemma keeps_log_line (line : string) : keeps R (log_line line).
Proof. intro w. apply R_console. Qed.

Lemma keeps_bind {A B} (c : M A) (k : A -> M B) :
  keeps R c -> (forall a, keeps R (k a)) -> keeps R (bind c k).
Proof.
  intros Hc Hk w. unfold bind. specialize (Hc w).
  destruct (c w) as [[a | x |] w1]; simpl in *; auto.
  eapply R_trans; [exact Hc | apply Hk].
Qed.

Lemma keeps_try_catch {A} (c : M A) (h : exn -> M A) :
  keeps R c -> (forall x, keeps R (h x)) -> keeps R (try_catch c h).
Proof.
  intros Hc Hh w. unfold try_catch. specialize (Hc w).
  destruct (c w) as [[a | x |] w1]; simpl in *; auto.
  eapply R_trans; [exact Hc | apply Hh].
Qed.

Lemma keeps_sql {A} (stmt : world -> option (A * world)) :
  (forall w a w', stmt w = Some (a, w') -> R w w') -> keeps R (sql stmt).
Proof.
  intros Hs w. unfold sql.
  destruct (faults w) as [| [|] plan]; simpl.
  - destruct (stmt w) as [[a w1] |] eqn:E; simpl; eauto.
  - apply R_faults.
  - destruct (stmt (with_faults plan w)) as [[a w1] |] eqn:E; simpl.
    + eapply R_trans; [apply R_faults | eauto].
    + apply R_faults.
Qed.

End Keeps.

Lemma bind_returned {A B} (c : M A) (k : A -> M B) (w w' : world) (b : B) :
  bind c k w = (Returned b, w') ->
  exists a w1, c w = (Returned a, w1) /\ k a w1 = (Returned b, w').
Proof.
  unfold bind. destruct (c w) as [[a | x |] w1]; intro H;
    try discriminate. eauto.
Qed.

Lemma try_catch_returned {A} (c : M A) (h : exn -> M A) (w w' : world) (a : A) :
  try_catch c h w = (Returned a, w') ->
  c w = (Returned a, w')
  \/ exists x w1, c w = (Thrown x, w1) /\ h x w1 = (Returned a, w').
Proof.
  unfold try_catch. destruct (c w) as [[a1 | x |] w1]; intro H;
    try discriminate; eauto.
Qed.

Lemma sql_returned {A} (stmt : world -> option (A * world)) (w w' : world) (a : A) :
  sql stmt w = (Returned a, w') ->
  exists w0, stmt w0 = Some (a, w')
             /\ (w0 = w \/ exists plan, w0 = with_faults plan w).
Proof.
  unfold sql. destruct (faults w) as [| [|] plan].
  - destruct (stmt w) as [[a1 w1] |] eqn:E; intro H; inversion H; subst.
    exists w. auto.
  - discriminate.
  - destruct (stmt (with_faults plan w)) as [[a1 w1] |] eqn:E;
      intro H; inversion H; subst.
    exists (with_faults plan w). eauto.
Qed.

End Frames.

Ltac frame :=
  repeat first
    [ apply Frames.keeps_ret; assumption
    | apply Frames.keeps_throw; assumption
    | apply Frames.keeps_unfinished; assumption
    | apply Frames.keeps_get_world; assumption
    | apply Frames.keeps_log_line; assumption
    | apply Frames.keeps_bind; [assumption | | intro]
    | apply Frames.keeps_try_catch; [assumption | | intro]
    | match goal with
      | |- Vocabulary.keeps _ (match ?x with _ => _ end) => destruct x
      | |- Vocabulary.keeps _ (if ?x then _ else _) => destruct x
      | |- Vocabulary.keeps _ (let _ := _ in _) => cbv zeta
      end ].

(** ** The audit trail *)

Module AuditFacts.
Import Core Http Audit Validation MessageController UserController Vocabulary.

(** C8.  The audit writer never throws: when its [INSERT] fails it leaves
    a line on the console, no audit row, and hands control back, so that
    whatever follows it in the caller runs as it would have.  For
    [deleteMessage] and for [updateUser] (on a payload without a username,
    so that two statements come before the audit write): whether the
    audit write fails or succeeds, the response and the tables are the
    same. *)
Theorem audit_failure_never_propagates (e : env)
    (userId action resourceType resourceId : string)
    (oldValues newValues : option snapshot) (ipAddress userAgent : option string)
    (w : world) :
  let write :=
    createAuditLog userId action resourceType resourceId
      oldValues newValues ipAddress userAgent in
  (exists w', write w = (Returned tt, w') /\ same_tables w w')
  /\ (forall plan, faults w = true :: plan ->
        write w
        = (Returned tt,
           with_console (console w ++ ["Failed to create audit log:"])
                        (with_faults plan w)))
  /\ (forall (A : Type) (k : unit -> M A) plan,
        faults w = true :: plan ->
        bind write k w
        = k tt (with_console (console w ++ ["Failed to create audit log:"])
                             (with_faults plan w)))
  /\ (forall req plan,
        let failing :=
          deleteMessage req (with_faults (false :: false :: true :: plan) w) in
        let working :=
          deleteMessage req (with_faults (false :: false :: false :: plan) w) in
        fst failing = fst working
        /\ same_tables (snd working) (snd failing))
  /\ (forall req plan,
        field "username" (body req) = None ->
        let failing :=
          updateUser e req (with_faults (false :: false :: true :: plan) w) in
        let working :=
          updateUser e req (with_faults (false :: false :: false :: plan) w) in
        fst failing = fst working
        /\ same_tables (snd working) (snd failing)).
Proof.
  intro write. unfold write, createAuditLog, insert_audit.
  split; [| split; [| split; [| split]]].
  - run. destruct (faults w) as [| [|] plan]; cbn;
      eexists; (split; [reflexivity | repeat split]).
  - intros plan Hf. run. rewrite Hf. reflexivity.
  - intros A k plan Hf. run. rewrite Hf. reflexivity.
  - intros req plan. unfold deleteMessage, select_message, delete_message,
      createAuditLog, insert_audit, the_user. run. cbn -[filter].
    destruct (filter _ (messages w)) as [| m rows]; cbn -[filter];
      [repeat split |].
    destruct (user req) as [u |]; cbn -[filter]; [| repeat split].
    destruct (negb _); cbn -[filter]; repeat split.
  - intros req plan Hn.
    unfold updateUser, select_user, update_user, createAuditLog,
      insert_audit, the_user.
    rewrite Hn. run. cbn -[filter update_rows user_updates is_uuid].
    destruct (is_uuid (param req)); cbn -[filter update_rows user_updates];
      [| repeat split].
    destruct (filter _ (users w)) as [| u rows];
      cbn -[filter update_rows user_updates]; [repeat split |].
    destruct (user req) as [p |]; cbn -[filter update_rows user_updates];
      [| repeat split].
    destruct (negb _); cbn -[filter update_rows user_updates];
      [repeat split |].
    destruct (List.length _ =? 0); cbn -[filter update_rows user_updates];
      [repeat split |].
    destruct (update_rows _ _ (users w)) as [[table returned] |];
      cbn -[filter update_rows user_updates]; [| repeat split].
    destruct returned; cbn; repeat split.
Qed.

(** An administrator deletes a message while the audit table is out of
    reach: the deletion is reported as done, the row is gone, no audit row
    exists and the console holds the complaint. *)
Lemma audit_failure_never_propagates_witness :
  let req := Sample.as_admin (Sample.with_param "m1" Sample.request0) in
  let w := with_faults [false; false; true] Sample.world0 in
  deleteMessage req w
  = (Returned (ok (Some "Message deleted successfully") NoData),
     with_console ["Failed to create audit log:"; "Message deleted"]
       (with_messages [] Sample.world0))
  /\ fst (deleteMessage req w)
     = fst (deleteMessage req
              (with_faults [false; false; false] Sample.world0)).
Proof.
  intros req w. split; [reflexivity |].
  destruct (audit_failure_never_propagates Sample.env0 "" "" "" "" None None
              None None Sample.world0) as (_ & _ & _ & H & _).
  exact (proj1 (H req [])).
Defined.

End AuditFacts.

(** ** Updating a user *)

Module UserFacts.
Import Core Http Frames Audit Validation MessageController Vocabulary.
Import UserController AuthMiddleware Routes.

(** One by one, the columns a [SET] names or passes over. *)
Ltac set_column_cases :=
  repeat match goal with
         | |- context [match (if ?c then ?a else ?b) with _ => _ end] =>
             destruct (if c then a else b); cbv beta iota; try discriminate
         end.

Lemma allowed_user_field_is_no_credential (col : string) :
  In col ALLOWED_USER_UPDATE_FIELDS ->
  col <> "id" /\ col <> "email" /\ col <> "password_hash".
Proof.
  intro H. simpl in H. repeat split; intro; subst; intuition discriminate.
Qed.

(** A [SET] of a column other than the three leaves them as they are; a
    [SET] of one of them does not. *)
Lemma set_user_column_credentials (e : env) (col : string) (v : cell)
    (u u' : user_row) :
  col <> "id" -> col <> "email" -> col <> "password_hash" ->
  set_user_column e col v u = Some u' -> credentials u' = credentials u.
Proof.
  intros H1 H2 H3. apply String.eqb_neq in H1, H2, H3.
  cbv beta zeta delta [set_user_column]. rewrite H1, H2, H3.
  destruct (negb _); [discriminate |]. cbv beta iota.
  set_column_cases.
  intro H; inversion H; reflexivity.
Qed.

(** The [UPDATE] itself reaches each of the three. *)
Lemma set_user_column_reaches_credentials (e : env) (s : string) (u : user_row) :
  option_map credentials (set_user_column e "id" (CText s) u)
  = Some (s, u_email u, u_password_hash u)
  /\ option_map credentials (set_user_column e "email" (CText s) u)
     = Some (u_id u, s, u_password_hash u)
  /\ option_map credentials (set_user_column e "password_hash" (CText s) u)
     = Some (u_id u, u_email u, s).
Proof. repeat split. Qed.

Lemma set_user_columns_credentials (e : env) (updates : list (string * cell)) :
  (forall col, In col (map fst updates) -> In col ALLOWED_USER_UPDATE_FIELDS) ->
  forall u u', set_user_columns e updates u = Some u' ->
               credentials u' = credentials u.
Proof.
  induction updates as [| [col v] rest IH]; simpl; intros Hk u u' H.
  - now inversion H.
  - destruct (set_user_column e col v u) as [u1 |] eqn:E; [| discriminate].
    rewrite (IH (fun c Hc => Hk c (or_intror Hc)) _ _ H).
    destruct (allowed_user_field_is_no_credential col (Hk col (or_introl eq_refl)))
      as (H1 & H2 & H3).
    eapply set_user_column_credentials; eauto.
Qed.

Lemma update_rows_credentials (sel : user_row -> bool)
    (set : user_row -> option user_row) :
  (forall u u', set u = Some u' -> credentials u' = credentials u) ->
  forall rows table returned,
    update_rows sel set rows = Some (table, returned) ->
    map credentials table = map credentials rows.
Proof.
  intros Hset. induction rows as [| r rows IH]; simpl; intros table returned H.
  - now inversion H.
  - destruct (update_rows sel set rows) as [[t' out] |]; [| discriminate].
    specialize (IH _ _ eq_refl).
    destruct (sel r).
    + destruct (set r) as [r' |] eqn:E; [| discriminate].
      inversion H; subst. simpl. rewrite IH. f_equal. now apply Hset.
    + inversion H; subst. simpl. now rewrite IH.
Qed.

Lemma keys_of_assign (allowed : list string) (col : string) (v : option json)
    (k : string) :
  In k (map fst (assign allowed col v)) -> k = col /\ In k allowed.
Proof.
  unfold assign. destruct v as [x |]; [| intros []].
  destruct (includes allowed col) eqn:E; [| intros []].
  simpl. intros [<- | []]. split; [reflexivity |].
  unfold includes in E. apply existsb_exists in E.
  destruct E as [y [Hy Heq]]. apply String.eqb_eq in Heq. now subst.
Qed.

Lemma keys_of_assign_one_of (allowed : list string) (col : string)
    (values : list string) (v : option json) (k : string) :
  In k (map fst (assign_one_of allowed col values v)) ->
  k = col /\ In k allowed.
Proof.
  unfold assign_one_of. destruct v as [x |]; [| intros []].
  destruct (includes allowed col) eqn:E; simpl; [| intros []].
  destruct (existsb _ values); [| intros []].
  simpl. intros [<- | []]. split; [reflexivity |].
  unfold includes in E. apply existsb_exists in E.
  destruct E as [y [Hy Heq]]. apply String.eqb_eq in Heq. now subst.
Qed.

(** The [SET] clause of [updateUser] names only columns of the user
    allow-list. *)
Lemma user_updates_allowed (isAdmin : bool) (b : list (string * json))
    (col : string) :
  In col (map fst (user_updates isAdmin b)) ->
  In col ALLOWED_USER_UPDATE_FIELDS.
Proof.
  intro Hin. unfold user_updates in Hin. rewrite !map_app, !in_app_iff in Hin.
  destruct isAdmin; [rewrite map_app, in_app_iff in Hin |];
    repeat match type of Hin with
           | _ \/ _ => destruct Hin as [Hin | Hin]
           end;
    try (apply keys_of_assign in Hin; tauto);
    try (apply keys_of_assign_one_of in Hin; tauto);
    destruct Hin.
Qed.

(** C10.  Whatever the payload and the caller's role, the [SET] clause of
    [updateUser] names only columns of the user allow-list, hence neither
    [email] nor [password_hash], and after the request (through the
    handler alone or through the whole route) every row of [users] has the
    identifier, email and password hash it had before: the [UPDATE] could
    set any of the three, and keeps them because the clause the handler
    hands it does not name them. *)
Theorem update_user_keeps_email_and_password_hash (e : env) (req : request)
    (w : world) :
  (forall isAdmin col,
     In col (map fst (user_updates isAdmin (body req))) ->
     In col ALLOWED_USER_UPDATE_FIELDS
     /\ col <> "email" /\ col <> "password_hash")
  /\ same_credentials w (snd (updateUser e req w))
  /\ same_credentials w (snd (put_user e req w)).
Proof.
  assert (Rrefl : forall w, same_credentials w w) by reflexivity.
  assert (Rtrans : forall w1 w2 w3, same_credentials w1 w2 ->
                     same_credentials w2 w3 -> same_credentials w1 w3).
  { unfold same_credentials. intros; congruence. }
  assert (Rfaults : forall plan w, same_credentials w (with_faults plan w))
    by reflexivity.
  assert (Rconsole : forall l w, same_credentials w (with_console l w))
    by reflexivity.
  assert (Hhandler : forall req, keeps same_credentials (updateUser e req)).
  { intro r. unfold updateUser, select_user, username_taken, update_user,
      createAuditLog, insert_audit, the_user.
    frame;
      try (apply keeps_sql; try assumption; intros ? ? ? Hs;
           repeat (match type of Hs with
                   | match ?x with _ => _ end = _ => destruct x eqn:?
                   end; cbv beta iota in Hs);
           inversion Hs; subst; try reflexivity).
    unfold same_credentials; simpl.
    eapply update_rows_credentials; [| eassumption].
    intros u1 u2 Hu. cbv beta in Hu.
    match type of Hu with
    | option_map _ ?c = _ => destruct c as [u3 |] eqn:E; [| discriminate]
    end.
    simpl in Hu. inversion Hu; subst.
    apply set_user_columns_credentials in E; [exact E |].
    intro col. apply user_updates_allowed. }
  split; [| split].
  - intros isAdmin col Hin. apply user_updates_allowed in Hin.
    split; [exact Hin |].
    now apply allowed_user_field_is_no_credential in Hin.
  - apply Hhandler.
  - unfold put_user.
    assert (Hauth : keeps same_credentials (authenticateToken e req)).
    { unfold authenticateToken, select_active_user, jwt_verify.
      frame; apply keeps_sql; try assumption;
        intros ? ? ? Hs; inversion Hs; subst; reflexivity. }
    apply keeps_bind; [assumption | exact Hauth |].
    intros [r | req1]; unfold and_then; [apply keeps_ret; assumption |].
    destruct (validateUUID req1) as [r | req2];
      [apply keeps_ret; assumption |].
    unfold whitelistUserFields. apply Hhandler.
Qed.

End UserFacts.

(** ** Role-gated fields *)

Module GatedFacts.
Import Core Http Frames Audit Validation MessageController Vocabulary.
Import UserController.

Lemma field_drop_other (k : string) (names : list string)
    (b : list (string * json)) :
  includes names k = false -> field k (drop_fields names b) = field k b.
Proof.
  intro Hk. induction b as [| [k' v] b IH]; [reflexivity |].
  simpl. destruct (includes names k') eqn:E; simpl.
  - destruct (k =? k')%string eqn:Ek; [| exact IH].
    apply String.eqb_eq in Ek. subst. congruence.
  - destruct (k =? k')%string; [reflexivity | exact IH].
Qed.

(** C6.  For a caller who is neither admin nor moderator, the gated
    fields of the payload do not count: [updateMessage] and [updateUser]
    do exactly what they do on the payload without them (same response,
    same world), and the generated update names none of the gated
    columns. *)
Theorem gated_fields_are_ignored (e : env) (req : request) (w : world)
    (p : principal) :
  user req = Some p ->
  p_role p <> "admin" ->
  p_role p <> "moderator" ->
  updateMessage e (with_body (drop_fields message_gated (body req)) req) w
  = updateMessage e req w
  /\ updateUser e (with_body (drop_fields user_gated (body req)) req) w
     = updateUser e req w
  /\ (forall existingMessage w0 updates w1,
        message_updates p (param req) existingMessage (body req) w0
        = (Returned updates, w1) ->
        forall col, In col (map fst updates) ->
          ~ In col ["is_featured"; "is_pinned"; "status"; "published_at"])
  /\ (forall col,
        In col (map fst (user_updates (p_role p =? "admin")%string (body req))) ->
        ~ In col ["role"; "status"]).
Proof.
  intros Hu Ha Hm.
  apply String.eqb_neq in Ha. apply String.eqb_neq in Hm.
  split; [| split; [| split]].
  - unfold updateMessage, message_updates, the_user.
    cbn [param body user ip user_agent with_body].
    rewrite Hu. run. rewrite Ha, Hm. cbn [orb].
    rewrite !(field_drop_other _ message_gated) by reflexivity.
    reflexivity.
  - unfold updateUser, user_updates, the_user.
    cbn [param body user ip user_agent with_body].
    rewrite Hu. run. rewrite Ha. cbn [orb].
    rewrite !(field_drop_other _ user_gated) by reflexivity.
    reflexivity.
  - intros ex w0 updates w1. unfold message_updates, slug_of_title.
    rewrite Ha, Hm. cbn [orb].
    replace (includes ALLOWED_MESSAGE_UPDATE_FIELDS "title") with true
      by reflexivity.
    run.
    assert (Hkeys : forall titled,
              (forall c, In c (map fst titled) -> c = "title" \/ c = "slug") ->
              forall col,
                In col (map fst
                  (titled
                   ++ assign ALLOWED_MESSAGE_UPDATE_FIELDS "content"
                        (field "content" (body req))
                   ++ assign ALLOWED_MESSAGE_UPDATE_FIELDS "excerpt"
                        (field "excerpt" (body req))
                   ++ assign ALLOWED_MESSAGE_UPDATE_FIELDS "category_id"
                        (field "categoryId" (body req)))) ->
                ~ In col ["is_featured"; "is_pinned"; "status"; "published_at"]).
    { intros titled Ht col Hin. rewrite !map_app, !in_app_iff in Hin.
      assert (Hc : col = "title" \/ col = "slug" \/ col = "content"
                   \/ col = "excerpt" \/ col = "category_id").
      { destruct Hin as [Hin | [Hin | [Hin | Hin]]].
        - destruct (Ht _ Hin); tauto.
        - apply UserFacts.keys_of_assign in Hin; tauto.
        - apply UserFacts.keys_of_assign in Hin; tauto.
        - apply UserFacts.keys_of_assign in Hin; tauto. }
      simpl. intuition (subst; discriminate). }
    destruct (field "title" (body req)) as [title |].
    + destruct (is_string (m_title ex) title).
      * intro H. inversion H; subst.
        apply (Hkeys [("title", CJson title)]). simpl. intuition.
      * destruct title; try discriminate.
        destruct (unique_slug (Some (param req)) (Slug.generateSlug s) w0)
          as [[finalSlug | x |] w2]; try discriminate.
        intro H. inversion H; subst.
        apply (Hkeys [("title", CJson (JStr s)); ("slug", CText finalSlug)]).
        simpl. intuition.
    + intro H. inversion H; subst. apply (Hkeys []). simpl. intuition.
  - intros col Hin. rewrite Ha in Hin. unfold user_updates in Hin.
    rewrite !map_app, !in_app_iff in Hin.
    assert (Hc : col = "first_name" \/ col = "last_name" \/ col = "username"
                 \/ col = "bio" \/ col = "avatar_url").
    { repeat match type of Hin with
             | _ \/ _ => destruct Hin as [Hin | Hin]
             end;
        try (apply UserFacts.keys_of_assign in Hin; tauto).
      destruct Hin. }
    simpl. intuition (subst; discriminate).
Qed.

End GatedFacts.

Module GatedWitness.
Import Core Http MessageController GatedFacts Vocabulary.

(** The author, an ordinary user, sends new content together with a
    status and a featured flag: the content is stored, the rest is not. *)
Lemma gated_fields_are_ignored_witness :
  let req :=
    Sample.as_alice
      (Sample.with_param "m1"
         (with_body [("content", JStr "Edited content, long enough");
                     ("status", JStr "deleted");
                     ("isFeatured", JBool true)] Sample.request0)) in
  updateMessage Sample.env0
    (with_body (drop_fields message_gated (body req)) req) Sample.world0
  = updateMessage Sample.env0 req Sample.world0
  /\ map (fun m => (m_content m, m_status m, m_is_featured m))
         (messages (snd (updateMessage Sample.env0 req Sample.world0)))
     = [("Edited content, long enough", "active", false)].
Proof.
  intro req. split; [| reflexivity].
  apply (gated_fields_are_ignored Sample.env0 req Sample.world0
           (principal_of Sample.alice)).
  - reflexivity.
  - discriminate.
  - discriminate.
Defined.

(** The same payload from an administrator is honoured. *)
Example gated_fields_are_honoured_for_admin :
  let req :=
    Sample.as_admin
      (Sample.with_param "m1"
         (with_body [("status", JStr "flagged"); ("isFeatured", JBool true)]
                    Sample.request0)) in
  map (fun m => (m_status m, m_is_featured m))
      (messages (snd (updateMessage Sample.env0 req Sample.world0)))
  = [("flagged", true)].
Proof. reflexivity. Qed.

End GatedWitness.

(** ** Slugs *)

Module SlugFacts.
Import Core Http Frames JsString JsStringFacts Slug Vocabulary.
Import Audit Validation MessageController.

Lemma squeeze_chars (p : ascii -> bool) (r : ascii) (l : list ascii) (c : ascii) :
  In c (squeeze p r l) -> c = r \/ (In c l /\ p c = false).
Proof.
  induction l as [| a t IH]; simpl; [tauto |].
  destruct (p a) eqn:Ha.
  - destruct t as [| b t'].
    + simpl. intuition.
    + destruct (p b) eqn:Hb.
      * intro H. destruct (IH H) as [-> | [Hin Hc]]; auto.
      * intros [<- | H]; [now left |].
        destruct (IH H) as [-> | [Hin Hc]]; auto.
  - intros [<- | H]; [right; auto |].
    destruct (IH H) as [-> | [Hin Hc]]; auto.
Qed.

Lemma squeeze_head (p : ascii -> bool) (r : ascii) (b : ascii) (t : list ascii) :
  p b = false -> exists t', squeeze p r (b :: t) = b :: t'.
Proof. intro Hb. simpl. rewrite Hb. eauto. Qed.

Lemma no_adjacent_cons (p : ascii -> bool) (a b : ascii) (t : list ascii) :
  no_adjacent p (a :: b :: t)
  = negb (p a && p b) && no_adjacent p (b :: t).
Proof. reflexivity. Qed.

Lemma squeeze_no_adjacent (p : ascii -> bool) (r : ascii) (l : list ascii) :
  no_adjacent p (squeeze p r l) = true.
Proof.
  induction l as [| a t IH]; [reflexivity |].
  cbn [squeeze]. destruct (p a) eqn:Ha.
  - destruct t as [| b t']; [reflexivity |].
    destruct (p b) eqn:Hb; [exact IH |].
    destruct (squeeze_head p r b t' Hb) as [t'' Ht]. rewrite Ht in *.
    rewrite no_adjacent_cons, Hb, andb_false_r. exact IH.
  - destruct (squeeze p r t) as [| b t'] eqn:Es; [reflexivity |].
    rewrite no_adjacent_cons, Ha. exact IH.
Qed.

Lemma drop_while_head (p : ascii -> bool) (l : list ascii) :
  (forall c, In c l -> p c = false) -> drop_while p l = l.
Proof.
  destruct l as [| c t]; [reflexivity |].
  intro H. simpl. now rewrite (H c (or_introl eq_refl)).
Qed.

Lemma trim_without_space (s : string) :
  (forall c, In c (chars s) -> is_space c = false) -> trim s = s.
Proof.
  intro H. unfold trim. rewrite (drop_while_head _ _ H).
  rewrite drop_while_head.
  - rewrite rev_involutive. apply of_chars_chars.
  - intros c Hc. apply H. now apply in_rev.
Qed.

Lemma final_char_no_space (c : ascii) : final_char c = true -> is_space c = false.
Proof.
  unfold final_char, is_lower, is_digit, is_hyphen, is_space, in_range.
  rewrite !orb_true_iff, !andb_true_iff, !Nat.leb_le, Nat.eqb_eq.
  rewrite !orb_false_iff, andb_false_iff, !Nat.eqb_neq, !Nat.leb_gt. lia.
Qed.

Lemma normalised_chars (title : string) (c : ascii) :
  In c (chars (normalised title)) -> final_char c = true.
Proof.
  unfold normalised, replace_runs, delete_class, toLowerCase.
  rewrite !chars_of_chars. intro H.
  apply squeeze_chars in H. destruct H as [-> | [H _]]; [reflexivity |].
  apply squeeze_chars in H. destruct H as [-> | [H Hs]]; [reflexivity |].
  apply filter_In in H. destruct H as [_ H].
  rewrite negb_involutive in H. revert H Hs.
  unfold slug_char, final_char, is_hyphen, is_space, in_range.
  rewrite !orb_true_iff, !orb_false_iff, !Nat.eqb_eq, !Nat.eqb_neq.
  intuition.
Qed.

Lemma generateSlug_normalised (title : string) :
  generateSlug title = normalised title.
Proof.
  unfold generateSlug. fold (normalised title).
  apply trim_without_space. intros c Hc.
  apply final_char_no_space. now apply normalised_chars in Hc.
Qed.

Lemma append_inj (s a b : string) : (s ++ a = s ++ b)%string -> a = b.
Proof. induction s as [| c s IH]; simpl; intro H; [exact H |]. inversion H; auto. Qed.

Lemma append_length_lt (s a : string) :
  a <> EmptyString -> (s ++ a)%string <> s.
Proof.
  intros Ha. induction s as [| c s IH]; simpl; [exact Ha |].
  intro H. inversion H. auto.
Qed.

Lemma candidate_inj (slug : string) (j k : nat) :
  candidate slug j = candidate slug k -> j = k.
Proof.
  unfold candidate, suffixed. destruct j as [| j], k as [| k]; intro H.
  - reflexivity.
  - symmetry in H. apply append_length_lt in H; [destruct H | discriminate].
  - apply append_length_lt in H; [destruct H | discriminate].
  - apply append_inj in H. inversion H. now apply of_nat_inj.
Qed.

Lemma taken_by_in (except : option string) (rows : list message_row) (s : string) :
  taken_by except rows s = true -> In s (map m_slug rows).
Proof.
  unfold taken_by. intro H. apply existsb_exists in H.
  destruct H as [m [Hin Hm]]. apply andb_true_iff in Hm.
  destruct Hm as [Hs _]. apply String.eqb_eq in Hs. subst.
  now apply in_map.
Qed.

Lemma taken_by_none (rows : list message_row) (s : string) :
  taken_by None rows s = false <-> ~ In s (map m_slug rows).
Proof.
  unfold taken_by. split.
  - intros H Hin. apply in_map_iff in Hin. destruct Hin as [m [Hs Hm]].
    assert (E : existsb (fun m => (m_slug m =? s)%string && true) rows = true).
    { apply existsb_exists. exists m. split; [exact Hm |].
      now rewrite Hs, String.eqb_refl. }
    congruence.
  - intro H. destruct (existsb _ rows) eqn:E; [| reflexivity].
    exfalso. apply H. now apply (taken_by_in None).
Qed.

(** What the loop has established when it stops, started at its [k]-th
    candidate with all earlier ones taken. *)
Lemma slug_loop_spec (except : option string) (slug : string) :
  forall fuel k w,
    (forall j, j < k ->
       taken_by except (messages w) (candidate slug j) = true) ->
    exists w',
      messages w' = messages w
      /\ (slug_loop fuel except slug (candidate slug k) (S k) w
          = (Thrown SqlError, w')
          \/ (exists k',
                slug_loop fuel except slug (candidate slug k) (S k) w
                = (Returned (candidate slug k'), w')
                /\ k <= k'
                /\ taken_by except (messages w) (candidate slug k') = false
                /\ forall j, j < k' ->
                     taken_by except (messages w) (candidate slug j) = true)
          \/ (slug_loop fuel except slug (candidate slug k) (S k) w
              = (Unfinished, w')
              /\ forall j, j < k + fuel ->
                   taken_by except (messages w) (candidate slug j) = true)).
Proof.
  induction fuel as [| fuel IH]; intros k w Hk.
  - exists w. split; [reflexivity |]. right. right.
    split; [reflexivity |]. intros j Hj. apply Hk. lia.
  - cbn [slug_loop]. unfold slug_taken. run.
    fold (taken_by except).
    assert (Hnext : forall w0,
              messages w0 = messages w ->
              taken_by except (messages w0) (candidate slug k) = true ->
              forall j, j < S k ->
                taken_by except (messages w0) (candidate slug j) = true).
    { intros w0 Hw0 Ht j Hj. destruct (Nat.eq_dec j k) as [-> | Hne];
        [exact Ht |]. rewrite Hw0. apply Hk. lia. }
    assert (Hstep : forall w0,
              messages w0 = messages w ->
              exists w',
                messages w' = messages w
                /\ let res :=
                     (if taken_by except (messages w0) (candidate slug k)
                      then slug_loop fuel except slug (suffixed slug (S k))
                             (S (S k))
                      else fun w1 => (Returned (candidate slug k), w1)) w0 in
                   (res = (Thrown SqlError, w')
                    \/ (exists k', res = (Returned (candidate slug k'), w')
                          /\ k <= k'
                          /\ taken_by except (messages w) (candidate slug k')
                             = false
                          /\ forall j, j < k' ->
                               taken_by except (messages w) (candidate slug j)
                               = true)
                    \/ (res = (Unfinished, w')
                        /\ forall j, j < k + S fuel ->
                             taken_by except (messages w) (candidate slug j)
                             = true))).
    { intros w0 Hw0.
      destruct (taken_by except (messages w0) (candidate slug k)) eqn:Ht.
      - destruct (IH (S k) w0 (Hnext w0 Hw0 Ht)) as (w' & Hm & Hres).
        exists w'. split; [congruence |]. cbv zeta.
        change (suffixed slug (S k)) with (candidate slug (S k)).
        rewrite Hw0 in Hres.
        destruct Hres as [H | [(k' & H & Hle & Hf & Hall) | [H Hall]]].
        + now left.
        + right. left. exists k'. repeat split; auto. lia.
        + right. right. split; [exact H |]. intros j Hj. apply Hall. lia.
      - exists w0. split; [exact Hw0 |]. cbv zeta. right. left.
        exists k. rewrite Hw0 in Ht. repeat split; auto. }
    destruct (faults w) as [| [|] plan] eqn:Hf; cbv beta iota.
    + apply (Hstep w eq_refl).
    + exists (with_faults plan w). split; [reflexivity |]. now left.
    + apply (Hstep (with_faults plan w) eq_refl).
Qed.

Lemma candidates_do_not_fit (except : option string) (slug : string)
    (rows : list message_row) :
  ~ (forall j, j < S (List.length rows) ->
       taken_by except rows (candidate slug j) = true).
Proof.
  intro H.
  set (cs := map (candidate slug) (seq 0 (S (List.length rows)))).
  assert (Hnd : NoDup cs).
  { apply Injective_map_NoDup; [| apply seq_NoDup].
    intros a b. apply candidate_inj. }
  assert (Hincl : incl cs (map m_slug rows)).
  { intros s Hs. apply in_map_iff in Hs. destruct Hs as [j [<- Hj]].
    apply in_seq in Hj. apply (taken_by_in except). apply H. lia. }
  pose proof (NoDup_incl_length Hnd Hincl) as Hlen.
  unfold cs in Hlen. rewrite !length_map, length_seq in Hlen. lia.
Qed.

(** The loop always comes to an end: it is lost to a failing statement,
    or it returns the first candidate that no row holds. *)
Lemma unique_slug_spec (except : option string) (slug : string) (w : world) :
  exists w',
    messages w' = messages w
    /\ (unique_slug except slug w = (Thrown SqlError, w')
        \/ exists k,
             unique_slug except slug w = (Returned (candidate slug k), w')
             /\ taken_by except (messages w) (candidate slug k) = false
             /\ forall j, j < k ->
                  taken_by except (messages w) (candidate slug j) = true).
Proof.
  unfold unique_slug. run.
  destruct (slug_loop_spec except slug (S (List.length (messages w))) 0 w)
    as (w' & Hm & Hres).
  { intros j Hj. lia. }
  change (candidate slug 0) with slug in Hres.
  exists w'. split; [exact Hm |].
  destruct Hres as [H | [(k' & H & _ & Hf & Hall) | [_ Hall]]].
  - now left.
  - right. now exists k'.
  - exfalso. apply (candidates_do_not_fit except slug (messages w)).
    intros j Hj. apply Hall. lia.
Qed.

Lemma same_messages_laws :
  (forall w, same_messages w w)
  /\ (forall w1 w2 w3, same_messages w1 w2 -> same_messages w2 w3 ->
                       same_messages w1 w3)
  /\ (forall plan w, same_messages w (with_faults plan w))
  /\ (forall l w, same_messages w (with_console l w)).
Proof. unfold same_messages. repeat split; intros; congruence. Qed.

Lemma insert_tags_keeps_messages (e : env) (id : string) (tags : list json) :
  keeps same_messages (insert_tags e id tags).
Proof.
  destruct same_messages_laws as (Rrefl & Rtrans & Rfaults & Rconsole).
  induction tags as [| t tags IH]; cbn [insert_tags].
  - apply keeps_ret; assumption.
  - apply keeps_bind; [assumption | | intros _; exact IH].
    destruct (is_uuid (to_string e t)); [| apply keeps_log_line; assumption].
    unfold insert_tag. apply keeps_sql; try assumption.
    intros w a w' H. destruct (pg_text e t); [| discriminate].
    inversion H; subst. destruct (has_tag _ _ _); reflexivity.
Qed.

Lemma createAuditLog_keeps_messages (userId action resourceType resourceId : string)
    (oldValues newValues : option snapshot) (ipAddress userAgent : option string) :
  keeps same_messages
    (createAuditLog userId action resourceType resourceId oldValues newValues
       ipAddress userAgent).
Proof.
  destruct same_messages_laws as (Rrefl & Rtrans & Rfaults & Rconsole).
  unfold createAuditLog, insert_audit.
  apply keeps_try_catch; [assumption | | intro; apply keeps_log_line; assumption].
  apply keeps_sql; try assumption.
  intros w a w' H. inversion H; subst. reflexivity.
Qed.

(** A create that is answered 201 has appended one row, whose slug is the
    first candidate that no row held. *)
Lemma createMessage_created (e : env) (req : request) (w w' : world)
    (r : response) :
  createMessage e req w = (Returned r, w') ->
  status r = 201 ->
  exists title row k,
    field "title" (body req) = Some (JStr title)
    /\ messages w' = messages w ++ [row]
    /\ m_slug row = candidate (generateSlug title) k
    /\ taken_by None (messages w) (candidate (generateSlug title) k) = false
    /\ (forall j, j < k ->
          taken_by None (messages w) (candidate (generateSlug title) j) = true)
    /\ data r = MessageData (view_of row).
Proof.
  destruct same_messages_laws as (Rrefl & Rtrans & Rfaults & Rconsole).
  unfold createMessage. intros H Hs.
  apply try_catch_returned in H.
  destruct H as [H | (x & w1 & _ & H)].
  2: { revert H. run. intro H. inversion H; subst. discriminate. }
  apply bind_returned in H. destruct H as (slug & w1 & Hslug & H).
  unfold slug_of_title in Hslug.
  destruct (field "title" (body req)) as [[| | | title | |] |] eqn:Ht;
    try discriminate.
  inversion Hslug; subst; clear Hslug.
  apply bind_returned in H. destruct H as (finalSlug & w2 & Hloop & H).
  destruct (unique_slug_spec None (generateSlug title) w1)
    as (w2' & Hm2 & [Hthrown | (k & Hret & Hfree & Hall)]);
    [congruence |].
  rewrite Hret in Hloop. inversion Hloop; subst; clear Hloop.
  apply bind_returned in H. destruct H as (u & w3 & Huser & H).
  unfold the_user in Huser. destruct (user req) as [p |]; [| discriminate].
  inversion Huser; subst; clear Huser.
  apply bind_returned in H. destruct H as (message & w4 & Hins & H).
  unfold insert_message in Hins. apply sql_returned in Hins.
  destruct Hins as (w0 & Hstmt & Hw0).
  assert (Hm0 : messages w0 = messages w1).
  { destruct Hw0 as [-> | [plan ->]]; [exact Hm2 | exact Hm2]. }
  repeat match type of Hstmt with
         | match ?c with _ => _ end = _ => destruct c; try discriminate
         end.
  inversion Hstmt; subst; clear Hstmt.
  match goal with
  | H : bind _ _ (with_messages (_ ++ [?row]) _) = _ |- _ =>
      exists title, row, k
  end.
  split; [reflexivity |].
  assert (Hrest : forall (rest : M response) wa wb ra,
            keeps same_messages rest -> rest wa = (ra, wb) ->
            messages wb = messages wa).
  { intros rest wa wb ra Hk Hr. specialize (Hk wa). now rewrite Hr in Hk. }
  split.
  { etransitivity; [eapply (Hrest _ _ _ _ _ H) |].
    cbn [messages with_messages]. now rewrite Hm0. }
  split; [reflexivity |]. split; [exact Hfree |]. split; [exact Hall |].
  apply bind_returned in H. destruct H as (? & w5 & _ & H).
  apply bind_returned in H. destruct H as (? & w6 & _ & H).
  apply bind_returned in H. destruct H as (? & w7 & _ & H).
  inversion H; subst. reflexivity.
  Unshelve.
  apply keeps_bind; [assumption | | intros _].
  { destruct (field "tags" (body req)) as [[| | | | [| t ts] |] |];
      try (apply keeps_ret; assumption).
    apply insert_tags_keeps_messages. }
  apply keeps_bind; [assumption | apply createAuditLog_keeps_messages |].
  intros _. apply keeps_bind; [assumption | apply keeps_log_line; assumption |].
  intros _. apply keeps_ret; assumption.
Qed.

Lemma first_free_is (rows : list message_row) (s : string) (k k' : nat) :
  taken_by None rows (candidate s k) = false ->
  (forall j, j < k -> taken_by None rows (candidate s j) = true) ->
  ~ In (candidate s k') (map m_slug rows) ->
  (forall j, j < k' -> In (candidate s j) (map m_slug rows)) ->
  k = k'.
Proof.
  intros Hfree Hall Hfree' Hall'.
  destruct (lt_eq_lt_dec k k') as [[Hlt | Heq] | Hgt]; [| exact Heq |].
  - apply taken_by_none in Hfree. destruct (Hfree (Hall' _ Hlt)).
  - apply Hall in Hgt. apply taken_by_in in Hgt. destruct (Hfree' Hgt).
Qed.

(** C5, as the code has it.  The slug of a title is the title in lower
    case, without the characters outside [[a-z0-9 -]], with every run of
    spaces turned into one hyphen and every run of hyphens into one (the
    final [trim] changes nothing).  The loop that makes it unique always
    ends, and a create that succeeds stores the first of slug, slug-1,
    slug-2, ... that no row holds.  So three creates whose titles share a
    slug store slug, slug-1 and slug-2 when no row held any of the three
    before. *)
Theorem slug_normalised_then_first_free (e : env) :
  (forall title,
     generateSlug title = normalised title
     /\ (forall c, In c (chars (generateSlug title)) -> final_char c = true)
     /\ no_adjacent is_hyphen (chars (generateSlug title)) = true)
  /\ (forall except slug w,
        exists w',
          messages w' = messages w
          /\ (unique_slug except slug w = (Thrown SqlError, w')
              \/ exists k,
                   unique_slug except slug w = (Returned (candidate slug k), w')
                   /\ taken_by except (messages w) (candidate slug k) = false
                   /\ forall j, j < k ->
                        taken_by except (messages w) (candidate slug j) = true))
  /\ (forall req w w' r,
        createMessage e req w = (Returned r, w') ->
        status r = 201 ->
        exists title row k,
          field "title" (body req) = Some (JStr title)
          /\ messages w' = messages w ++ [row]
          /\ m_slug row = candidate (generateSlug title) k
          /\ ~ In (m_slug row) (map m_slug (messages w))
          /\ forall j, j < k ->
               In (candidate (generateSlug title) j) (map m_slug (messages w)))
  /\ (forall req1 req2 req3 w0 w1 w2 w3 r1 r2 r3 t1 t2 t3 s,
        field "title" (body req1) = Some (JStr t1) ->
        field "title" (body req2) = Some (JStr t2) ->
        field "title" (body req3) = Some (JStr t3) ->
        generateSlug t1 = s -> generateSlug t2 = s -> generateSlug t3 = s ->
        (forall k, k <= 2 -> ~ In (candidate s k) (map m_slug (messages w0))) ->
        createMessage e req1 w0 = (Returned r1, w1) -> status r1 = 201 ->
        createMessage e req2 w1 = (Returned r2, w2) -> status r2 = 201 ->
        createMessage e req3 w2 = (Returned r3, w3) -> status r3 = 201 ->
        map m_slug (messages w3)
        = map m_slug (messages w0) ++ [s; suffixed s 1; suffixed s 2]).
Proof.
  split; [| split; [| split]].
  - intro title. split; [apply generateSlug_normalised |]. split.
    + intros c Hc. rewrite generateSlug_normalised in Hc.
      now apply normalised_chars in Hc.
    + rewrite generateSlug_normalised. unfold normalised at 1.
      unfold replace_runs at 1. rewrite chars_of_chars.
      apply squeeze_no_adjacent.
  - apply unique_slug_spec.
  - intros req w w' r H Hs.
    destruct (createMessage_created e req w w' r H Hs)
      as (title & row & k & Ht & Hm & Hslug & Hfree & Hall & _).
    exists title, row, k. repeat split; auto.
    + rewrite Hslug. now apply taken_by_none.
    + intros j Hj. apply (taken_by_in None). now apply Hall.
  - intros req1 req2 req3 w0 w1 w2 w3 r1 r2 r3 t1 t2 t3 s
      Ht1 Ht2 Ht3 Hs1 Hs2 Hs3 Hfresh H1 S1 H2 S2 H3 S3.
    destruct (createMessage_created e req1 w0 w1 r1 H1 S1)
      as (t1' & row1 & k1 & Ht1' & Hm1 & Hslug1 & Hfree1 & Hall1 & _).
    destruct (createMessage_created e req2 w1 w2 r2 H2 S2)
      as (t2' & row2 & k2 & Ht2' & Hm2 & Hslug2 & Hfree2 & Hall2 & _).
    destruct (createMessage_created e req3 w2 w3 r3 H3 S3)
      as (t3' & row3 & k3 & Ht3' & Hm3 & Hslug3 & Hfree3 & Hall3 & _).
    assert (t1' = t1) by congruence. assert (t2' = t2) by congruence.
    assert (t3' = t3) by congruence. subst t1' t2' t3'.
    rewrite Hs1 in *. rewrite Hs2 in *. rewrite Hs3 in *.
    assert (Hne : forall j k, j <> k -> candidate s j <> candidate s k).
    { intros j k Hjk Heq. apply Hjk. now apply candidate_inj in Heq. }
    assert (K1 : k1 = 0).
    { apply (first_free_is (messages w0) s k1 0 Hfree1 Hall1).
      - apply Hfresh. lia.
      - intros j Hj. lia. }
    subst k1. cbn [candidate] in Hslug1.
    assert (E1 : map m_slug (messages w1) = map m_slug (messages w0) ++ [s]).
    { rewrite Hm1, map_app. cbn [map]. now rewrite Hslug1. }
    assert (K2 : k2 = 1).
    { apply (first_free_is (messages w1) s k2 1 Hfree2 Hall2).
      - rewrite E1, in_app_iff. cbn [In]. intros [Hin | [Heq | []]].
        + apply (Hfresh 1); [lia | exact Hin].
        + apply (Hne 0 1); [lia | exact Heq].
      - intros j Hj. assert (j = 0) by lia. subst j.
        rewrite E1, in_app_iff. right. now left. }
    subst k2. cbn [candidate] in Hslug2.
    assert (E2 : map m_slug (messages w2)
                 = map m_slug (messages w0) ++ [s; suffixed s 1]).
    { rewrite Hm2, map_app, E1. cbn [map]. rewrite Hslug2.
      now rewrite <- app_assoc. }
    assert (K3 : k3 = 2).
    { apply (first_free_is (messages w2) s k3 2 Hfree3 Hall3).
      - rewrite E2, in_app_iff. cbn [In].
        intros [Hin | [Heq | [Heq | []]]].
        + apply (Hfresh 2); [lia | exact Hin].
        + apply (Hne 0 2); [lia | exact Heq].
        + apply (Hne 1 2); [lia | exact Heq].
      - intros j Hj. rewrite E2, in_app_iff. right.
        assert (Hj' : j = 0 \/ j = 1) by lia.
        destruct Hj' as [-> | ->]; cbn [In candidate]; auto. }
    subst k3. cbn [candidate] in Hslug3.
    rewrite Hm3, map_app, E2. cbn [map]. rewrite Hslug3.
    now rewrite <- app_assoc.
Qed.

End SlugFacts.

Module SlugWitness.
Import Core Http JsString Slug MessageController SlugFacts Vocabulary.

(** Three titles with the slug [release-notes], on a table without it. *)
Lemma slug_normalised_then_first_free_witness :
  let w0 := Sample.world0 in
  let w1 := snd (createMessage Sample.env0 (Sample.titled "Release notes") w0) in
  let w2 := snd (createMessage Sample.env0 (Sample.titled "Release   Notes!") w1) in
  let w3 := snd (createMessage Sample.env0 (Sample.titled "release-notes") w2) in
  map m_slug (messages w3)
  = map m_slug (messages w0)
    ++ ["release-notes"; "release-notes-1"; "release-notes-2"].
Proof.
  intros w0 w1 w2 w3.
  destruct (slug_normalised_then_first_free Sample.env0) as (_ & _ & _ & H).
  apply (H (Sample.titled "Release notes") (Sample.titled "Release   Notes!")
           (Sample.titled "release-notes") w0 w1 w2 w3
           (Sample.fst_returned (createMessage Sample.env0 (Sample.titled "Release notes") w0))
           (Sample.fst_returned (createMessage Sample.env0 (Sample.titled "Release   Notes!") w1))
           (Sample.fst_returned (createMessage Sample.env0 (Sample.titled "release-notes") w2))
           "Release notes" "Release   Notes!" "release-notes" "release-notes");
    try reflexivity.
  intros k Hk. assert (Hc : k = 0 \/ k = 1 \/ k = 2) by lia.
  destruct Hc as [-> | [-> | ->]]; vm_compute;
    intros [Heq | []]; discriminate.
Defined.

(** With a row [hello-1] already there (its title is [Hello 1]), the
    second of two creates titled [Hello] gets [hello-2], not [hello-1]. *)
Lemma second_create_can_get_suffix_2 :
  let w1 := snd (createMessage Sample.env0 (Sample.titled "Hello") Sample.world0) in
  let w2 := snd (createMessage Sample.env0 (Sample.titled "Hello") w1) in
  generateSlug "Hello" = "hello"
  /\ generateSlug "Hello 1" = "hello-1"
  /\ map (fun m => (m_title m, m_slug m)) (messages Sample.world0)
     = [("Hello 1", "hello-1")]
  /\ map (fun m => (m_title m, m_slug m)) (messages w2)
     = [("Hello 1", "hello-1"); ("Hello", "hello"); ("Hello", "hello-2")]
  /\ option_map status
       (match fst (createMessage Sample.env0 (Sample.titled "Hello") w1) with
        | Returned r => Some r
        | _ => None
        end) = Some 201.
Proof. vm_compute. repeat split. Qed.

End SlugWitness.

Module UserWitness.
Import Core Http UserController Routes UserFacts Vocabulary.

(** Alice renames herself and tries to set an email and a password hash
    on the way: the name changes, the credentials do not. *)
Lemma update_user_keeps_email_and_password_hash_witness :
  let req :=
    {| authorization := Some ("Bearer " ++ Sample.alice_token)%string;
       query := [];
       body := [("username", JStr "alice2"); ("email", JStr "eve@example.org");
                ("password_hash", JStr "forged")];
       param := Sample.alice_id; user := None; ip := None;
       user_agent := None |} in
  let w' := snd (put_user Sample.env0 req Sample.world0) in
  map u_username (users w') = ["alice2"; "ada"]
  /\ map credentials (users w') = map credentials (users Sample.world0).
Proof.
  intros req w'. split; [reflexivity |].
  exact (proj2 (proj2 (update_user_keeps_email_and_password_hash
                         Sample.env0 req Sample.world0))).
Defined.

End UserWitness.

(** * Further properties *)

(** ** Running a handler to its answer *)

Module Wp.
Import Core Http Logic.

Lemma with_faults_same (w : world) : with_faults (faults w) w = w.
Proof. now destruct w. Qed.

Lemma spec_ret {A} (a : A) (w : world) Q E : Q a w -> spec (ret a) w Q E.
Proof. exact (fun H => H). Qed.

Lemma spec_throw {A} (x : exn) (w : world) (Q : A -> world -> Prop) E :
  E x w -> spec (throw x) w Q E.
Proof. exact (fun H => H). Qed.

Lemma spec_get_world (w : world) Q E : Q w w -> spec get_world w Q E.
Proof. exact (fun H => H). Qed.

Lemma spec_log_line (line : string) (w : world) Q E :
  Q tt (with_console (console w ++ [line]) w) -> spec (log_line line) w Q E.
Proof. exact (fun H => H). Qed.

Lemma spec_bind {A B} (c : M A) (k : A -> M B) (w : world) Q E :
  spec c w (fun a w1 => spec (k a) w1 Q E) E -> spec (bind c k) w Q E.
Proof.
  unfold spec, bind. destruct (c w) as [[a | x |] w1]; auto.
Qed.

Lemma spec_try_catch {A} (c : M A) (h : exn -> M A) (w : world) Q E :
  spec c w Q (fun x w1 => spec (h x) w1 Q E) -> spec (try_catch c h) w Q E.
Proof.
  unfold spec, try_catch. destruct (c w) as [[a | x |] w1]; auto.
Qed.

(** A statement is run under the rest of some fault plan, or lost. *)
Lemma spec_sql {A} (stmt : world -> option (A * world)) (w : world) Q E :
  (forall plan,
     E SqlError (with_faults plan w)
     /\ match stmt (with_faults plan w) with
        | Some (a, w') => Q a w'
        | None => True
        end) ->
  spec (sql stmt) w Q E.
Proof.
  intro H. unfold spec, sql. destruct (faults w) as [| [|] plan] eqn:Hf.
  - specialize (H (faults w)). rewrite with_faults_same in H.
    destruct H as [He Hq]. destruct (stmt w) as [[a w'] |]; assumption.
  - apply H.
  - destruct (H plan) as [He Hq].
    destruct (stmt (with_faults plan w)) as [[a w'] |]; assumption.
Qed.

Lemma spec_mono {A} (c : M A) (w : world) (Q Q' : A -> world -> Prop)
    (E E' : exn -> world -> Prop) :
  spec c w Q E ->
  (forall a w', Q a w' -> Q' a w') ->
  (forall x w', E x w' -> E' x w') ->
  spec c w Q' E'.
Proof.
  unfold spec. destruct (c w) as [[a | x |] w1]; auto.
Qed.

(** A computation that lets no error out returns. *)
Lemma spec_caught {A} (c : M A) (w : world) Q :
  spec c w Q caught -> exists a w', c w = (Returned a, w') /\ Q a w'.
Proof.
  unfold spec, caught. destruct (c w) as [[a | x |] w1]; try tauto. eauto.
Qed.

(** A known run, used where its start is the goal's up to computation. *)
Lemma spec_from {A} (c : M A) (w : world) (Q Q' : A -> world -> Prop) E :
  spec c w Q caught -> (forall a w', Q a w' -> Q' a w') -> spec c w Q' E.
Proof.
  intros H HQ. eapply spec_mono; [exact H | exact HQ | intros ? ? []].
Qed.

Lemma spec_returned {A} (c : M A) (w w' : world) (a : A) Q E :
  spec c w Q E -> c w = (Returned a, w') -> Q a w'.
Proof. unfold spec. intros H Hc. now rewrite Hc in H. Qed.

End Wp.

Ltac innermost x :=
  lazymatch x with
  | match ?y with _ => _ end => innermost y
  | _ => x
  end.

Ltac wp_case x :=
  let y := innermost x in
  first [ is_var y; destruct y eqn:?
        | progress cbv beta iota
        | destruct y eqn:? ].

Ltac wp_step :=
  match goal with
  | |- Logic.spec (Core.bind _ _) _ _ _ => apply Wp.spec_bind
  | |- Logic.spec (Core.try_catch _ _) _ _ _ => apply Wp.spec_try_catch
  | |- Logic.spec (Core.ret _) _ _ _ => apply Wp.spec_ret
  | |- Logic.spec (Core.throw _) _ _ _ => apply Wp.spec_throw
  | |- Logic.spec (Core.log_line _) _ _ _ => apply Wp.spec_log_line
  | |- Logic.spec Core.get_world _ _ _ => apply Wp.spec_get_world
  | |- Logic.spec (Core.sql _) _ _ _ => apply Wp.spec_sql; intro; split
  | |- Logic.spec (match ?x with _ => _ end) _ _ _ => wp_case x
  | |- Logic.spec (let _ := _ in _) _ _ _ => cbv zeta
  | |- Logic.spec ((fun _ => _) _) _ _ _ => cbv beta
  | |- (fun _ => _) _ _ => cbv beta
  | |- match Some _ with _ => _ end => cbv beta iota
  | |- match None with _ => _ end => exact I
  | |- True => exact I
  | |- match (fun _ => _) _ with _ => _ end => cbv beta
  | |- match (match ?x with _ => _ end) with _ => _ end => wp_case x
  end.

Ltac wp := repeat wp_step.

(** ** The authorization middleware, further *)

Module MiddlewareFacts.
Import Core Http Logic AuthMiddleware Vocabulary.

Lemma filter_head {A} (f : A -> bool) (l t : list A) (x : A) :
  filter f l = x :: t -> In x l /\ f x = true.
Proof.
  intro H. apply filter_In. rewrite H. now left.
Qed.

(** X1.  [optionalAuth] is [authenticateToken] with every refusal turned into
    a pass of the request as it came: the two leave the same world, and
    the optional one attaches a principal exactly when the strict one
    lets the request through. *)
Theorem optionalAuth_mirrors_authenticateToken (e : env) (req : request)
    (w : world) :
  optionalAuth e req w
  = (Returned
       (Next match fst (authenticateToken e req w) with
             | Returned (Next req') => req'
             | _ => req
             end),
     snd (authenticateToken e req w)).
Proof.
  unfold optionalAuth, authenticateToken, select_active_user.
  destruct (bearer_token (authorization req)) as [token |]; run;
    [| reflexivity].
  destruct (verify_access e token) as [userId | |]; run; try reflexivity.
  destruct (faults w) as [| [|] plan]; cbn -[filter]; try reflexivity;
    destruct (filter _ (users w)) as [| u rows]; reflexivity.
Qed.

(** X2.  The strict middleware always answers or passes, never throws, and
    leaves every table alone.  When it passes, the header carried a token,
    the token verified to the identifier of a row of [users] whose status
    is [active], and that row is what the request now carries; when it
    answers, the answer is a 401 or a 403. *)
Theorem authenticateToken_attaches_active_user (e : env) (req : request)
    (w : world) :
  exists s w',
    authenticateToken e req w = (Returned s, w')
    /\ same_tables w w'
    /\ match s with
       | Next req' =>
           exists token u,
             bearer_token (authorization req) = Some token
             /\ verify_access e token = Verified (u_id u)
             /\ In u (users w)
             /\ u_status u = "active"
             /\ req' = with_user (Some (principal_of u)) req
       | Answer r =>
           (status r = 401 \/ status r = 403) /\ success r = false
           /\ data r = NoData
       end.
Proof.
  apply Wp.spec_caught.
  unfold authenticateToken, select_active_user, jwt_verify.
  wp; cbn [with_faults with_console users] in *;
    try (split; [repeat split | cbn; auto]).
  exists s, u. apply filter_head in Heql. destruct Heql as [Hin Hc].
  apply andb_true_iff in Hc. destruct Hc as [Hid Hst].
  apply String.eqb_eq in Hid, Hst. subst userId. auto.
Qed.

End MiddlewareFacts.

(** ** The whitelists *)

Module WhitelistFacts.
Import Core Http Logic Validation MessageController UserController.
Import Audit AuthMiddleware Routes UserFacts.

Lemma field_app (k : string) (a b : list (string * json)) :
  field k (a ++ b)
  = match field k a with Some v => Some v | None => field k b end.
Proof.
  induction a as [| [k' v] a IH]; simpl; [reflexivity |].
  now destruct (k =? k')%string.
Qed.

Lemma field_pick (allowed : list string) (b : list (string * json)) (k : string) :
  field k (pick allowed b) = if includes allowed k then field k b else None.
Proof.
  induction allowed as [| f rest IH]; simpl; [reflexivity |].
  destruct (field f b) as [v |] eqn:Hf; simpl.
  - destruct (k =? f)%string eqn:Hk; simpl; [| exact IH].
    apply String.eqb_eq in Hk. subst. now rewrite Hf.
  - rewrite IH. destruct (k =? f)%string eqn:Hk; simpl; [| reflexivity].
    apply String.eqb_eq in Hk. subst. rewrite Hf.
    now destruct (includes rest f).
Qed.

(** X3.  The two whitelisting middlewares always pass the request on, with a
    body that answers every field name of their list as the body that
    came (the message one also answers [tags]) and no other name; the
    rest of the request is as it came. *)
Theorem whitelist_keeps_exactly_the_listed_fields (req : request) :
  (exists req',
     whitelistUserFields req = Next req'
     /\ (forall k, field k (body req')
                   = if includes ALLOWED_USER_UPDATE_FIELDS k
                     then field k (body req) else None)
     /\ with_body (body req) req' = req)
  /\ (exists req',
        whitelistMessageFields req = Next req'
        /\ (forall k, field k (body req')
                      = if includes ALLOWED_MESSAGE_UPDATE_FIELDS k
                           || (k =? "tags")%string
                        then field k (body req) else None)
        /\ with_body (body req) req' = req).
Proof.
  split; eexists; (split; [reflexivity |]); (split; [| now destruct req]);
    intro k; cbn [body with_body].
  - apply field_pick.
  - rewrite field_app, field_pick.
    destruct (includes ALLOWED_MESSAGE_UPDATE_FIELDS k) eqn:Hk.
    + cbn [orb]. destruct (field k (body req)) as [v |] eqn:Hv; [reflexivity |].
      assert (Hne : (k =? "tags")%string = false).
      { destruct (k =? "tags")%string eqn:E; [| reflexivity].
        apply String.eqb_eq in E. subst. discriminate. }
      destruct (field "tags" (body req)); simpl; now rewrite ?Hne.
    + cbn [orb]. destruct (k =? "tags")%string eqn:E.
      * apply String.eqb_eq in E. subst.
        now destruct (field "tags" (body req)).
      * destruct (field "tags" (body req)); simpl; now rewrite ?E.
Qed.

Lemma update_rows_map {R B} (f : R -> B) (sel : R -> bool) (set : R -> option R) :
  (forall r r', set r = Some r' -> f r' = f r) ->
  forall rows table returned,
    update_rows sel set rows = Some (table, returned) ->
    map f table = map f rows.
Proof.
  intros Hset. induction rows as [| r rows IH]; simpl; intros table returned H.
  - now inversion H.
  - destruct (update_rows sel set rows) as [[t' out] |]; [| discriminate].
    specialize (IH _ _ eq_refl).
    destruct (sel r).
    + destruct (set r) as [r' |] eqn:E; [| discriminate].
      inversion H; subst. simpl. rewrite IH. f_equal. now apply Hset.
    + inversion H; subst. simpl. now rewrite IH.
Qed.

Lemma set_user_column_names (e : env) (col : string) (v : cell) (u u' : user_row) :
  set_user_column e col v u = Some u' ->
  col <> "id" ->
  col <> "first_name" -> col <> "last_name" -> col <> "avatar_url" ->
  names u' = names u.
Proof.
  intros H H0 H1 H2 H3. revert H.
  apply String.eqb_neq in H0, H1, H2, H3.
  cbv beta zeta delta [set_user_column]. rewrite H0, H1, H2, H3.
  destruct (negb _); [discriminate |]. cbv beta iota.
  set_column_cases.
  intro H; inversion H; reflexivity.
Qed.

Lemma set_user_columns_names (e : env) (updates : list (string * cell)) :
  (forall col, In col (map fst updates) ->
     col <> "id"
     /\ col <> "first_name" /\ col <> "last_name" /\ col <> "avatar_url") ->
  forall u u', set_user_columns e updates u = Some u' -> names u' = names u.
Proof.
  induction updates as [| [col v] rest IH]; simpl; intros Hk u u' H.
  - now inversion H.
  - destruct (set_user_column e col v u) as [u1 |] eqn:E; [| discriminate].
    rewrite (IH (fun c Hc => Hk c (or_intror Hc)) _ _ H).
    destruct (Hk col (or_introl eq_refl)) as (H0 & H1 & H2 & H3).
    eapply set_user_column_names; eauto.
Qed.

Lemma user_updates_without_names (isAdmin : bool) (b : list (string * json)) :
  field "firstName" b = None -> field "lastName" b = None ->
  field "avatarUrl" b = None ->
  forall col, In col (map fst (user_updates isAdmin b)) ->
    col <> "id"
    /\ col <> "first_name" /\ col <> "last_name" /\ col <> "avatar_url".
Proof.
  intros H1 H2 H3 col Hin. unfold user_updates in Hin.
  rewrite H1, H2, H3 in Hin. cbn [assign app] in Hin.
  rewrite !map_app, !in_app_iff in Hin.
  assert (Hc : col = "username" \/ col = "bio" \/ col = "role" \/ col = "status").
  { destruct isAdmin; [rewrite map_app, in_app_iff in Hin |];
      repeat match type of Hin with
             | _ \/ _ => destruct Hin as [Hin | Hin]
             end;
      try (apply keys_of_assign in Hin; tauto);
      try (apply keys_of_assign_one_of in Hin; tauto);
      destruct Hin. }
  repeat split; intro; subst; intuition discriminate.
Qed.

Lemma updateUser_keeps_names (e : env) (req : request) (w : world) :
  field "firstName" (body req) = None -> field "lastName" (body req) = None ->
  field "avatarUrl" (body req) = None ->
  spec (updateUser e req) w
    (fun _ w' => map names (users w') = map names (users w)) caught.
Proof.
  intros H1 H2 H3.
  unfold updateUser, select_user, username_taken, update_user, the_user,
    createAuditLog, insert_audit.
  wp; cbn [users with_faults with_console with_users with_audit_logs] in *;
    try reflexivity.
  all: eapply update_rows_map; [| eassumption].
  all: intros r r' Hr; cbv beta in Hr.
  all: match type of Hr with
       | option_map _ ?c = _ => destruct c as [u3 |] eqn:E; [| discriminate]
       end.
  all: simpl in Hr; inversion Hr; subst.
  all: eapply (set_user_columns_names e) in E; [exact E |].
  all: now apply user_updates_without_names.
Qed.

(** X4.  Through [PUT /users/:id] nobody's first name, last name or avatar
    ever changes: the whitelist in front of the handler lists the columns
    [first_name], [last_name] and [avatar_url], the handler reads
    [firstName], [lastName] and [avatarUrl], and no payload carries a
    field through both. *)
Theorem put_user_never_renames (e : env) (req : request) (w : world) :
  exists r w',
    put_user e req w = (Returned r, w')
    /\ map names (users w') = map names (users w).
Proof.
  apply Wp.spec_caught.
  unfold put_user, authenticateToken, select_active_user, jwt_verify,
    and_then, validateUUID, handleValidationErrors, whitelistUserFields.
  wp; cbn [users with_faults with_console] in *; try reflexivity.
  all: eapply Wp.spec_from;
    [ apply updateUser_keeps_names; cbn [body with_body];
      rewrite field_pick; reflexivity
    | intros ? w' H; exact H ].
Qed.

End WhitelistFacts.

(** ** The list queries, further *)

Module QueryFacts.
Import Core Http Logic JsString JsNumber Validation ValidationFacts Vocabulary.
Import AuthMiddleware MessageController Routes ListFacts.

Lemma ceil_div_window (total limit : Z) :
  (0 < limit)%Z ->
  ((ceil_div total limit - 1) * limit < total <= ceil_div total limit * limit)%Z.
Proof.
  intro Hl. unfold ceil_div.
  pose proof (Z.div_mod (- total) limit) as Hd.
  pose proof (Z.mod_pos_bound (- total) limit Hl) as Hm.
  nia.
Qed.

Lemma page_of_paged (q : list (string * string)) :
  (forall v, query_param "page" q = Some v -> isInt 1 1000 v = true) ->
  (1 <= or_default (parseInt (query_param "page" q)) 1 <= 1000)%Z.
Proof.
  intro H. destruct (query_param "page" q) as [v |].
  - destruct (isInt_parseInt 1 1000 v (H v eq_refl)) as [n [Hn Hr]].
    rewrite Hn. unfold or_default. destruct n; lia.
  - simpl. lia.
Qed.

Lemma sort_order_cases (q : list (string * string)) :
  sort_order q = "asc" \/ sort_order q = "desc".
Proof.
  unfold sort_order. destruct (query_param "order" q) as [o |]; [| now right].
  destruct (o =? "asc")%string; auto.
Qed.

Lemma validatePagination_answer (req : request) (r : response) :
  validatePagination req = Answer r -> exists errors, data r = Errors errors.
Proof.
  unfold validatePagination.
  match goal with
  | |- context [let (_, _) := ?c in _] => destruct c as [q errors]
  end.
  unfold handleValidationErrors.
  destruct errors; intro H; inversion H. eexists. reflexivity.
Qed.

Lemma validatePagination_paged (req req' : request) :
  validatePagination req = Next req' -> paged req'.
Proof.
  intro H. pose proof (validatePagination_spec req) as Hv. rewrite H in Hv.
  destruct Hv as ((H1 & H2 & H3 & H4) & _ & Hq).
  unfold paged.
  rewrite !Hq by (simpl; tauto). auto.
Qed.

Lemma messages_query_window (req : request) :
  paged req -> in_window (messages_query req).
Proof.
  intros (Hp & Hl & _ & _). unfold in_window, messages_query.
  cbn [q_limit q_offset q_order].
  pose proof (limit_of_paged _ Hl). pose proof (page_of_paged _ Hp).
  split; [assumption |]. split; [nia | apply sort_order_cases].
Qed.

Lemma users_query_window (req : request) :
  paged req -> in_window (UserController.users_query req).
Proof.
  intros (Hp & Hl & _ & _). unfold in_window, UserController.users_query.
  cbn [q_limit q_offset q_order].
  pose proof (limit_of_paged _ Hl). pose proof (page_of_paged _ Hp).
  split; [assumption |]. split; [nia | apply sort_order_cases].
Qed.

Lemma getMessages_window (e : env) (req : request) (w : world) :
  paged req -> spec (getMessages e req) w (windowed w) caught.
Proof.
  intro Hp. pose proof (messages_query_window req Hp) as Hw.
  assert (Hpage : (1 <= or_default (parseInt (query_param "page" (query req))) 1
                   <= 1000)%Z) by (apply page_of_paged, Hp).
  unfold getMessages. wp; unfold windowed;
    cbn [executed with_faults with_console with_executed data failure ok];
    (split; [auto | try exact I]).
  - right. eexists. split; [reflexivity | exact Hw].
  - unfold well_paged. cbn [pg_page pg_limit pg_pages pg_total].
    destruct Hw as (Hl & _). split; [exact Hpage |]. split; [exact Hl |].
    apply ceil_div_window. lia.
Qed.

Lemma getUsers_window (e : env) (req : request) (w : world) :
  paged req -> spec (UserController.getUsers e req) w (windowed w) caught.
Proof.
  intro Hp. pose proof (users_query_window req Hp) as Hw.
  assert (Hpage : (1 <= or_default (parseInt (query_param "page" (query req))) 1
                   <= 1000)%Z) by (apply page_of_paged, Hp).
  unfold UserController.getUsers, the_user. wp; unfold windowed;
    cbn [executed with_faults with_console with_executed data failure ok];
    (split; [auto | try exact I]).
  all: try (right; eexists; split; [reflexivity | exact Hw]).
  unfold well_paged. cbn [pg_page pg_limit pg_pages pg_total].
  destruct Hw as (Hl & _). split; [exact Hpage |]. split; [exact Hl |].
  apply ceil_div_window. lia.
Qed.

(** X5.  On the two list routes a request that gets as far as the paged
    [SELECT] runs it once, with a page size between 1 and 100, an offset
    between 0 and 99900 and the order [asc] or [desc]; and the pagination
    block of every list answer has its page within 1..1000, its limit
    within 1..100 and as page count the least number of pages of that
    size that hold the total. *)
Theorem list_routes_cut_a_bounded_window (e : env) (req : request) (w : world) :
  (exists r w', get_messages e req w = (Returned r, w') /\ windowed w r w')
  /\ (exists r w', get_users e req w = (Returned r, w') /\ windowed w r w').
Proof.
  assert (Hrun : forall (h : request -> M response) req0 w0,
            (forall req w, paged req -> spec (h req) w (windowed w) caught) ->
            executed w0 = executed w ->
            spec (and_then (validatePagination req0) h) w0 (windowed w) caught).
  { intros h req0 w0 Hh Hx. unfold and_then.
    destruct (validatePagination req0) as [r | req2] eqn:Hv.
    - apply validatePagination_answer in Hv. destruct Hv as [errs Hd].
      apply Wp.spec_ret. unfold windowed. rewrite Hd. auto.
    - apply validatePagination_paged in Hv.
      eapply Wp.spec_from; [apply (Hh _ _ Hv) |].
      intros r w' H. unfold windowed in *. now rewrite Hx in H. }
  split; apply Wp.spec_caught.
  - unfold get_messages, optionalAuth, select_active_user, jwt_verify.
    wp; cbv beta; try (apply Hrun; [apply getMessages_window | reflexivity]).
  - unfold get_users, authenticateToken, select_active_user, jwt_verify,
      requireModerator, requireRole.
    wp; cbv beta; unfold and_then at 1; wp;
      try (apply Hrun; [apply getUsers_window | reflexivity]);
      unfold windowed; cbn [executed with_faults data failure]; auto.
    cbn [user with_user]. destruct (includes _ _); unfold and_then at 1.
    + apply Hrun; [apply getUsers_window | reflexivity].
    + wp. unfold windowed; cbn [executed with_faults data failure]; auto.
Qed.

End QueryFacts.

(** ** The WHERE clauses *)

Module ClauseFacts.
Import Core Http Logic JsString JsNumber Validation Vocabulary.
Import MessageController UserController.

(** X6.  The text of the two dynamically built WHERE clauses depends only on
    which filters are present (and, for messages, on the role): two
    requests whose filters are present alike get the same conditions
    whatever the filter values are.  The values go to the bound
    parameters, in the order of the conditions, the search term between
    two percent signs. *)
Theorem where_clause_text_is_independent_of_the_values
    (search category status author role search' category' status' author'
       role' : string) (userRole : option string) :
  nonempty search = nonempty search' ->
  nonempty category = nonempty category' ->
  nonempty status = nonempty status' ->
  nonempty author = nonempty author' ->
  nonempty role = nonempty role' ->
  fst (buildSafeWhereClause search category status author userRole)
  = fst (buildSafeWhereClause search' category' status' author' userRole)
  /\ fst (buildSafeUserWhereClause search role status)
     = fst (buildSafeUserWhereClause search' role' status')
  /\ snd (buildSafeWhereClause search category status author userRole)
     = filter nonempty
         [if nonempty search then ("%" ++ search ++ "%")%string else "";
          category; status; author]
  /\ snd (buildSafeUserWhereClause search role status)
     = filter nonempty
         [if nonempty search then ("%" ++ search ++ "%")%string else ""; role; status].
Proof.
  intros Hs Hc Ht Ha Hr.
  assert (Hpct : forall s, nonempty ("%" ++ s ++ "%")%string = true)
    by reflexivity.
  unfold buildSafeWhereClause, buildSafeUserWhereClause, push_if.
  rewrite <- Hs, <- Hc, <- Ht, <- Ha, <- Hr.
  cbn [filter].
  destruct (nonempty search) eqn:E1; rewrite ?Hpct;
    destruct (nonempty category) eqn:E2;
    destruct (nonempty status) eqn:E3;
    destruct (nonempty author) eqn:E4;
    destruct (nonempty role) eqn:E5;
    destruct (negb (is_role "admin" userRole)
              && negb (is_role "moderator" userRole));
    cbn [fst snd app nonempty]; repeat split; reflexivity.
Qed.

End ClauseFacts.

(** ** Who sees and who changes a message *)

Module VisibilityFacts.
Import Core Http Logic JsString JsNumber Validation Vocabulary.
Import MessageController.

(** X7.  The list of messages is restricted to the active ones exactly for a
    caller who is neither administrator nor moderator and who names no
    status: the condition on the status column is then the literal
    [m.status = 'active'], and in every other case no such condition is
    part of the clause. *)
Theorem listing_defaults_to_active_for_ordinary_callers (req : request) :
  In "m.status = 'active'" (q_where (messages_query req))
  <-> (param_or_empty "status" (query req) = ""
       /\ elevated (role_of req) = false).
Proof.
  unfold messages_query. cbn [q_where].
  unfold buildSafeWhereClause, push_if, elevated, nonempty.
  set (search := param_or_empty "search" (query req)).
  set (category := param_or_empty "category" (query req)).
  set (status := param_or_empty "status" (query req)).
  set (author := param_or_empty "author" (query req)).
  destruct (status =? "")%string eqn:Es.
  - apply String.eqb_eq in Es. rewrite Es.
    destruct (is_role "admin" (role_of req));
      destruct (is_role "moderator" (role_of req));
      destruct (search =? "")%string; destruct (category =? "")%string;
      destruct (author =? "")%string;
      cbv; (split; [intro H; try (split; reflexivity);
                    exfalso; intuition discriminate
                   | intros [_ H]; try discriminate H; tauto]).
  - apply String.eqb_neq in Es.
    split; [| intros [H _]; contradiction].
    intro H. exfalso. revert H.
    destruct (search =? "")%string; destruct (category =? "")%string;
      destruct (author =? "")%string;
      cbv; intuition discriminate.
Qed.

End VisibilityFacts.

Module AccessFacts.
Import Core Http Logic JsString JsNumber Validation Vocabulary.
Import MessageController Audit MiddlewareFacts.

Lemma is_role_false (r : string) (o : option string) :
  o <> Some r -> is_role r o = false.
Proof.
  destruct o as [x |]; [| reflexivity]. simpl. intro H.
  apply String.eqb_neq. congruence.
Qed.

(** X8.  A message that is not active is, for a caller who is neither
    administrator nor moderator nor its author, answered exactly like a
    key that names no message: 404 [Message not found] (or 500 when the
    [SELECT] is lost), with no table touched and no view counted. *)
Theorem hidden_message_is_answered_like_a_missing_one (req : request)
    (w : world) :
  param req <> "" ->
  match fetched (param req) (messages w) with
  | None => True
  | Some m =>
      m_status m <> "active" /\ elevated (role_of req) = false
      /\ id_of req <> Some (m_author_id m)
  end ->
  fst (getMessageBySlug req w)
  = Returned match faults w with
             | true :: _ => failure 500 "Internal server error"
             | _ => failure 404 "Message not found"
             end
  /\ same_tables w (snd (getMessageBySlug req w)).
Proof.
  intros Hp Hm. unfold getMessageBySlug, select_message, fetched in *.
  apply String.eqb_neq in Hp. rewrite Hp. run.
  assert (Hhidden : forall m rows,
            filter (fun m => if is_uuid (param req)
                             then (m_id m =? param req)%string
                             else (m_slug m =? param req)%string)
                   (messages w) = m :: rows ->
            negb (m_status m =? "active")%string
            && negb (is_role "admin" (role_of req))
            && negb (is_role "moderator" (role_of req))
            && negb (is_role (m_author_id m) (id_of req)) = true).
  { intros m rows Hf. rewrite Hf in Hm. cbn in Hm.
    destruct Hm as (Hs & He & Ha).
    unfold elevated in He. apply orb_false_iff in He. destruct He as [-> ->].
    rewrite (is_role_false _ _ Ha). apply String.eqb_neq in Hs.
    now rewrite Hs. }
  destruct (faults w) as [| [|] plan] eqn:Hf; cbn -[filter].
  - destruct (filter _ (messages w)) as [| m rows] eqn:E; cbn -[filter].
    + repeat split.
    + rewrite (Hhidden m rows eq_refl). cbn. repeat split.
  - repeat split.
  - destruct (filter _ (messages w)) as [| m rows] eqn:E; cbn -[filter].
    + repeat split.
    + rewrite (Hhidden m rows eq_refl). cbn. repeat split.
Qed.

(** X9.  A caller who is neither administrator nor moderator and who is not
    the author of the message an identifier names can neither update nor
    delete it: both handlers answer 403 (404 when no message has the
    identifier, 500 when the [SELECT] is lost) and leave every table as
    it was. *)
Theorem others_messages_cannot_be_changed (e : env) (req : request)
    (w : world) (p : principal) :
  user req = Some p ->
  p_role p <> "admin" -> p_role p <> "moderator" ->
  (forall m, In m (messages w) -> m_id m = param req ->
             m_author_id m <> p_id p) ->
  (exists r w',
     updateMessage e req w = (Returned r, w') /\ same_tables w w'
     /\ (status r = 403 \/ status r = 404 \/ status r = 500))
  /\ (exists r w',
        deleteMessage req w = (Returned r, w') /\ same_tables w w'
        /\ (status r = 403 \/ status r = 404 \/ status r = 500)).
Proof.
  intros Hu Ha Hm Hown.
  assert (Hno : forall m rows,
            filter (fun m => (m_id m =? param req)%string) (messages w)
            = m :: rows ->
            negb ((p_role p =? "admin")%string || (p_role p =? "moderator")%string
                  || (p_id p =? m_author_id m)%string) = true).
  { intros m rows Hf. apply filter_head in Hf. destruct Hf as [Hin Hid].
    apply String.eqb_eq in Hid. specialize (Hown m Hin Hid).
    apply String.eqb_neq in Ha, Hm. rewrite Ha, Hm. cbn.
    apply negb_true_iff, String.eqb_neq. congruence. }
  split; apply Wp.spec_caught.
  - unfold updateMessage, select_message, the_user. rewrite Hu.
    repeat first
      [ match goal with
        | E : filter _ _ = ?m :: ?rows
          |- Logic.spec (if negb _ then _ else _) _ _ _ =>
            rewrite (Hno m rows E)
        end
      | wp_step ];
      cbn; unfold same_tables; cbn; auto 10.
  - unfold deleteMessage, select_message, the_user. rewrite Hu.
    repeat first
      [ match goal with
        | E : filter _ _ = ?m :: ?rows
          |- Logic.spec (if negb _ then _ else _) _ _ _ =>
            rewrite (Hno m rows E)
        end
      | wp_step ];
      cbn; unfold same_tables; cbn; auto 10.
Qed.

(** X10.  A delete that is answered 200 came from an administrator, a
    moderator or the author of the message, and has removed from
    [messages] the rows of that identifier and no other; a delete that is
    answered otherwise has left every table as it was. *)
Theorem deleteMessage_removes_the_rows_of_the_identifier (req : request)
    (w : world) :
  exists r w',
    deleteMessage req w = (Returned r, w')
    /\ (status r = 200 ->
        exists p m,
          user req = Some p
          /\ hd_error (filter (fun m => (m_id m =? param req)%string)
                              (messages w)) = Some m
          /\ (elevated (Some (p_role p)) = true \/ p_id p = m_author_id m)
          /\ messages w'
             = filter (fun m => negb (m_id m =? param req)%string) (messages w))
    /\ (status r <> 200 -> same_tables w w').
Proof.
  apply Wp.spec_caught.
  unfold deleteMessage, select_message, delete_message, the_user,
    createAuditLog, insert_audit.
  wp; cbn [status failure ok messages with_faults with_console with_messages
           with_audit_logs] in *;
    try (split; [discriminate | intros _; unfold same_tables; cbn; auto]).
  all: split; [intros _ | intro H; exfalso; now apply H].
  all: eexists; eexists; split; [reflexivity |];
    rewrite Heql; (split; [reflexivity |]); (split; [| reflexivity]).
  all: apply negb_false_iff in Heqb; unfold elevated, is_role.
  all: apply orb_true_iff in Heqb; destruct Heqb as [Hb | Hb];
    [now left | right; now apply String.eqb_eq].
Qed.

End AccessFacts.

(** ** Creating a message *)

Module CreateFacts.
Import Core Http Logic JsString JsNumber Slug Validation Vocabulary.
Import MessageController Audit SlugFacts.

Lemma slug_loop_world (except : option string) (slug : string) (fuel : nat) :
  forall finalSlug counter w,
    exists plan,
      snd (slug_loop fuel except slug finalSlug counter w) = with_faults plan w.
Proof.
  induction fuel as [| fuel IH]; intros finalSlug counter w.
  - exists (faults w). cbn. now rewrite Wp.with_faults_same.
  - cbn [slug_loop]. unfold slug_taken. run.
    destruct (faults w) as [| [|] plan] eqn:Hf; cbn.
    + destruct (existsb _ (messages w)).
      * apply IH.
      * exists (faults w). now rewrite Wp.with_faults_same.
    + now exists plan.
    + destruct (existsb _ (messages w)).
      * destruct (IH (suffixed slug counter) (S counter) (with_faults plan w))
          as [plan' H].
        exists plan'. exact H.
      * now exists plan.
Qed.

(** The loop, as a step of a handler. *)
Lemma spec_unique_slug (except : option string) (slug : string) (w : world)
    (Q : string -> world -> Prop) (E : exn -> world -> Prop) :
  (forall plan, E SqlError (with_faults plan w)) ->
  (forall plan k,
     taken_by except (messages w) (candidate slug k) = false ->
     (forall j, j < k -> taken_by except (messages w) (candidate slug j) = true) ->
     Q (candidate slug k) (with_faults plan w)) ->
  spec (unique_slug except slug) w Q E.
Proof.
  intros HE HQ. unfold spec.
  destruct (slug_loop_world except slug (S (List.length (messages w))) slug 1 w)
    as [plan Hw].
  assert (Hsnd : snd (unique_slug except slug w) = with_faults plan w)
    by exact Hw.
  destruct (unique_slug_spec except slug w)
    as (w' & _ & [H | (k & H & Hfree & Hall)]);
    rewrite H in *; cbn [snd] in Hsnd; subst w'.
  - apply HE.
  - now apply HQ.
Qed.

Lemma tags_only_refl (w : world) : tags_only w w.
Proof. repeat split. Qed.

Lemma tags_only_trans (w1 w2 w3 : world) :
  tags_only w1 w2 -> tags_only w2 w3 -> tags_only w1 w3.
Proof. unfold tags_only. intuition congruence. Qed.

(** The loop over the tags, as a step of a handler. *)
Lemma spec_insert_tags (e : env) (id : string) (tags : list json) :
  forall (w : world) (Q : unit -> world -> Prop) (E : exn -> world -> Prop),
    (forall w', tags_only w w' -> Q tt w' /\ E SqlError w') ->
    spec (insert_tags e id tags) w Q E.
Proof.
  induction tags as [| t tags IH]; intros w Q E H; cbn [insert_tags].
  - apply Wp.spec_ret. apply H, tags_only_refl.
  - unfold insert_tag.
    wp;
      first
        [ exact I
        | apply IH; intros w' Hw'; apply H;
          (eapply tags_only_trans; [| exact Hw']);
          try match goal with
              | |- context [if ?b then _ else _] => destruct b
              end;
          repeat split
        | apply H; repeat split ].
Qed.

Ltac wp_loops :=
  repeat first
    [ match goal with
      | |- Logic.spec (MessageController.unique_slug _ _) _ _ _ =>
          apply spec_unique_slug; [intro | intros ? ? ? ?]
      | |- Logic.spec (MessageController.insert_tags _ _ _) _ _ _ =>
          apply spec_insert_tags;
          let w' := fresh "w'" in
          let Hw := fresh "Hw" in
          intros w' Hw; destruct Hw as (? & ? & ? & ? & ? & ?); split
      end
    | wp_step ].

(** X11.  A create is answered 201 or 500.  When it is answered 201, one row
    has been appended to [messages]: its author is the caller, its three
    counters are zero, it is what the answer shows, and for a caller of
    role [user] its status is the one the literal [active] is stored as
    and it is published at the time of the request, whatever the payload
    asked for. *)
Theorem createMessage_stores_the_callers_message (e : env) (req : request)
    (w : world) :
  exists r w',
    createMessage e req w = (Returned r, w')
    /\ (status r = 201 \/ status r = 500)
    /\ users w' = users w
    /\ (status r = 201 ->
        exists p row,
          user req = Some p
          /\ messages w' = messages w ++ [row]
          /\ m_author_id row = p_id p
          /\ (m_view_count row = 0 /\ m_like_count row = 0
              /\ m_comment_count row = 0)%Z
          /\ data r = MessageData (view_of row)
          /\ (p_role p = "user" ->
              text_cell e (JStr "active") = Some (m_status row)
              /\ m_published_at row = Some (now w))).
Proof.
  apply Wp.spec_caught.
  unfold createMessage, slug_of_title, the_user, insert_message,
    createAuditLog, insert_audit.
  wp_loops.
  all: cbn [status failure created users messages now with_faults with_console
            with_messages with_audit_logs data] in *.
  all: try (split; [now right |]; split; [congruence |]; discriminate).
  all: split; [now left |]; split; [congruence |]; intros _.
  all: eexists; eexists; split; [reflexivity |];
    split; [first [reflexivity | eassumption] |].
  all: cbn [m_author_id m_view_count m_like_count m_comment_count m_status
            m_published_at].
  all: split; [reflexivity |]; split; [repeat split |];
    split; [reflexivity |].
  all: intro Hr;
    assert (Hb : (p_role p =? "user")%string = true) by now apply String.eqb_eq.
  all: rewrite Hb in *; split; [assumption | reflexivity].
Qed.

End CreateFacts.

(** ** Updating a user, further *)

Module UpdateFacts.
Import Core Http Logic Validation Vocabulary.
Import MessageController UserController Audit UserFacts.

Lemma update_rows_pointwise {R} (sel : R -> bool) (set : R -> option R) :
  forall rows table returned,
    update_rows sel set rows = Some (table, returned) ->
    Forall2 (fun r r' => if sel r then set r = Some r' else r' = r) rows table
    /\ (forall r', In r' returned -> In r' table
                   /\ exists r, In r rows /\ sel r = true /\ set r = Some r')
    /\ (returned = [] -> table = rows).
Proof.
  induction rows as [| r rows IH]; simpl; intros table returned H.
  - inversion H; subst. split; [constructor |].
    split; [intros r' [] | reflexivity].
  - destruct (update_rows sel set rows) as [[t' out] |]; [| discriminate].
    destruct (IH _ _ eq_refl) as (IH1 & IH2 & IH3).
    destruct (sel r) eqn:Hs.
    + destruct (set r) as [r1 |] eqn:E; [| discriminate].
      inversion H; subst. split; [| split].
      * constructor; [now rewrite Hs | exact IH1].
      * intros r' [<- | Hin].
        -- split; [now left |]. exists r. auto.
        -- destruct (IH2 r' Hin) as (Ht & r0 & Hr0 & Hsel & Hset).
           split; [now right |]. exists r0. auto.
      * discriminate.
    + inversion H; subst. split; [| split].
      * constructor; [now rewrite Hs | exact IH1].
      * intros r' Hin. destruct (IH2 r' Hin) as (Ht & r0 & Hr0 & Hsel & Hset).
        split; [now right |]. exists r0. auto.
      * intro Hn. now rewrite (IH3 Hn).
Qed.

Lemma others_untouched_refl (id : string) (rows : list user_row) :
  others_untouched id rows rows.
Proof. induction rows; constructor; auto. Qed.

Lemma set_user_columns_id (e : env) (updates : list (string * cell))
    (u u' : user_row) :
  (forall col, In col (map fst updates) -> In col ALLOWED_USER_UPDATE_FIELDS) ->
  set_user_columns e updates u = Some u' -> u_id u' = u_id u.
Proof.
  intros Hk H. apply set_user_columns_credentials in H; [| exact Hk].
  unfold credentials in H. now inversion H.
Qed.

Lemma update_user_rows (e : env) (id : string) (updates : list (string * cell))
    (t : Z) (rows table returned : list user_row) :
  (forall col, In col (map fst updates) -> In col ALLOWED_USER_UPDATE_FIELDS) ->
  update_rows (fun u => (u_id u =? id)%string)
    (fun u => option_map (touch_user t) (set_user_columns e updates u)) rows
  = Some (table, returned) ->
  others_untouched id rows table
  /\ (forall u', In u' returned -> In u' table /\ u_id u' = id)
  /\ (returned = [] -> table = rows).
Proof.
  intros Hk H. apply update_rows_pointwise in H. destruct H as (H1 & H2 & H3).
  assert (Hid : forall u u',
            option_map (touch_user t) (set_user_columns e updates u) = Some u' ->
            u_id u' = u_id u).
  { intros u u' Hu.
    destruct (set_user_columns e updates u) as [u1 |] eqn:E; [| discriminate].
    inversion Hu; subst. cbn. now apply set_user_columns_id in E. }
  split; [| split; [| exact H3]].
  - unfold others_untouched. clear H2 H3.
    induction H1 as [| u u' rows table Hu _ IH]; constructor; [| exact IH].
    destruct (u_id u =? id)%string eqn:E.
    + split; [now apply Hid |]. apply String.eqb_eq in E. tauto.
    + subst u'. auto.
  - intros u' Hin. destruct (H2 u' Hin) as (Ht & u & _ & Hsel & Hset).
    split; [exact Ht |]. apply String.eqb_eq in Hsel. rewrite <- Hsel.
    now apply Hid.
Qed.

(** X12.  Whatever the request, [updateUser] answers, and row by row the table
    of users is what it was wherever the identifier is not the one of the
    route; no row appears or goes, no identifier changes, and the
    messages and the refresh tokens are untouched. *)
Theorem updateUser_touches_only_the_named_user (e : env) (req : request)
    (w : world) :
  exists r w',
    updateUser e req w = (Returned r, w')
    /\ others_untouched (param req) (users w) (users w')
    /\ messages w' = messages w
    /\ refresh_tokens w' = refresh_tokens w.
Proof.
  apply Wp.spec_caught.
  unfold updateUser, select_user, username_taken, update_user, the_user,
    createAuditLog, insert_audit.
  wp; cbn [users messages refresh_tokens with_faults with_console with_users
           with_audit_logs] in *;
    (split; [| split; reflexivity]);
    try apply others_untouched_refl.
  all: match goal with
       | H : update_rows _ _ _ = Some _ |- _ =>
           apply update_user_rows in H;
           [apply H | intro; apply user_updates_allowed]
       end.
Qed.

(** X13.  An update of a user that is answered 200 came from an administrator
    or from the user the route names, the identifier is a UUID, and the
    answer shows a row of that identifier as the table now holds it; an
    update that is answered otherwise has left every table as it was. *)
Theorem updateUser_succeeds_only_for_admin_or_self (e : env) (req : request)
    (w : world) :
  exists r w',
    updateUser e req w = (Returned r, w')
    /\ (status r = 200 ->
        is_uuid (param req) = true
        /\ (exists p, user req = Some p
                      /\ (p_role p = "admin" \/ p_id p = param req))
        /\ (exists updated,
              data r = UserData (user_view_of updated)
              /\ In updated (users w') /\ u_id updated = param req))
    /\ (status r <> 200 -> same_tables w w').
Proof.
  apply Wp.spec_caught.
  unfold updateUser, select_user, username_taken, update_user, the_user,
    createAuditLog, insert_audit.
  wp; cbn [status failure ok data users messages message_tags refresh_tokens
           with_faults with_console with_users with_audit_logs] in *;
    try (split; [discriminate | intros _; unfold same_tables; cbn; tauto]).
  all: match goal with
       | H : update_rows _ _ _ = Some _ |- _ =>
           apply update_user_rows in H;
           [destruct H as (Hrows & Hret & Hnone)
           | intro; apply user_updates_allowed]
       end.
  all: try (split; [discriminate | intros _; unfold same_tables; cbn];
            destruct l1; [rewrite Hnone by reflexivity; tauto | discriminate]).
  all: split; [intros _ | intro H; exfalso; now apply H].
  all: split; [now apply negb_false_iff in Heqb |].
  all: split;
    [ exists p; split; [reflexivity |];
      match goal with
      | Hc : negb (_ || _) = false |- _ =>
          apply negb_false_iff, orb_true_iff in Hc;
          destruct Hc as [Hb | Hb]; apply String.eqb_eq in Hb; auto
      end
    | exists u0; split; [reflexivity |]; apply Hret;
      match goal with
      | Hh : hd_error ?l = Some _ |- _ =>
          destruct l; inversion Hh; now left
      end ].
Qed.

End UpdateFacts.

(** ** Deleting a user *)

Module DeleteFacts.
Import Core Http Logic Validation Vocabulary.
Import MessageController UserController Audit AuthMiddleware Routes.
Import Session Account MiddlewareFacts.

Lemma deleteUser_spec (req : request) (w : world) :
  spec (deleteUser req) w
    (fun r w' =>
       (status r = 200 ->
        exists p target,
          user req = Some p /\ p_id p <> param req
          /\ hd_error (filter (fun u => (u_id u =? param req)%string) (users w))
             = Some target
          /\ (u_role target = "admin" -> p_role p = "super_admin")
          /\ users w'
             = filter (fun u => negb (u_id u =? param req)%string) (users w))
       /\ (status r <> 200 -> same_tables w w'))
    caught.
Proof.
  unfold deleteUser, Account.delete_user, select_user, the_user,
    createAuditLog, insert_audit.
  wp; cbn [status failure ok users with_faults with_console with_users
           with_audit_logs] in *;
    try (split; [discriminate | intros _; unfold same_tables; cbn; tauto]).
  all: split; [intros _ | intro H; exfalso; now apply H].
  all: exists p, u; split; [reflexivity |].
  all: split; [now apply String.eqb_neq |].
  all: rewrite Heql; split; [reflexivity |]; split; [| reflexivity].
  all: intro Hr; apply String.eqb_eq in Hr;
    match goal with
    | Hc : _ && negb _ = false |- _ =>
        rewrite Hr in Hc; cbn in Hc; apply negb_false_iff in Hc;
        now apply String.eqb_eq in Hc
    end.
Qed.

(** X14.  A delete of a user that is answered 200 came from a caller other than
    the user the route names, the user was no administrator unless the
    caller is a [super_admin], and [users] has lost the rows of that
    identifier and no other; a delete that is answered otherwise (a
    caller deleting their own account is answered 400) has left every
    table as it was. *)
Theorem deleteUser_spares_the_caller_and_the_admins (req : request)
    (w : world) :
  exists r w',
    deleteUser req w = (Returned r, w')
    /\ (status r = 200 ->
        exists p target,
          user req = Some p /\ p_id p <> param req
          /\ hd_error (filter (fun u => (u_id u =? param req)%string) (users w))
             = Some target
          /\ (u_role target = "admin" -> p_role p = "super_admin")
          /\ users w'
             = filter (fun u => negb (u_id u =? param req)%string) (users w))
    /\ (status r <> 200 -> same_tables w w').
Proof.
  apply Wp.spec_caught.
  unfold deleteUser, Account.delete_user, select_user, the_user,
    createAuditLog, insert_audit.
  wp; cbn [status failure ok users with_faults with_console with_users
           with_audit_logs] in *;
    try (split; [discriminate | intros _; unfold same_tables; cbn; tauto]).
  all: split; [intros _ | intro H; exfalso; now apply H].
  all: exists p, u; split; [reflexivity |].
  all: split; [now apply String.eqb_neq |].
  all: rewrite Heql; split; [reflexivity |]; split; [| reflexivity].
  all: intro Hr; apply String.eqb_eq in Hr;
    match goal with
    | Hc : _ && negb _ = false |- _ =>
        rewrite Hr in Hc; cbn in Hc; apply negb_false_iff in Hc;
        now apply String.eqb_eq in Hc
    end.
Qed.

Lemma filter_unique_id (id : string) (rows l : list user_row) (u : user_row) :
  NoDup (map u_id rows) ->
  filter (fun u => (u_id u =? id)%string) rows = u :: l ->
  forall u', In u' rows -> u_id u' = id -> u' = u.
Proof.
  induction rows as [| r rows IH]; simpl; [discriminate |].
  intros Hnd Hf u' Hin Hid. inversion Hnd as [| ? ? Hnotin Hnd']; subst.
  assert (Hnone : forall x, In x rows -> u_id x = u_id r -> False).
  { intros x Hx Hxr. apply Hnotin. rewrite <- Hxr. now apply in_map. }
  destruct (u_id r =? u_id u')%string eqn:E.
  - apply String.eqb_eq in E. inversion Hf; subst.
    destruct Hin as [-> | Hin]; [reflexivity |].
    exfalso. eapply Hnone; eauto.
  - apply String.eqb_neq in E.
    destruct Hin as [-> | Hin]; [congruence |].
    now apply (IH Hnd' Hf).
Qed.

Lemma filter_filter_implied {A} (f g : A -> bool) (l : list A) :
  (forall x, In x l -> f x = true -> g x = true) ->
  filter f (filter g l) = filter f l.
Proof.
  induction l as [| a l IH]; simpl; intro H; [reflexivity |].
  destruct (g a) eqn:Hg; simpl.
  - destruct (f a); rewrite IH; auto.
  - destruct (f a) eqn:Hf.
    + rewrite (H a (or_introl eq_refl) Hf) in Hg. discriminate.
    + apply IH. auto.
Qed.

(** X15.  What the route [DELETE /users/:id] can do: it answers; a 200 means
    that the bearer token verified to an active administrator other than
    the user named; and, the identifiers of the table being distinct, no
    row of an administrator is ever removed. *)
Theorem delete_user_route_never_removes_an_administrator (e : env)
    (req : request) (w : world) :
  NoDup (map u_id (users w)) ->
  exists r w',
    AccountRoutes.delete_user e req w = (Returned r, w')
    /\ filter (fun u => (u_role u =? "admin")%string) (users w')
       = filter (fun u => (u_role u =? "admin")%string) (users w)
    /\ (status r = 200 ->
        exists token caller,
          bearer_token (authorization req) = Some token
          /\ verify_access e token = Verified (u_id caller)
          /\ In caller (users w) /\ u_role caller = "admin"
          /\ u_status caller = "active" /\ u_id caller <> param req
          /\ users w'
             = filter (fun u => negb (u_id u =? param req)%string) (users w)).
Proof.
  intro Hnd. apply Wp.spec_caught.
  unfold AccountRoutes.delete_user, authenticateToken, select_active_user,
    jwt_verify, and_then, requireAdmin, requireRole, validateUUID,
    handleValidationErrors.
  wp; cbn [status failure users with_faults with_console user with_user
           param] in *;
    try (split; [reflexivity | discriminate]).
  all: eapply Wp.spec_from; [apply deleteUser_spec |].
  all: cbv beta; intros r w' (H200 & Hother).
  all: cbn [users with_faults user with_user param principal_of p_id p_role] in *.
  all: apply filter_head in Heql; destruct Heql as [Hin Hc];
    apply andb_true_iff in Hc; destruct Hc as [Hid Hst];
    apply String.eqb_eq in Hid, Hst; subst userId.
  all: destruct (Nat.eq_dec (status r) 200) as [Hs | Hs].
  all: try (destruct (Hother Hs) as (Hu & _); rewrite Hu;
            split; [reflexivity | intro; contradiction]).
  all: destruct (H200 Hs) as (p' & target & Hp & Hne & Ht & Hadm & Husers).
  all: inversion Hp; subst p'; clear Hp; cbn [p_id p_role principal_of] in *.
  all: inversion Heqo0; subst p; cbn [p_role principal_of] in Heqb.
  all: assert (Hrole : u_role u = "admin")
    by (cbn in Heqb; rewrite orb_false_r in Heqb;
        now apply String.eqb_eq in Heqb).
  all: assert (Htarget : u_role target <> "admin")
    by (intro Hx; apply Hadm in Hx; rewrite Hrole in Hx; discriminate).
  all: destruct (filter (fun u => (u_id u =? param req)%string) (users w))
         as [| t rest] eqn:Hf; [discriminate |];
       inversion Ht; subst t; clear Ht.
  all: split;
    [ rewrite Husers; apply filter_filter_implied; intros x Hx Hxr;
      apply negb_true_iff, String.eqb_neq; intro Hxid;
      rewrite (filter_unique_id _ _ _ _ Hnd Hf x Hx Hxid) in Hxr;
      apply String.eqb_eq in Hxr; contradiction
    | intros _; exists s, u; auto 10 ].
Qed.

End DeleteFacts.

(** ** Handlers that only read *)

Module ReadFacts.
Import Core Http Logic Validation Vocabulary.
Import MessageController UserController Audit AuthMiddleware AuthController.
Import Session Account.

(** X16.  The handlers that list or show users and messages by page, the two
    profile handlers and the token refresh always answer, and leave the
    users, the messages, their tags and the refresh tokens exactly as
    they were. *)
Theorem reading_handlers_leave_the_tables_alone (e : env) (req : request)
    (w : world) :
  (exists r w', getMessages e req w = (Returned r, w') /\ same_tables w w')
  /\ (exists r w', getUsers e req w = (Returned r, w') /\ same_tables w w')
  /\ (exists r w', getUserById req w = (Returned r, w') /\ same_tables w w')
  /\ (exists r w', getProfile req w = (Returned r, w') /\ same_tables w w')
  /\ (exists r w', refreshToken e req w = (Returned r, w') /\ same_tables w w').
Proof.
  repeat split; apply Wp.spec_caught.
  - unfold getMessages. wp; unfold same_tables; cbn; tauto.
  - unfold getUsers, the_user. wp; unfold same_tables; cbn; tauto.
  - unfold getUserById, select_user. wp; unfold same_tables; cbn; tauto.
  - unfold getProfile, select_user, the_user.
    wp; unfold same_tables; cbn; tauto.
  - unfold refreshToken, select_token, select_active_user, jwt_verify.
    wp; unfold same_tables; cbn; tauto.
Qed.

End ReadFacts.

(** ** Changing a password *)

Module PasswordRuleFacts.
Import Core Http Logic JsString Password Validation Vocabulary.
Import MessageController UserController Audit AuthMiddleware AuthController.
Import Session Account MiddlewareFacts.

Lemma ahead_exists (p : ascii -> bool) (l : list ascii) :
  forallb dot l = true -> ahead p l = existsb p l.
Proof.
  induction l as [| c l IH]; simpl; [reflexivity |].
  intro H. apply andb_true_iff in H. destruct H as [Hc Hl].
  now rewrite Hc, IH.
Qed.

(** X17.  The rule [updatePassword] applies to a new password is the validity
    of [validatePasswordStrength] on a password of one line: both ask for
    eight characters, a lower-case letter, an upper-case letter and a
    digit, and the regular expression also refuses a line break. *)
Theorem passwordRegex_is_the_strength_rule (s : string) :
  passwordRegex s
  = isValid (validatePasswordStrength s) && forallb dot (chars s).
Proof.
  unfold passwordRegex, validatePasswordStrength, test_class, JsString.length,
    minLength.
  cbn [isValid].
  destruct (forallb dot (chars s)) eqn:Hd.
  - rewrite !ahead_exists by exact Hd.
    rewrite andb_true_r.
    destruct (8 <=? List.length (chars s)); destruct (existsb is_lower (chars s));
      destruct (existsb is_upper (chars s));
      destruct (existsb is_digit (chars s)); reflexivity.
  - now rewrite !andb_false_r.
Qed.

End PasswordRuleFacts.

Module PasswordChangeFacts.
Import Core Http Logic JsString Password Validation Vocabulary.
Import MessageController UserController Audit AuthMiddleware AuthController.
Import Session Account MiddlewareFacts PasswordRuleFacts.

Lemma updatePassword_spec (e : env) (c : crypto) (req : request) (w : world) :
  spec (updatePassword e c req) w
    (fun r w' =>
       (status r = 200 ->
        exists p target new,
          user req = Some p
          /\ field "newPassword" (body req) = Some (JStr new)
          /\ passwordRegex new = true
          /\ hd_error (filter (fun u => (u_id u =? param req)%string) (users w))
             = Some target
          /\ (p_role p = "admin"
              \/ (p_id p = param req
                  /\ exists current,
                       field "currentPassword" (body req) = Some (JStr current)
                       /\ bcrypt_compare c current (u_password_hash target)
                          = true))
          /\ users w'
             = password_set (param req) (bcrypt_hash c new) (now w) (users w)
          /\ refresh_tokens w'
             = tokens_revoked_of (param req) (refresh_tokens w))
       /\ (status r = 400 \/ status r = 403 \/ status r = 404 ->
           same_tables w w')
       /\ In (status r) [200; 400; 403; 404; 500])
    caught.
Proof.
  unfold updatePassword, select_user, the_user, string_of, set_password,
    revoke_tokens_of, createAuditLog, insert_audit.
  wp; cbn [status failure ok users refresh_tokens now with_faults with_console
           with_users with_refresh_tokens with_audit_logs] in *.
  all: try (split; [discriminate |];
            split; [intros _; unfold same_tables; cbn; tauto | cbn; tauto]).
  all: try (split; [discriminate |];
            split; [intros [H | [H | H]]; discriminate H | cbn; tauto]).
  all: split;
    [intros _ | split; [intros [H | [H | H]]; discriminate H | cbn; tauto]].
  all: match goal with
       | Hn : field "newPassword" _ = Some (JStr ?n),
         Hu : filter _ _ = ?u :: _ |- _ => exists p, u, n; rewrite Hu
       end.
  all: split; [reflexivity |]; split; [reflexivity |].
  all: split; [now apply negb_false_iff in Heqb0 |].
  all: split; [reflexivity |]; split; [| split; reflexivity].
  all: destruct (p_role p =? "admin")%string eqn:Hadmin;
    [left; now apply String.eqb_eq | right].
  all: try discriminate.
  all: cbn in Heqb1; apply negb_false_iff, String.eqb_eq in Heqb1.
  all: split; [exact Heqb1 |].
  all: match goal with
       | Hc : negb (bcrypt_compare _ ?s _) = false |- _ =>
           exists s; split; [reflexivity | now apply negb_false_iff in Hc]
       end.
Qed.

(** X18.  A change of password is answered 200, 400, 403, 404 or 500.  When it
    is answered 200, the new password is a string that meets the rule,
    the caller is an administrator or is the user named and has given
    the current password, the rows of that user now hold the hash of the
    new password, and every refresh token of that user is revoked, the
    tokens of other users being as they were; when it is answered 400,
    403 or 404, every table is as it was. *)
Theorem updatePassword_sets_the_hash_and_revokes_the_tokens (e : env)
    (c : crypto) (req : request) (w : world) :
  exists r w',
    updatePassword e c req w = (Returned r, w')
    /\ (status r = 200 ->
        exists p target new,
          user req = Some p
          /\ field "newPassword" (body req) = Some (JStr new)
          /\ passwordRegex new = true
          /\ hd_error (filter (fun u => (u_id u =? param req)%string) (users w))
             = Some target
          /\ (p_role p = "admin"
              \/ (p_id p = param req
                  /\ exists current,
                       field "currentPassword" (body req) = Some (JStr current)
                       /\ bcrypt_compare c current (u_password_hash target)
                          = true))
          /\ users w'
             = password_set (param req) (bcrypt_hash c new) (now w) (users w)
          /\ refresh_tokens w'
             = tokens_revoked_of (param req) (refresh_tokens w))
    /\ (status r = 400 \/ status r = 403 \/ status r = 404 ->
        same_tables w w')
    /\ In (status r) [200; 400; 403; 404; 500].
Proof.
  apply Wp.spec_caught.
  unfold updatePassword, select_user, the_user, string_of, set_password,
    revoke_tokens_of, createAuditLog, insert_audit.
  wp; cbn [status failure ok users refresh_tokens now with_faults with_console
           with_users with_refresh_tokens with_audit_logs] in *.
  all: try (split; [discriminate |];
            split; [intros _; unfold same_tables; cbn; tauto | cbn; tauto]).
  all: try (split; [discriminate |];
            split; [intros [H | [H | H]]; discriminate H | cbn; tauto]).
  all: split;
    [intros _ | split; [intros [H | [H | H]]; discriminate H | cbn; tauto]].
  all: match goal with
       | Hn : field "newPassword" _ = Some (JStr ?n),
         Hu : filter _ _ = ?u :: _ |- _ => exists p, u, n; rewrite Hu
       end.
  all: split; [reflexivity |]; split; [reflexivity |].
  all: split; [now apply negb_false_iff in Heqb0 |].
  all: split; [reflexivity |]; split; [| split; reflexivity].
  all: destruct (p_role p =? "admin")%string eqn:Hadmin;
    [left; now apply String.eqb_eq | right].
  all: try discriminate.
  all: cbn in Heqb1; apply negb_false_iff, String.eqb_eq in Heqb1.
  all: split; [exact Heqb1 |].
  all: match goal with
       | Hc : negb (bcrypt_compare _ ?s _) = false |- _ =>
           exists s; split; [reflexivity | now apply negb_false_iff in Hc]
       end.
Qed.

Lemma filter_map_same_key {A} (f : A -> A) (p : A -> bool) (l : list A) :
  (forall x, p (f x) = p x) ->
  filter p (map f l) = map f (filter p l).
Proof.
  intro H. induction l as [| a l IH]; simpl; [reflexivity |].
  rewrite H. destruct (p a); simpl; now rewrite IH.
Qed.

(** A refresh with a token that has no persisted record, or whose first
    persisted record is revoked, is answered 401, without token data. *)
Lemma refresh_of_revoked (e : env) (req : request) (w : world) (token : string) :
  field "refreshToken" (body req) = Some (JStr token) ->
  match hd_error (filter (fun t => (t_token t =? token)%string)
                         (refresh_tokens w)) with
  | Some row => t_is_revoked row = true
  | None => True
  end ->
  spec (refreshToken e req) w
    (fun r w' => status r = 401 /\ data r = NoData /\ same_tables w w') caught.
Proof.
  intros Hf Hrow.
  unfold refreshToken, select_token, select_active_user, jwt_verify.
  rewrite Hf.
  wp; cbn [status failure ok data refresh_tokens with_faults with_console] in *;
    try (repeat split; reflexivity).
  all: exfalso.
  all: match goal with
       | H : filter _ _ = _ |- _ => rewrite H in Hrow
       end;
    cbn in Hrow; try discriminate.
  all: match goal with
       | H : _ || _ = false |- _ => rewrite Hrow in H; discriminate H
       end.
Qed.

(** X19.  After a change of password that was answered 200, a refresh with any
    token that belonged to the user is answered 401: the old sessions
    cannot mint access tokens any more. *)
Theorem password_change_ends_the_sessions_of_the_user (e : env) (c : crypto)
    (req : request) (w w' : world) (r : response)
    (token : string) (row : token_row) (req2 : request) :
  updatePassword e c req w = (Returned r, w') ->
  status r = 200 ->
  hd_error (filter (fun t => (t_token t =? token)%string) (refresh_tokens w))
  = Some row ->
  t_user_id row = param req ->
  exists r2 w2,
    refreshToken e (refresh_with token req2) w' = (Returned r2, w2)
    /\ status r2 = 401 /\ data r2 = NoData.
Proof.
  intros Hrun Hs Hrow Hid.
  pose proof (Wp.spec_returned _ _ _ _ _ _ (updatePassword_spec e c req w) Hrun)
    as (H200 & _).
  destruct (H200 Hs) as (p & target & new & _ & _ & _ & _ & _ & _ & Htok).
  apply Wp.spec_caught.
  eapply Wp.spec_from.
  - apply (refresh_of_revoked e _ w' token); [reflexivity |].
    rewrite Htok. unfold tokens_revoked_of.
    rewrite filter_map_same_key
      by (intro x; now destruct (t_user_id x =? param req)%string).
    destruct (filter _ (refresh_tokens w)) as [| t rest]; [discriminate |].
    inversion Hrow; subst t. cbn.
    apply String.eqb_eq in Hid. now rewrite Hid.
  - cbv beta. tauto.
Qed.

End PasswordChangeFacts.

(** ** Sessions *)

Module SessionFacts.
Import Core Http Logic JsString Validation Vocabulary.
Import MessageController UserController Audit AuthMiddleware AuthController.
Import Session Account MiddlewareFacts PasswordChangeFacts.

Lemma logout_spec (e : env) (req : request) (w : world) :
  spec (logout e req) w
    (fun r w' =>
       (status r = 200 \/ status r = 500)
       /\ users w' = users w /\ messages w' = messages w
       /\ (status r = 200 ->
           match field "refreshToken" (body req) with
           | Some v =>
               if truthy (Some v)
               then exists t, pg_text e v = Some t
                              /\ refresh_tokens w'
                                 = token_revoked t (refresh_tokens w)
               else refresh_tokens w' = refresh_tokens w
           | None => refresh_tokens w' = refresh_tokens w
           end))
    caught.
Proof.
  unfold logout, revoke_token, createAuditLog, insert_audit.
  wp; cbn [status failure ok users messages refresh_tokens with_faults
           with_console with_refresh_tokens with_audit_logs] in *.
  all: try (split; [now right |]; split; [reflexivity |];
            split; [reflexivity | discriminate]).
  all: split; [now left |]; split; [reflexivity |]; split; [reflexivity |].
  all: intros _; try reflexivity.
  all: eexists; split; reflexivity.
Qed.

Lemma hd_filter_token_revoked (token : string) (l : list token_row) :
  match hd_error (filter (fun t => (t_token t =? token)%string)
                         (token_revoked token l)) with
  | Some row => t_is_revoked row = true
  | None => True
  end.
Proof.
  unfold token_revoked. induction l as [| a l IH]; simpl; [exact I |].
  destruct (t_token a =? token)%string eqn:E; simpl.
  - now rewrite E.
  - rewrite E. exact IH.
Qed.

(** X20.  A logout with a refresh token (a non-empty string, stored as it is)
    is answered 200 or 500 and never touches the users.  When it is
    answered 200, every record of that token is revoked, the other
    records are as they were, and a refresh with that token is answered
    401 from then on. *)
Theorem logout_revokes_the_presented_token (e : env) (req : request)
    (w : world) (token : string) :
  field "refreshToken" (body req) = Some (JStr token) ->
  token <> "" ->
  pg_text e (JStr token) = Some token ->
  exists r w',
    logout e req w = (Returned r, w')
    /\ (status r = 200 \/ status r = 500)
    /\ users w' = users w
    /\ (status r = 200 ->
        refresh_tokens w' = token_revoked token (refresh_tokens w)
        /\ forall req2,
             exists r2 w2,
               refreshToken e (refresh_with token req2) w' = (Returned r2, w2)
               /\ status r2 = 401 /\ data r2 = NoData).
Proof.
  intros Hf Hne Hpg.
  destruct (Wp.spec_caught _ _ _ (logout_spec e req w))
    as (r & w' & Hrun & Hst & Hu & _ & H200).
  exists r, w'. split; [exact Hrun |]. split; [exact Hst |].
  split; [exact Hu |]. intro Hs. specialize (H200 Hs).
  rewrite Hf in H200. cbn [truthy] in H200.
  apply String.eqb_neq in Hne. rewrite Hne in H200. cbn in H200.
  destruct H200 as (t & Ht & Htok). rewrite Hpg in Ht. inversion Ht; subst t.
  split; [exact Htok |]. intro req2.
  apply Wp.spec_caught. eapply Wp.spec_from.
  - apply (refresh_of_revoked e _ w' token); [reflexivity |].
    rewrite Htok. apply hd_filter_token_revoked.
  - cbv beta. tauto.
Qed.

Lemma login_recorded_apart (user : user_row) (t : Z) (l : list user_row) :
  map apart_from_login (login_recorded user t l) = map apart_from_login l.
Proof.
  unfold login_recorded. rewrite map_map. apply map_ext. intro u.
  now destruct (u_id u =? u_id user)%string.
Qed.

Lemma login_spec (e : env) (c : crypto) (req : request) (w : world) :
  spec (login e c req) w
    (fun r w' =>
       In (lr_status r) [200; 401; 500]
       /\ map apart_from_login (users w') = map apart_from_login (users w)
       /\ (lr_status r = 401 ->
           users w' = users w
           /\ lr_data r = None /\ refresh_tokens w' = refresh_tokens w
           /\ (lr_message r = "Invalid email or password"
               \/ lr_message r = "Account is not active"))
       /\ (lr_status r = 500 -> lr_data r = None)
       /\ (lr_status r = 200 ->
           exists email password u,
             field "email" (body req) = Some (JStr email)
             /\ field "password" (body req) = Some (JStr password)
             /\ hd_error (filter (fun u => (u_email u =? trim (toLowerCase email))%string)
                                 (users w)) = Some u
             /\ u_status u = "active"
             /\ bcrypt_compare c password (u_password_hash u) = true
             /\ lr_data r
                = Some {| ld_user := token_user_of u;
                          ld_accessToken := sign_access e (u_id u);
                          ld_refreshToken := sign_refresh c (u_id u) |}
             /\ users w' = login_recorded u (now w) (users w)
             /\ refresh_tokens w'
                = refresh_tokens w
                  ++ [{| t_token := sign_refresh c (u_id u);
                         t_user_id := u_id u;
                         t_expires_at := seven_days_later c (now w);
                         t_is_revoked := false |}]))
    caught.
Proof.
  unfold login, string_of, select_user_by_email, record_login, generateTokens,
    storeRefreshToken, createAuditLog, insert_audit.
  wp; cbn [lr_status lr_data lr_message login_failure users refresh_tokens now
           with_faults with_console with_users with_refresh_tokens
           with_audit_logs] in *.
  all: split; [cbn; tauto |].
  all: split; [first [reflexivity | apply login_recorded_apart] |].
  all: split; [first [discriminate | intros _; auto] |].
  all: split; [first [discriminate | reflexivity] |].
  all: try discriminate.
  all: intros _.
  all: match goal with
       | He : field "email" _ = Some (JStr ?a),
         Hp : field "password" _ = Some (JStr ?b),
         Hu : filter _ _ = ?u :: _ |- _ => exists a, b, u; rewrite Hu
       end.
  all: split; [reflexivity |]; split; [reflexivity |];
    split; [reflexivity |].
  all: split;
    [ match goal with
      | Hs : negb (_ =? "active")%string = false |- _ =>
          apply negb_false_iff in Hs; now apply String.eqb_eq in Hs
      end |].
  all: split;
    [ match goal with
      | Hc : negb (bcrypt_compare _ _ _) = false |- _ =>
          now apply negb_false_iff in Hc
      end |].
  all: split; [reflexivity |]; split; reflexivity.
Qed.


(** X22.  An unknown email and a wrong password are answered alike: the two
    runs from the same world give the same response, the 401 [Invalid
    email or password] (or both the 500 of a lost [SELECT]). *)
Theorem login_answers_unknown_email_like_wrong_password (e : env) (c : crypto)
    (req1 req2 : request) (w : world) (email1 email2 password : string)
    (u : user_row) :
  field "email" (body req1) = Some (JStr email1) ->
  filter (fun u => (u_email u =? trim (toLowerCase email1))%string) (users w)
  = [] ->
  field "email" (body req2) = Some (JStr email2) ->
  hd_error (filter (fun u => (u_email u =? trim (toLowerCase email2))%string)
                   (users w)) = Some u ->
  u_status u = "active" ->
  field "password" (body req2) = Some (JStr password) ->
  bcrypt_compare c password (u_password_hash u) = false ->
  fst (login e c req1 w) = fst (login e c req2 w)
  /\ same_tables w (snd (login e c req1 w))
  /\ same_tables w (snd (login e c req2 w)).
Proof.
  intros He1 Hnone He2 Hu Hact Hp Hwrong.
  unfold login, string_of, select_user_by_email.
  rewrite He1, He2, Hp. run.
  destruct (filter _ (users w)) as [| u' rest] eqn:Hf in Hu; [discriminate |].
  inversion Hu; subst u'.
  apply String.eqb_eq in Hact.
  destruct (faults w) as [| [|] plan]; cbn -[filter trim toLowerCase];
    rewrite ?Hnone, ?Hf; cbn -[filter trim toLowerCase];
    rewrite ?Hact, ?Hwrong; cbn; repeat split.
Qed.

End SessionFacts.

Module LoginRefreshFacts.
Import Core Http Logic JsString Validation Vocabulary.
Import MessageController UserController Audit AuthMiddleware AuthController.
Import Session Account MiddlewareFacts PasswordChangeFacts SessionFacts.

Lemma filter_app_none {A} (p : A -> bool) (l : list A) (x : A) :
  filter p l = [] -> p x = true -> filter p (l ++ [x]) = [x].
Proof.
  intros Hl Hx. rewrite filter_app, Hl. simpl. now rewrite Hx.
Qed.

Lemma login_keeps_the_clock (e : env) (c : crypto) (req : request) (w : world) :
  spec (login e c req) w (fun _ w' => now w' = now w) caught.
Proof.
  unfold login, string_of, select_user_by_email, record_login, generateTokens,
    storeRefreshToken, createAuditLog, insert_audit.
  wp; reflexivity.
Qed.

(** X23.  The refresh token of a login that was answered 200 can be used at
    once: when the token is new to the table, the two secrets of the
    token library agree on it, seven days later is no earlier than now
    and no statement of the refresh is lost, the refresh is answered 200
    with an access token for the user who logged in; that the login has
    recorded itself in the row of the user does not stand in the way. *)
Theorem login_then_refresh_is_answered_200 (e : env) (c : crypto)
    (req req2 : request) (w w' : world) (r : login_response) (d : login_data) :
  login e c req w = (Returned r, w') ->
  lr_data r = Some d ->
  filter (fun t => (t_token t =? ld_refreshToken d)%string) (refresh_tokens w)
  = [] ->
  ld_refreshToken d <> "" ->
  verify_refresh e (ld_refreshToken d) = Verified (tu_id (ld_user d)) ->
  (now w <= seven_days_later c (now w))%Z ->
  faults w' = [] ->
  exists u w2,
    refreshToken e (refresh_with (ld_refreshToken d) req2) w'
    = (Returned (ok None (TokenData (sign_access e (u_id u)) (token_user_of u))),
       w2)
    /\ u_id u = tu_id (ld_user d) /\ In u (users w) /\ u_status u = "active".
Proof.
  intros Hrun Hd Hfresh Hne Hver Hexp Hfaults.
  pose proof (Wp.spec_returned _ _ _ _ _ _ (login_keeps_the_clock e c req w) Hrun)
    as Hnow. cbv beta in Hnow.
  pose proof (Wp.spec_returned _ _ _ _ _ _ (login_spec e c req w) Hrun)
    as (Hst & _ & H401 & H500 & H200).
  assert (Hs : lr_status r = 200).
  { cbn in Hst. destruct Hst as [H | [H | [H | []]]]; auto; symmetry in H.
    - destruct (H401 H) as (_ & Hn & _). congruence.
    - specialize (H500 H). congruence. }
  destruct (H200 Hs)
    as (email & password & u & _ & _ & Hhd & Hact & _ & Hdata & Hu & Htok).
  rewrite Hd in Hdata. inversion Hdata; subst d; clear Hdata.
  cbn [ld_refreshToken ld_user token_user_of tu_id] in *.
  destruct (filter _ (users w)) as [| u0 rest] eqn:Hf in Hhd; [discriminate |].
  inversion Hhd; subst u0; clear Hhd.
  apply filter_head in Hf. destruct Hf as [Hin _].
  assert (Hsel0 : exists u0 rest0,
            filter (fun x => (u_id x =? u_id u)%string
                             && (u_status x =? "active")%string) (users w)
            = u0 :: rest0).
  { clear - Hin Hact.
    induction (users w) as [| a l IH]; [destruct Hin |].
    simpl. destruct ((u_id a =? u_id u)%string && (u_status a =? "active")%string)
      eqn:E; [eauto |].
    destruct Hin as [-> | Hin]; [| auto].
    rewrite String.eqb_refl, Hact in E. discriminate. }
  destruct Hsel0 as (u0 & rest0 & Hsel0).
  pose proof (filter_head _ _ _ _ Hsel0) as [Hin0 Hc0].
  apply andb_true_iff in Hc0. destruct Hc0 as [Hid0 Hst0].
  assert (Hsel : filter (fun x => (u_id x =? u_id u)%string
                                  && (u_status x =? "active")%string) (users w')
                 = with_login (now w) (next_login_count u) u0
                   :: map (fun x => if (u_id x =? u_id u)%string
                                    then with_login (now w) (next_login_count u) x
                                    else x) rest0).
  { rewrite Hu. unfold login_recorded.
    rewrite filter_map_same_key, Hsel0;
      [cbn [map]; cbv beta; rewrite Hid0; reflexivity |].
    intro x. cbv beta.
    destruct (u_id x =? u_id u)%string eqn:E;
      cbn [with_login u_id u_status]; rewrite ?E; reflexivity. }
  apply String.eqb_eq in Hid0, Hst0.
  exists u0. eexists. split; [| auto].
  unfold refreshToken, refresh_with, select_token, select_active_user.
  cbn [body with_body field String.eqb Ascii.eqb Bool.eqb truthy negb].
  apply String.eqb_neq in Hne. rewrite Hne. cbn [negb].
  run. rewrite Hver. cbn beta iota. rewrite Hfaults.
  rewrite Htok, (filter_app_none _ _ _ Hfresh)
    by (cbn; now rewrite String.eqb_refl).
  cbn [t_is_revoked t_expires_at orb].
  rewrite Hnow.
  assert (Hlt : (seven_days_later c (now w) <? now w)%Z = false)
    by (apply Z.ltb_ge; exact Hexp).
  rewrite Hlt. cbn beta iota. rewrite Hfaults. cbn beta iota.
  cbn [token_user_of tu_id]. rewrite Hsel. reflexivity.
Qed.

End LoginRefreshFacts.

(** ** The plain-text sanitizer *)

Module SanitizerFacts.
Import Core Http Logic JsString JsStringFacts Validation Sanitizer.

Lemma Subseq_refl (l : list ascii) : Subseq l l.
Proof. induction l; constructor; auto. Qed.

Lemma Subseq_trans (a b c : list ascii) :
  Subseq a b -> Subseq b c -> Subseq a c.
Proof.
  intros Hab Hbc. revert a Hab.
  induction Hbc as [| x b c Hbc IH | x b c Hbc IH]; intros a Hab.
  - exact Hab.
  - inversion Hab; subst; constructor; auto.
  - constructor. auto.
Qed.

Lemma Subseq_In (a b : list ascii) (c : ascii) :
  Subseq a b -> In c a -> In c b.
Proof.
  induction 1; simpl; intuition.
Qed.

Lemma Subseq_app_l (a t : list ascii) : Subseq a (a ++ t).
Proof.
  induction a; simpl.
  - induction t; constructor; auto.
  - now constructor.
Qed.

Lemma Subseq_app_r (a t : list ascii) : Subseq a (t ++ a).
Proof. induction t; simpl; [apply Subseq_refl | now constructor]. Qed.

Lemma Subseq_filter (p : ascii -> bool) (l : list ascii) : Subseq (filter p l) l.
Proof.
  induction l as [| c l IH]; simpl; [constructor |].
  destruct (p c); now constructor.
Qed.

Lemma drop_while_suffix (p : ascii -> bool) (l : list ascii) :
  exists a, l = a ++ drop_while p l.
Proof.
  induction l as [| c l [a IH]]; simpl; [now exists [] |].
  destruct (p c).
  - exists (c :: a). simpl. now f_equal.
  - now exists [].
Qed.

Lemma Subseq_trim (s : string) : Subseq (chars (trim s)) (chars s).
Proof.
  unfold trim. rewrite chars_of_chars.
  destruct (drop_while_suffix is_space (chars s)) as [a Ha].
  destruct (drop_while_suffix is_space (rev (drop_while is_space (chars s))))
    as [b Hb].
  apply (f_equal (@rev ascii)) in Hb. rewrite rev_involutive, rev_app_distr in Hb.
  eapply Subseq_trans; [| rewrite Ha; apply Subseq_app_r].
  rewrite Hb at 2. apply Subseq_app_l.
Qed.

Lemma Subseq_delete_matches (m : list ascii -> option nat) (l : list ascii) :
  forall skip, Subseq (delete_matches m skip l) l.
Proof.
  induction l as [| c l IH]; intro skip; simpl; [constructor |].
  destruct skip as [| k]; [| constructor; apply IH].
  destruct (m (c :: l)) as [[| n] |]; constructor; apply IH.
Qed.

Lemma delete_matches_nothing (m : list ascii -> option nat)
    (bad : ascii -> bool) (l : list ascii) :
  (forall l' n, m l' = Some n -> exists c, In c l' /\ bad c = true) ->
  (forall c, In c l -> bad c = false) ->
  delete_matches m 0 l = l.
Proof.
  intros Hm. induction l as [| c l IH]; intro Hl; simpl; [reflexivity |].
  destruct (m (c :: l)) as [n |] eqn:E.
  - destruct (Hm _ _ E) as (x & Hx & Hbad).
    rewrite (Hl x Hx) in Hbad. discriminate.
  - f_equal. apply IH. intros x Hx. apply Hl. now right.
Qed.

Lemma same_letter_colon (c : ascii) :
  same_letter ":" c = true -> code c = 58.
Proof.
  destruct c as [[] [] [] [] [] [] [] []]; vm_compute;
    intro H; first [reflexivity | discriminate H].
Qed.

Lemma starts_with_In (literal l : list ascii) (p : ascii) :
  starts_with literal l = true -> In p literal ->
  exists c, In c l /\ same_letter p c = true.
Proof.
  revert l. induction literal as [| q literal IH]; intros l H Hin;
    [destruct Hin |].
  destruct l as [| c l]; [discriminate |]. simpl in H.
  apply andb_true_iff in H. destruct H as [Hq Hrest].
  destruct Hin as [-> | Hin].
  - exists c. split; [now left | exact Hq].
  - destruct (IH l Hrest Hin) as (x & Hx & Hs). exists x. split; [now right | exact Hs].
Qed.

Lemma match_protocol_needs_colon (l : list ascii) (n : nat) :
  match_protocol l = Some n -> exists c, In c l /\ is_markup c = true.
Proof.
  unfold match_protocol.
  destruct (starts_with (chars "javascript:") l) eqn:E; [| discriminate].
  intros _. destruct (starts_with_In _ l ":"%char E) as (c & Hc & Hs).
  { cbn. tauto. }
  exists c. split; [exact Hc |]. apply same_letter_colon in Hs.
  unfold is_markup. rewrite Hs. reflexivity.
Qed.

Lemma In_skipn {A} (n : nat) (l : list A) (x : A) : In x (skipn n l) -> In x l.
Proof.
  revert l. induction n as [| n IH]; intros l H; [exact H |].
  destruct l as [| a l]; [destruct H |]. right. now apply IH.
Qed.

Lemma match_handler_needs_equals (l : list ascii) (n : nat) :
  match_handler l = Some n -> exists c, In c l /\ is_markup c = true.
Proof.
  unfold match_handler.
  destruct l as [| o [| k rest]]; try discriminate.
  destruct (same_letter "o" o && same_letter "n" k); [| discriminate].
  cbv zeta.
  destruct (count_while is_word rest) as [| words]; [discriminate |].
  destruct (skipn _ (skipn (S words) rest)) as [| c t] eqn:E; [discriminate |].
  destruct (code c =? 61) eqn:Hc; [| discriminate].
  intros _. exists c. split.
  - right. right. eapply In_skipn, In_skipn. rewrite E. now left.
  - unfold is_markup. rewrite Hc. now rewrite !orb_true_r.
Qed.

(** X24.  [sanitizeText] only deletes: its result is the text with some
    characters left out and holds no angle bracket; what is no string (or
    the empty one) becomes the empty string; and a text without angle
    brackets, colons and equals signs is only trimmed. *)
Theorem sanitizeText_only_deletes (text : option json) :
  (forall c, In c (chars (sanitizeText text)) -> is_angle c = false)
  /\ match text with
     | Some (JStr s) =>
         Subseq (chars (sanitizeText text)) (chars s)
         /\ ((forall c, In c (chars s) -> is_markup c = false) ->
             sanitizeText text = trim s)
     | _ => sanitizeText text = ""
     end.
Proof.
  destruct text as [[| | | s | |] |]; try (split; [intros c [] | reflexivity]).
  unfold sanitizeText.
  destruct (s =? "")%string eqn:Es.
  { apply String.eqb_eq in Es. subst s. split; [intros c [] |].
    split; [constructor | reflexivity]. }
  set (t := chars (delete_class is_angle (trim s))).
  assert (Ht : Subseq t (chars s)).
  { unfold t, delete_class. rewrite chars_of_chars.
    eapply Subseq_trans; [apply Subseq_filter | apply Subseq_trim]. }
  assert (Hsub : Subseq (delete_matches match_handler 0
                           (delete_matches match_protocol 0 t)) t).
  { eapply Subseq_trans; apply Subseq_delete_matches. }
  rewrite chars_of_chars. split; [| split].
  - intros c Hc. apply (Subseq_In _ _ _ Hsub) in Hc.
    unfold t, delete_class in Hc. rewrite chars_of_chars in Hc.
    apply filter_In in Hc. now apply negb_true_iff.
  - eapply Subseq_trans; eassumption.
  - intro Hclean.
    assert (Hclean' : forall c, In c t -> is_markup c = false).
    { intros c Hc. apply Hclean. eapply Subseq_In; eassumption. }
    rewrite (delete_matches_nothing match_protocol is_markup t
               match_protocol_needs_colon Hclean').
    rewrite (delete_matches_nothing match_handler is_markup t
               match_handler_needs_equals Hclean').
    unfold t, delete_class. rewrite chars_of_chars.
    rewrite <- (of_chars_chars (trim s)) at 2. f_equal.
    apply forallb_filter_id. apply forallb_forall. intros c Hc.
    apply negb_true_iff.
    assert (Hm : is_markup c = false)
      by (apply Hclean; eapply Subseq_In; [apply Subseq_trim | exact Hc]).
    unfold is_markup in Hm. unfold is_angle.
    destruct (code c =? 60); [discriminate |].
    destruct (code c =? 62); [discriminate | reflexivity].
Qed.

End SanitizerFacts.

(** ** Updating a message *)

Module MessageUpdateFacts.
Import Core Http Logic JsString Slug Validation Vocabulary.
Import MessageController Audit UserFacts SlugFacts CreateFacts UpdateFacts.
Import MiddlewareFacts.

Lemma set_column_is_not_kept (col : string) :
  In col message_set_columns -> ~ In col kept_columns.
Proof.
  intros H Hk. cbn in H, Hk.
  repeat match type of Hk with
         | _ \/ _ => destruct Hk as [Hk | Hk]
         end; try contradiction; subst col; intuition discriminate.
Qed.

(** A [SET] of a column other than the five leaves them as they are; a
    [SET] of one of them does not. *)
Lemma set_message_column_kept (e : env) (col : string) (v : cell)
    (m m' : message_row) :
  ~ In col kept_columns ->
  set_message_column e col v m = Some m' -> kept m' = kept m.
Proof.
  intro Hk.
  assert (H1 : (col =? "id")%string = false)
    by (apply String.eqb_neq; intro; subst; apply Hk; cbn; tauto).
  assert (H2 : (col =? "author_id")%string = false)
    by (apply String.eqb_neq; intro; subst; apply Hk; cbn; tauto).
  assert (H3 : (col =? "view_count")%string = false)
    by (apply String.eqb_neq; intro; subst; apply Hk; cbn; tauto).
  assert (H4 : (col =? "like_count")%string = false)
    by (apply String.eqb_neq; intro; subst; apply Hk; cbn; tauto).
  assert (H5 : (col =? "comment_count")%string = false)
    by (apply String.eqb_neq; intro; subst; apply Hk; cbn; tauto).
  cbv beta zeta delta [set_message_column]. rewrite H1, H2, H3, H4, H5.
  destruct (negb _); [discriminate |]. cbv beta iota.
  set_column_cases.
  intro H; inversion H; reflexivity.
Qed.

Lemma set_message_columns_kept (e : env) (updates : list (string * cell)) :
  names_within message_set_columns updates ->
  forall m m', set_message_columns e updates m = Some m' -> kept m' = kept m.
Proof.
  unfold names_within.
  induction updates as [| [col v] rest IH]; simpl; intros Hk m m' H.
  - now inversion H.
  - destruct (set_message_column e col v m) as [m1 |] eqn:E; [| discriminate].
    rewrite (IH (fun c Hc => Hk c (or_intror Hc)) _ _ H).
    eapply set_message_column_kept; [| exact E].
    apply set_column_is_not_kept, Hk. now left.
Qed.

Lemma set_message_column_slug (e : env) (col : string) (v : cell)
    (m m' : message_row) :
  set_message_column e col v m = Some m' ->
  Some (m_slug m')
  = if (col =? "slug")%string then as_text e v else Some (m_slug m).
Proof.
  cbv beta zeta delta [set_message_column].
  destruct (negb _); [discriminate |].
  destruct (col =? "slug")%string; cbv beta iota.
  - destruct (as_text e v) as [sl |]; set_column_cases;
      intro H; inversion H; reflexivity.
  - set_column_cases. intro H; inversion H; reflexivity.
Qed.

Lemma set_message_columns_no_slug (e : env) (updates : list (string * cell)) :
  forall m m',
    slug_entries updates = [] ->
    set_message_columns e updates m = Some m' -> m_slug m' = m_slug m.
Proof.
  induction updates as [| [col v] rest IH]; simpl; intros m m' Hn H.
  - now inversion H.
  - destruct (set_message_column e col v m) as [m1 |] eqn:E; [| discriminate].
    apply set_message_column_slug in E.
    unfold slug_entries in Hn. cbn [filter fst] in Hn.
    destruct (col =? "slug")%string; [discriminate |].
    rewrite (IH _ _ Hn H). congruence.
Qed.

Lemma set_message_columns_one_slug (e : env) (updates : list (string * cell))
    (s : string) :
  forall m m',
    slug_entries updates = [("slug", CText s)] ->
    set_message_columns e updates m = Some m' -> m_slug m' = s.
Proof.
  induction updates as [| [col v] rest IH]; simpl; intros m m' Hn H.
  - discriminate.
  - destruct (set_message_column e col v m) as [m1 |] eqn:E; [| discriminate].
    apply set_message_column_slug in E.
    unfold slug_entries in Hn. cbn [filter fst] in Hn.
    destruct (col =? "slug")%string.
    + injection Hn as _ Hv Hrest. subst v. cbn in E.
      rewrite (set_message_columns_no_slug e rest _ _ Hrest H). congruence.
    + now apply (IH m1).
Qed.

Lemma slug_plan_after (e : env) (id : string) (rows : list message_row)
    (title : option json) (old new : message_row)
    (updates : list (string * cell)) :
  slug_plan id rows title old updates ->
  set_message_columns e updates old = Some new ->
  slug_after id rows title old (m_slug new).
Proof.
  unfold slug_plan, slug_after. intros Hp Hs.
  destruct title as [[| | | t | |] |];
    try exact (set_message_columns_no_slug e updates old new Hp Hs).
  destruct (t =? m_title old)%string;
    [exact (set_message_columns_no_slug e updates old new Hp Hs) |].
  destruct Hp as (k & Hk & Hfree & Hall). exists k.
  split; [| split; assumption].
  exact (set_message_columns_one_slug e updates _ old new Hk Hs).
Qed.

Lemma slug_entries_app (a b : list (string * cell)) :
  slug_entries (a ++ b) = slug_entries a ++ slug_entries b.
Proof. apply filter_app. Qed.

Lemma slug_entries_assign (allowed : list string) (col : string)
    (v : option json) :
  col <> "slug" -> slug_entries (assign allowed col v) = [].
Proof.
  intro H. unfold assign. destruct v; [| reflexivity].
  destruct (includes allowed col); [| reflexivity].
  unfold slug_entries. cbn. apply String.eqb_neq in H. now rewrite H.
Qed.

(** The assembly of the [SET] clause, as a step of the handler: what it
    holds about the slug. *)
Lemma spec_message_updates_slug (u : principal) (id : string) (old : message_row)
    (b : list (string * json)) (w : world)
    (Q : list (string * cell) -> world -> Prop) (E : exn -> world -> Prop) :
  (forall plan, E SqlError (with_faults plan w)) ->
  (forall plan, E TypeError (with_faults plan w)) ->
  (forall plan updates,
     slug_plan id (messages w) (field "title" b) old updates ->
     Q updates (with_faults plan w)) ->
  spec (message_updates u id old b) w Q E.
Proof.
  intros Hsql Htype HQ.
  assert (Hhere : forall updates,
            slug_plan id (messages w) (field "title" b) old updates ->
            Q updates w).
  { intros updates Hp. rewrite <- (Wp.with_faults_same w). now apply HQ. }
  assert (Htype' : E TypeError w).
  { rewrite <- (Wp.with_faults_same w). apply Htype. }
  assert (Hrest : forall titled,
            slug_entries
              (titled
               ++ assign ALLOWED_MESSAGE_UPDATE_FIELDS "content" (field "content" b)
               ++ assign ALLOWED_MESSAGE_UPDATE_FIELDS "excerpt" (field "excerpt" b)
               ++ assign ALLOWED_MESSAGE_UPDATE_FIELDS "category_id"
                    (field "categoryId" b))
            = slug_entries titled).
  { intro titled. rewrite !slug_entries_app.
    rewrite !slug_entries_assign by discriminate. now rewrite !List.app_nil_r. }
  assert (Hgated : forall plain t,
            slug_entries
              (plain
               ++ assign ALLOWED_MESSAGE_UPDATE_FIELDS "is_featured"
                    (field "isFeatured" b)
               ++ assign ALLOWED_MESSAGE_UPDATE_FIELDS "is_pinned"
                    (field "isPinned" b)
               ++ match field "status" b with
                  | Some status =>
                      if includes ALLOWED_MESSAGE_UPDATE_FIELDS "status" then
                        ("status", CJson status)
                        :: (if is_string "active" status
                               && negb (m_status old =? "active")%string
                            then [("published_at", CDate t)] else [])
                      else []
                  | None => []
                  end)
            = slug_entries plain).
  { intros plain t. rewrite !slug_entries_app.
    rewrite !slug_entries_assign by discriminate.
    destruct (field "status" b) as [st |]; cbn;
      [destruct (is_string "active" st && _) |]; cbn;
      now rewrite !List.app_nil_r. }
  unfold message_updates, slug_of_title.
  change (includes ALLOWED_MESSAGE_UPDATE_FIELDS "title") with true.
  cbv iota.
  destruct (field "title" b) as [title |] eqn:Ht.
  - destruct (is_string (m_title old) title) eqn:Hsame.
    + wp; apply Hhere; unfold slug_plan;
        rewrite ?Hgated, Hrest;
        destruct title; try reflexivity; cbn in Hsame; now rewrite Hsame.
    + destruct title as [| | | t | |];
        wp_loops; try exact Htype'; try apply Hsql.
      all: apply HQ; unfold slug_plan; cbn in Hsame; rewrite Hsame;
        eexists; rewrite ?Hgated, Hrest; split; [reflexivity | auto].
  - wp; apply Hhere; unfold slug_plan; rewrite ?Hgated, Hrest; reflexivity.
Qed.

Lemma names_within_nil (columns : list string) : names_within columns [].
Proof. intros col []. Qed.

Lemma names_within_cons (columns : list string) (col : string) (v : cell)
    (rest : list (string * cell)) :
  In col columns -> names_within columns rest ->
  names_within columns ((col, v) :: rest).
Proof. intros H Hr c [<- | Hc]; auto. Qed.

Lemma names_within_app (columns : list string) (a b : list (string * cell)) :
  names_within columns a -> names_within columns b ->
  names_within columns (a ++ b).
Proof.
  intros Ha Hb col Hin. rewrite map_app, in_app_iff in Hin.
  destruct Hin; auto.
Qed.

Lemma names_within_assign (col : string) (v : option json) :
  names_within message_set_columns (assign ALLOWED_MESSAGE_UPDATE_FIELDS col v).
Proof.
  intros k Hin. apply keys_of_assign in Hin.
  unfold message_set_columns. apply in_or_app. tauto.
Qed.

(** What the [SET] clause names: columns of the allow-list, [slug] and
    [published_at], and nothing else. *)
Lemma message_updates_within (u : principal) (id : string) (old : message_row)
    (b : list (string * json)) (w : world) :
  spec (message_updates u id old b) w
    (fun updates _ => names_within message_set_columns updates)
    (fun _ _ => True).
Proof.
  unfold message_updates, slug_of_title.
  change (includes ALLOWED_MESSAGE_UPDATE_FIELDS "title") with true.
  change (includes ALLOWED_MESSAGE_UPDATE_FIELDS "status") with true.
  cbv iota.
  assert (Hst : forall t,
            names_within message_set_columns
              match field "status" b with
              | Some status =>
                  ("status", CJson status)
                  :: (if is_string "active" status
                         && negb (m_status old =? "active")%string
                      then [("published_at", CDate t)] else [])
              | None => []
              end).
  { intro t. destruct (field "status" b) as [st |];
      [| apply names_within_nil].
    apply names_within_cons; [cbn; tauto |].
    destruct (is_string "active" st && _);
      [apply names_within_cons; [cbn; tauto |] |]; apply names_within_nil. }
  destruct (field "title" b) as [title |];
    [destruct (is_string (m_title old) title);
     [| destruct title as [| | | t | |]] |];
    wp_loops; try exact I.
  all: repeat first
         [ apply names_within_app
         | apply names_within_assign
         | apply Hst
         | apply names_within_nil
         | apply names_within_cons; [cbn; tauto |] ].
Qed.

(** The assembly of the [SET] clause, as a step of the handler. *)
Lemma spec_message_updates (u : principal) (id : string) (old : message_row)
    (b : list (string * json)) (w : world)
    (Q : list (string * cell) -> world -> Prop) (E : exn -> world -> Prop) :
  (forall plan, E SqlError (with_faults plan w)) ->
  (forall plan, E TypeError (with_faults plan w)) ->
  (forall plan updates,
     slug_plan id (messages w) (field "title" b) old updates ->
     names_within message_set_columns updates ->
     Q updates (with_faults plan w)) ->
  spec (message_updates u id old b) w Q E.
Proof.
  intros Hsql Htype HQ.
  pose proof (message_updates_within u id old b w) as Hw.
  pose proof (spec_message_updates_slug u id old b w
                (fun updates w' =>
                   names_within message_set_columns updates -> Q updates w')
                E Hsql Htype
                (fun plan updates Hp Hn => HQ plan updates Hp Hn)) as Hs.
  unfold spec in *.
  destruct (message_updates u id old b w) as [[updates | x |] w']; auto.
Qed.

Lemma update_rows_returned {R} (sel : R -> bool) (set : R -> option R) :
  forall rows table returned,
    update_rows sel set rows = Some (table, returned) ->
    Forall2 (fun r r' => set r = Some r') (filter sel rows) returned.
Proof.
  induction rows as [| r rows IH]; simpl; intros table returned H.
  - inversion H. constructor.
  - destruct (update_rows sel set rows) as [[t' out] |]; [| discriminate].
    specialize (IH _ _ eq_refl).
    destruct (sel r).
    + destruct (set r) as [r1 |] eqn:E; [| discriminate].
      inversion H; subst. now constructor.
    + inversion H; subst. exact IH.
Qed.

Lemma other_messages_untouched_refl (id : string) (rows : list message_row) :
  other_messages_untouched id rows rows.
Proof. induction rows; constructor; auto. Qed.

Lemma update_message_rows (e : env) (id : string)
    (updates : list (string * cell)) (t : Z)
    (rows table returned : list message_row) :
  names_within message_set_columns updates ->
  update_rows (fun m => (m_id m =? id)%string)
    (fun m => option_map (touch_message t) (set_message_columns e updates m))
    rows
  = Some (table, returned) ->
  other_messages_untouched id rows table
  /\ (forall old l,
        filter (fun m => (m_id m =? id)%string) rows = old :: l ->
        exists new rest,
          returned = touch_message t new :: rest
          /\ set_message_columns e updates old = Some new).
Proof.
  intros Hk H. split.
  - apply update_rows_pointwise in H. destruct H as (H1 & _ & _).
    unfold other_messages_untouched.
    induction H1 as [| m m' rows table Hm _ IH]; constructor; [| exact IH].
    destruct (m_id m =? id)%string eqn:E.
    + destruct (set_message_columns e updates m) as [m1 |] eqn:E1;
        [| discriminate].
      inversion Hm; subst m'. split.
      * apply set_message_columns_kept in E1; [| exact Hk].
        rewrite <- E1. reflexivity.
      * apply String.eqb_eq in E. tauto.
    + subst m'. auto.
  - intros old l Hf. apply update_rows_returned in H. rewrite Hf in H.
    inversion H as [| ? new ? rest Hset Hrest]; subst.
    destruct (set_message_columns e updates old) as [m1 |]; [| discriminate].
    inversion Hset; subst. eauto.
Qed.

Ltac wp_update :=
  repeat first
    [ match goal with
      | |- Logic.spec (MessageController.message_updates _ _ _ _) _ _ _ =>
          apply spec_message_updates; [intro | intro | intros ? ? ? ?]
      | |- Logic.spec (MessageController.insert_tags _ _ _) _ _ _ =>
          apply spec_insert_tags;
          let w' := fresh "w'" in
          let Hw := fresh "Hw" in
          intros w' Hw; destruct Hw as (? & ? & ? & ? & ? & ?); split
      end
    | wp_step ].

Lemma updateMessage_spec (e : env) (req : request) (w : world) :
  spec (updateMessage e req) w
    (fun r w' =>
       In (status r) [200; 400; 403; 404; 500]
       /\ other_messages_untouched (param req) (messages w) (messages w')
       /\ users w' = users w
       /\ (status r = 200 ->
           exists p old new,
             user req = Some p
             /\ hd_error (filter (fun m => (m_id m =? param req)%string)
                                 (messages w)) = Some old
             /\ (elevated (Some (p_role p)) = true \/ p_id p = m_author_id old)
             /\ data r = MessageData (view_of new)
             /\ kept new = kept old
             /\ slug_after (param req) (messages w)
                  (field "title" (body req)) old (m_slug new)))
    caught.
Proof.
  unfold updateMessage, select_message, the_user, update_message, delete_tags,
    createAuditLog, insert_audit.
  wp_update.
  all: cbn [status failure ok data users messages with_faults with_console
            with_messages with_message_tags with_audit_logs] in *.
  all: repeat match goal with
              | Hm : messages ?x = _ |- _ => rewrite Hm in *; clear Hm
              | Hm : users ?x = _ |- _ => rewrite Hm in *; clear Hm
              end.
  all: try solve [split; [cbn; tauto |];
                  split; [apply other_messages_untouched_refl |];
                  split; [reflexivity | discriminate]].
  all: try match goal with
           | Hupd : update_rows _ _ _ = Some _ |- _ =>
               apply update_message_rows in Hupd; [| assumption];
               destruct Hupd as (Hun & Hret)
           end.
  all: try solve [split; [cbn; tauto |]; split; [exact Hun |];
                  split; [reflexivity | discriminate]].
  all: split; [cbn; tauto |].
  all: split; [first [exact Hun | apply other_messages_untouched_refl] |].
  all: split; [reflexivity | intros _].
  all: match goal with
       | Hf : filter _ _ = ?m :: _,
         Hu : ?updates = _ \/ True |- _ => idtac
       | Hf : filter _ _ = ?m :: _ |- exists _ _ _, Some ?p = _ /\ _ =>
           exists p, m; rewrite Hf
       end.
  all: eexists; split; [reflexivity |]; split; [reflexivity |].
  all: split;
    [ match goal with
      | Hc : negb (_ || _ || _) = false |- _ =>
          apply negb_false_iff, orb_true_iff in Hc;
          destruct Hc as [Hc | Hc];
          [left; exact Hc | right; now apply String.eqb_eq]
      end |].
  all: split; [reflexivity |].
  all: try match goal with
           | Hf : filter _ _ = ?m :: ?l, Hh : hd_error _ = Some ?m0 |- _ =>
               destruct (Hret m l Hf) as (new & rest & Hl1 & Hset);
               rewrite Hl1 in Hh; inversion Hh; subst m0;
               split;
               [ apply set_message_columns_kept in Hset; [| assumption];
                 rewrite <- Hset; reflexivity
               | cbn [m_slug touch_message];
                 eapply (slug_plan_after e); eassumption ]
           end.
  all: split; [reflexivity |].
  all: eapply (slug_plan_after e); [eassumption |].
  all: match goal with
       | Hl : (0 <? List.length ?u) = false |- _ =>
           destruct u; [reflexivity | discriminate Hl]
       end.
Qed.

(** X25.  An update of a message is answered 200, 400, 403, 404 or 500.
    The [UPDATE] would set the identifier, the author or a counter if the
    [SET] clause named one; the clause the handler builds names only
    columns of the allow-list, [slug] and [published_at].  Hence,
    whatever the answer, no row of [messages] appears or goes, no row
    changes its identifier, its author or its counters, the rows of other
    identifiers are as they were, and no user changes.  A 200 came from
    an administrator, a moderator or the author. *)
Theorem updateMessage_keeps_author_and_counters (e : env) (req : request)
    (w : world) :
  (exists r w',
     updateMessage e req w = (Returned r, w')
     /\ In (status r) [200; 400; 403; 404; 500]
     /\ other_messages_untouched (param req) (messages w) (messages w')
     /\ users w' = users w
     /\ (status r = 200 ->
         exists p old,
           user req = Some p
           /\ hd_error (filter (fun m => (m_id m =? param req)%string)
                               (messages w)) = Some old
           /\ (elevated (Some (p_role p)) = true \/ p_id p = m_author_id old)))
  /\ (forall p old w0 updates w1,
        message_updates p (param req) old (body req) w0 = (Returned updates, w1) ->
        forall col, In col (map fst updates) ->
          In col message_set_columns /\ ~ In col kept_columns)
  /\ (forall author m m',
        set_message_column e "author_id" (CText author) m = Some m' ->
        m_author_id m' = author).
Proof.
  split; [| split].
  - destruct (Wp.spec_caught _ _ _ (updateMessage_spec e req w))
      as (r & w' & Hrun & Hst & Hm & Hu & H200).
    exists r, w'. repeat (split; [assumption |]).
    intro Hs. destruct (H200 Hs) as (p & old & new & H1 & H2 & H3 & _).
    exists p, old. auto.
  - intros p old w0 updates w1 Hrun col Hin.
    pose proof (Wp.spec_returned _ _ _ _ _ _
                  (message_updates_within p (param req) old (body req) w0) Hrun)
      as Hw.
    cbv beta in Hw. specialize (Hw col Hin).
    split; [exact Hw | now apply set_column_is_not_kept].
  - intros author m m' H. cbv in H. now inversion H.
Qed.

(** X26.  The slug after an update that is answered 200: the message the
    answer shows has the slug it had when the payload has no title or the
    title it already had; with another title (a string) it has the first
    of slug, slug-1, slug-2, ... of the new title that no other message
    holds. *)
Theorem updateMessage_renames_to_the_first_free_slug (e : env) (req : request)
    (w w' : world) (r : response) :
  updateMessage e req w = (Returned r, w') ->
  status r = 200 ->
  exists old new,
    hd_error (filter (fun m => (m_id m =? param req)%string) (messages w))
    = Some old
    /\ data r = MessageData (view_of new)
    /\ kept new = kept old
    /\ slug_after (param req) (messages w) (field "title" (body req)) old
         (m_slug new).
Proof.
  intros Hrun Hs.
  pose proof (Wp.spec_returned _ _ _ _ _ _ (updateMessage_spec e req w) Hrun)
    as (_ & _ & _ & H200).
  destruct (H200 Hs) as (p & old & new & _ & H2 & _ & H4 & H5 & H6).
  exists old, new. auto.
Qed.

End MessageUpdateFacts.

(** ** The protected routes *)

Module RouteFacts.
Import Core Http Logic Validation Vocabulary.
Import AuthMiddleware Routes MiddlewareFacts.

Lemma turned_away_by_authenticateToken (e : env) (req : request) (w : world)
    (k : request -> M response) :
  unauthenticated e req w ->
  turned_away (bind (authenticateToken e req) (fun s => and_then s k)) w.
Proof.
  unfold unauthenticated, turned_away, authenticateToken, select_active_user.
  intro H.
  destruct (bearer_token (authorization req)) as [token |]; run.
  2: { eexists; eexists; split; [reflexivity |]. cbn. unfold same_tables. auto 10. }
  destruct (verify_access e token) as [userId | |]; run.
  2, 3: eexists; eexists; (split; [reflexivity |]); cbn; unfold same_tables;
    auto 10.
  destruct (faults w) as [| [|] plan]; cbn -[filter]; rewrite ?H;
    eexists; eexists; (split; [reflexivity |]); cbn; unfold same_tables;
    auto 10.
Qed.

(** X27.  No route behind [authenticateToken] does anything for a request
    without a token that verifies to an active user: the request is
    answered 401 or 403 without data, and no table changes.  This holds
    for the users routes, for logout and the profile, and for the
    deletion of a message. *)
Theorem protected_routes_turn_the_unauthenticated_away (e : env)
    (c : Session.crypto) (req : request) (w : world) :
  unauthenticated e req w ->
  turned_away (get_users e req) w
  /\ turned_away (put_user e req) w
  /\ turned_away (AccountRoutes.get_user e req) w
  /\ turned_away (AccountRoutes.put_user_password e c req) w
  /\ turned_away (AccountRoutes.delete_user e req) w
  /\ turned_away (AccountRoutes.delete_message e req) w
  /\ turned_away (AccountRoutes.post_auth_logout e req) w
  /\ turned_away (AccountRoutes.get_auth_profile e req) w.
Proof.
  intro H. repeat split; apply turned_away_by_authenticateToken; exact H.
Qed.

End RouteFacts.

(** ** Reading the audit trail *)

Module AuditQueryFacts.
Import Core Http Logic JsString JsNumber Vocabulary AuditQuery.

Lemma push_filter_params (v : option json) (condition : string)
    (acc : list string * list json) :
  snd (push_filter v condition acc) = snd acc ++ set_filter v.
Proof.
  unfold push_filter, set_filter. destruct v as [x |].
  - destruct (truthy (Some x)); [reflexivity | now rewrite List.app_nil_r].
  - now rewrite List.app_nil_r.
Qed.

Lemma push_filter_text (v v' : option json) (condition : string)
    (acc acc' : list string * list json) :
  truthy v = truthy v' ->
  fst acc = fst acc' /\ List.length (snd acc) = List.length (snd acc') ->
  fst (push_filter v condition acc) = fst (push_filter v' condition acc')
  /\ List.length (snd (push_filter v condition acc))
     = List.length (snd (push_filter v' condition acc')).
Proof.
  intros Ht [Hf Hl]. unfold push_filter.
  destruct v as [x |], v' as [x' |].
  - rewrite <- Ht. destruct (truthy (Some x)); cbn [fst snd].
    + unfold placeholder. rewrite Hf, Hl, !length_app, Hl. now split.
    + now split.
  - rewrite Ht. cbn. now split.
  - rewrite <- Ht. cbn. now split.
  - now split.
Qed.

(** X28.  [getAuditLogs] never throws: for integer [page] and [limit]
    it returns the logs or the failure object, and changes neither a table nor the audit trail itself.  The
    text of its statements depends only on which filters are set: two
    calls whose filters are set alike have the same conditions and the
    same placeholders for [LIMIT] and [OFFSET]; the values of the filters
    go to the [params] array, in the order of the conditions, and the
    page size is the one given, without a cap. *)
Theorem getAuditLogs_never_throws_and_binds_the_filters (g : audit_engine)
    (f f' : filters) (page limit page' limit' : Z) (w : world) :
  (exists r w',
     getAuditLogs g f page limit w = (Returned r, w')
     /\ same_tables w w' /\ audit_logs w' = audit_logs w)
  /\ aq_params (audit_logs_query f page limit) = set_filters f
  /\ aq_limit (audit_logs_query f page limit) = limit
  /\ (filter_pattern f = filter_pattern f' ->
      aq_where (audit_logs_query f page limit)
      = aq_where (audit_logs_query f' page' limit')
      /\ aq_limit_at (audit_logs_query f page limit)
         = aq_limit_at (audit_logs_query f' page' limit')
      /\ aq_offset_at (audit_logs_query f page limit)
         = aq_offset_at (audit_logs_query f' page' limit')).
Proof.
  split; [| split; [| split; [reflexivity |]]].
  - apply Wp.spec_caught. unfold getAuditLogs.
    set (q := audit_logs_query f page limit). clearbody q.
    repeat first
      [ wp_step
      | match goal with
        | |- context [count_audit g q ?l] =>
            destruct (count_audit g q l); cbn [option_map]
        | |- context [page_of_audit g q ?l ?u] =>
            destruct (page_of_audit g q l u); cbn [option_map]
        end ].
    all: unfold same_tables; cbn; tauto.
  - unfold audit_logs_query, set_filters. cbn [aq_params flat_map].
    rewrite !push_filter_params. cbn [snd app].
    now rewrite <- !List.app_assoc, List.app_nil_r.
  - unfold filter_pattern. cbn [map]. intro H.
    injection H as H1 H2 H3 H4 H5 H6.
    unfold audit_logs_query. cbn [aq_where aq_limit_at aq_offset_at].
    match goal with
    | |- fst ?a = fst ?b /\ _ =>
        assert (Hab : fst a = fst b
                      /\ List.length (snd a) = List.length (snd b))
    end.
    { repeat (apply push_filter_text; [assumption |]). now split. }
    destruct Hab as [Hw Hl]. rewrite Hw, Hl. now repeat split.
Qed.

End AuditQueryFacts.

(** ** The further properties on the sample data *)

Module FurtherWitness.
Import Core Http Logic JsString Validation Vocabulary.
Import AuthMiddleware AuthController MessageController UserController Routes.
Import Session Account.

(** Two searches, one of them hostile, give the same conditions. *)
Lemma where_clause_text_is_independent_of_the_values_witness :
  fst (buildSafeWhereClause "tea" "" "" "ann" None)
  = fst (buildSafeWhereClause "x' OR '1'='1" "" "" "'; DROP TABLE users; --" None)
  /\ snd (buildSafeWhereClause "x' OR '1'='1" "" "" "bob" None)
     = ["%x' OR '1'='1%"; "bob"].
Proof.
  destruct (ClauseFacts.where_clause_text_is_independent_of_the_values
              "tea" "" "" "ann" "" "x' OR '1'='1" "" ""
              "'; DROP TABLE users; --" "" None)
    as (H & _); try reflexivity.
  split; [exact H | reflexivity].
Defined.

(** An anonymous caller asks for a hidden message by its slug. *)
Lemma hidden_message_is_answered_like_a_missing_one_witness :
  let w := with_messages [Sample.post "m2" "Draft" "draft" "hidden" 7]
             Sample.world0 in
  let req := Sample.with_param "draft" Sample.request0 in
  fst (getMessageBySlug req w) = Returned (failure 404 "Message not found")
  /\ messages (snd (getMessageBySlug req w)) = messages w.
Proof.
  intros w req.
  destruct (AccessFacts.hidden_message_is_answered_like_a_missing_one req w)
    as (H & _ & Hm & _).
  - discriminate.
  - vm_compute. repeat split; discriminate.
  - split; [exact H | exact Hm].
Defined.

(** Carol tries to update and to delete a message of Alice. *)
Lemma others_messages_cannot_be_changed_witness :
  let req := Cast.as_carol (Sample.with_param "m1"
               (with_body [("content", JStr "Overwritten")] Sample.request0)) in
  (exists r w', updateMessage Sample.env0 req Cast.world1 = (Returned r, w')
                /\ same_tables Cast.world1 w'
                /\ (status r = 403 \/ status r = 404 \/ status r = 500))
  /\ (exists r w', deleteMessage req Cast.world1 = (Returned r, w')
                   /\ same_tables Cast.world1 w'
                   /\ (status r = 403 \/ status r = 404 \/ status r = 500)).
Proof.
  intro req.
  apply (AccessFacts.others_messages_cannot_be_changed Sample.env0 req
           Cast.world1 (principal_of Cast.carol)).
  - reflexivity.
  - discriminate.
  - discriminate.
  - intros m [<- | []] _. discriminate.
Defined.

(** The administrator deletes Carol; the administrator's own row and
    Alice's stay. *)
Lemma delete_user_route_never_removes_an_administrator_witness :
  let req := Cast.bearer Sample.admin_token
               (Sample.with_param Cast.carol_id Sample.request0) in
  exists r w',
    AccountRoutes.delete_user Sample.env0 req Cast.world1 = (Returned r, w')
    /\ status r = 200
    /\ users w' = [Sample.alice; Sample.admin].
Proof.
  intro req.
  destruct (DeleteFacts.delete_user_route_never_removes_an_administrator
              Sample.env0 req Cast.world1)
    as (r & w' & Hrun & _ & H200).
  - vm_compute. repeat constructor; simpl; intuition discriminate.
  - exists r, w'. split; [exact Hrun |].
    assert (Hs : status r = 200).
    { vm_compute in Hrun. now inversion Hrun. }
    split; [exact Hs |].
    destruct (H200 Hs) as (_ & _ & _ & _ & _ & _ & _ & _ & Hu).
    rewrite Hu. reflexivity.
Defined.

(** Carol changes her password; her refresh token is of no use after. *)
Lemma password_change_ends_the_sessions_of_the_user_witness :
  let req := Cast.as_carol (Sample.with_param Cast.carol_id
               (with_body [("currentPassword", JStr "Secret123");
                           ("newPassword", JStr "Better456x")]
                          Sample.request0)) in
  let res := updatePassword Sample.env0 Cast.crypto0 req Cast.world2 in
  status (Sample.fst_returned res) = 200
  /\ exists r2 w2,
       refreshToken Sample.env0 (refresh_with Cast.carol_token Sample.request0)
         (snd res)
       = (Returned r2, w2)
       /\ status r2 = 401 /\ data r2 = NoData.
Proof.
  intros req res. split; [reflexivity |].
  apply (PasswordChangeFacts.password_change_ends_the_sessions_of_the_user
           Sample.env0 Cast.crypto0 req Cast.world2 (snd res)
           (Sample.fst_returned res) Cast.carol_token
           {| t_token := Cast.carol_token; t_user_id := Cast.carol_id;
              t_expires_at := 2000; t_is_revoked := false |});
    reflexivity.
Defined.

(** The administrator logs out with the live refresh token. *)
Lemma logout_revokes_the_presented_token_witness :
  let req := Sample.as_admin
               (with_body [("refreshToken", JStr Sample.admin_token)]
                          Sample.request0) in
  exists r w',
    logout Sample.env0 req Sample.world0 = (Returned r, w')
    /\ status r = 200
    /\ map t_is_revoked (refresh_tokens w') = [true; true]
    /\ exists r2 w2,
         refreshToken Sample.env0
           (refresh_with Sample.admin_token Sample.request0) w'
         = (Returned r2, w2)
         /\ status r2 = 401 /\ data r2 = NoData.
Proof.
  intro req.
  destruct (SessionFacts.logout_revokes_the_presented_token Sample.env0 req
              Sample.world0 Sample.admin_token)
    as (r & w' & Hrun & _ & _ & H200); try reflexivity; try discriminate.
  exists r, w'. split; [exact Hrun |].
  assert (Hs : status r = 200).
  { vm_compute in Hrun. now inversion Hrun. }
  split; [exact Hs |].
  destruct (H200 Hs) as (Htok & Hrefresh).
  split; [rewrite Htok; reflexivity | apply Hrefresh].
Defined.


(** Nobody's email, and Carol's with a wrong password. *)
Lemma login_answers_unknown_email_like_wrong_password_witness :
  let req1 := with_body [("email", JStr "nobody@example.org");
                         ("password", JStr "Secret123")] Sample.request0 in
  let req2 := with_body [("email", JStr "carol@example.org");
                         ("password", JStr "secret123")] Sample.request0 in
  fst (login Sample.env0 Cast.crypto0 req1 Cast.world1)
  = fst (login Sample.env0 Cast.crypto0 req2 Cast.world1).
Proof.
  intros req1 req2.
  apply (SessionFacts.login_answers_unknown_email_like_wrong_password
           Sample.env0 Cast.crypto0 req1 req2 Cast.world1
           "nobody@example.org" "carol@example.org" "secret123" Cast.carol);
    reflexivity.
Defined.

(** Carol logs in and refreshes at once. *)
Lemma login_then_refresh_is_answered_200_witness :
  let req := with_body [("email", JStr "carol@example.org");
                        ("password", JStr "Secret123")] Sample.request0 in
  let res := login Sample.env0 Cast.crypto0 req Cast.world1 in
  exists u w2,
    refreshToken Sample.env0 (refresh_with Cast.carol_token Sample.request0)
      (snd res)
    = (Returned (ok None (TokenData (sign_access Sample.env0 (u_id u))
                                    (token_user_of u))), w2)
    /\ u_id u = Cast.carol_id.
Proof.
  intros req res.
  destruct (LoginRefreshFacts.login_then_refresh_is_answered_200
              Sample.env0 Cast.crypto0 req Sample.request0 Cast.world1 (snd res)
              {| lr_status := 200; lr_success := true;
                 lr_message := "Login successful";
                 lr_data :=
                   Some {| ld_user := token_user_of Cast.carol;
                           ld_accessToken := sign_access Sample.env0 Cast.carol_id;
                           ld_refreshToken := Cast.carol_token |} |}
              {| ld_user := token_user_of Cast.carol;
                 ld_accessToken := sign_access Sample.env0 Cast.carol_id;
                 ld_refreshToken := Cast.carol_token |})
    as (u & w2 & Hrun & Hid & _); try reflexivity; try discriminate.
  exists u, w2. split; [exact Hrun | exact Hid].
Defined.

(** Alice retitles her message to a title whose slug another message
    holds. *)
Lemma updateMessage_renames_to_the_first_free_slug_witness :
  let w := with_messages
             [Sample.post "m1" "Hello 1" "hello-1" "active" 41;
              Sample.post "m2" "Release notes" "release-notes" "active" 0]
             Sample.world0 in
  let req := Sample.as_alice (Sample.with_param "m1"
               (with_body [("title", JStr "Release Notes!")] Sample.request0)) in
  let res := updateMessage Sample.env0 req w in
  status (Sample.fst_returned res) = 200
  /\ map m_slug (messages (snd res)) = ["release-notes-1"; "release-notes"]
  /\ exists old new,
       data (Sample.fst_returned res) = MessageData (view_of new)
       /\ kept new = kept old
       /\ slug_after "m1" (messages w) (Some (JStr "Release Notes!")) old
            (m_slug new).
Proof.
  intros w req res. split; [reflexivity |]. split; [reflexivity |].
  destruct (MessageUpdateFacts.updateMessage_renames_to_the_first_free_slug
              Sample.env0 req w (snd res) (Sample.fst_returned res))
    as (old & new & _ & Hd & Hk & Hs); try reflexivity.
  exists old, new. auto.
Defined.

(** A request without a token, and one with a forged token. *)
Lemma protected_routes_turn_the_unauthenticated_away_witness :
  turned_away (AccountRoutes.delete_user Sample.env0
                 (Sample.with_param Cast.carol_id Sample.request0))
              Cast.world1
  /\ turned_away (AccountRoutes.put_user_password Sample.env0 Cast.crypto0
                    (Cast.bearer "forged" Sample.request0))
                 Cast.world1.
Proof.
  split.
  - apply (RouteFacts.protected_routes_turn_the_unauthenticated_away
             Sample.env0 Cast.crypto0
             (Sample.with_param Cast.carol_id Sample.request0) Cast.world1).
    exact I.
  - apply (RouteFacts.protected_routes_turn_the_unauthenticated_away
             Sample.env0 Cast.crypto0
             (Cast.bearer "forged" Sample.request0) Cast.world1).
    exact I.
Defined.

(** Alice deletes her message. *)
Lemma deleteMessage_removes_the_rows_of_the_identifier_witness :
  let req := Sample.as_alice (Sample.with_param "m1" Sample.request0) in
  exists r w',
    deleteMessage req Sample.world0 = (Returned r, w')
    /\ status r = 200 /\ messages w' = [].
Proof.
  intro req.
  destruct (AccessFacts.deleteMessage_removes_the_rows_of_the_identifier
              req Sample.world0) as (r & w' & Hrun & H200 & _).
  exists r, w'. split; [exact Hrun |].
  assert (Hs : status r = 200).
  { vm_compute in Hrun. now inversion Hrun. }
  split; [exact Hs |].
  destruct (H200 Hs) as (p & m & _ & _ & _ & Hm). rewrite Hm. reflexivity.
Defined.

(** Alice, of role [user], asks for a hidden message and gets an active
    one. *)
Lemma createMessage_stores_the_callers_message_witness :
  let req := Sample.as_alice
               (with_body [("title", JStr "Hello"); ("content", JStr "Text");
                           ("status", JStr "hidden")] Sample.request0) in
  exists r w',
    createMessage Sample.env0 req Sample.world0 = (Returned r, w')
    /\ status r = 201
    /\ map (fun m => (m_author_id m, m_status m, m_view_count m)) (messages w')
       = [(Sample.alice_id, "active", 41%Z); (Sample.alice_id, "active", 0%Z)].
Proof.
  intro req.
  destruct (CreateFacts.createMessage_stores_the_callers_message
              Sample.env0 req Sample.world0) as (r & w' & Hrun & _ & _ & H201).
  exists r, w'. split; [exact Hrun |].
  assert (Hs : status r = 201).
  { vm_compute in Hrun. now inversion Hrun. }
  split; [exact Hs |].
  destruct (H201 Hs) as (p & row & Hp & Hm & Ha & (Hv & _) & _ & Hrole).
  inversion Hp; subst p.
  destruct (Hrole eq_refl) as (Hst & _). inversion Hst as [Hst'].
  rewrite Hm, map_app. cbn [map]. rewrite Ha, Hv, <- Hst'. reflexivity.
Defined.

(** Carol renames herself. *)
Lemma updateUser_succeeds_only_for_admin_or_self_witness :
  let req := Cast.as_carol (Sample.with_param Cast.carol_id
               (with_body [("username", JStr "carol2")] Sample.request0)) in
  exists r w',
    updateUser Sample.env0 req Cast.world1 = (Returned r, w')
    /\ status r = 200
    /\ exists updated,
         data r = UserData (user_view_of updated) /\ In updated (users w')
         /\ u_id updated = Cast.carol_id.
Proof.
  intro req.
  destruct (UpdateFacts.updateUser_succeeds_only_for_admin_or_self
              Sample.env0 req Cast.world1) as (r & w' & Hrun & H200 & _).
  exists r, w'. split; [exact Hrun |].
  assert (Hs : status r = 200).
  { vm_compute in Hrun. now inversion Hrun. }
  split; [exact Hs |]. apply (H200 Hs).
Defined.

(** An administrator deletes Carol, and fails to delete themselves. *)
Lemma deleteUser_spares_the_caller_and_the_admins_witness :
  (exists r w',
     deleteUser (Sample.as_admin (Sample.with_param Cast.carol_id Sample.request0))
       Cast.world1 = (Returned r, w')
     /\ status r = 200 /\ users w' = [Sample.alice; Sample.admin])
  /\ (exists r w',
        deleteUser (Sample.as_admin
                      (Sample.with_param Sample.admin_id Sample.request0))
          Cast.world1 = (Returned r, w')
        /\ status r = 400 /\ same_tables Cast.world1 w').
Proof.
  split.
  - destruct (DeleteFacts.deleteUser_spares_the_caller_and_the_admins
                (Sample.as_admin (Sample.with_param Cast.carol_id Sample.request0))
                Cast.world1) as (r & w' & Hrun & H200 & _).
    exists r, w'. split; [exact Hrun |].
    assert (Hs : status r = 200).
    { vm_compute in Hrun. now inversion Hrun. }
    split; [exact Hs |].
    destruct (H200 Hs) as (p & t & _ & _ & _ & _ & Hu). rewrite Hu. reflexivity.
  - destruct (DeleteFacts.deleteUser_spares_the_caller_and_the_admins
                (Sample.as_admin
                   (Sample.with_param Sample.admin_id Sample.request0))
                Cast.world1) as (r & w' & Hrun & _ & Hother).
    exists r, w'. split; [exact Hrun |].
    assert (Hs : status r = 400).
    { vm_compute in Hrun. now inversion Hrun. }
    split; [exact Hs |]. apply Hother. rewrite Hs. discriminate.
Defined.

(** Carol changes her password. *)
Lemma updatePassword_sets_the_hash_and_revokes_the_tokens_witness :
  let req := Cast.as_carol (Sample.with_param Cast.carol_id
               (with_body [("currentPassword", JStr "Secret123");
                           ("newPassword", JStr "Better456x")]
                          Sample.request0)) in
  exists r w',
    updatePassword Sample.env0 Cast.crypto0 req Cast.world2 = (Returned r, w')
    /\ status r = 200
    /\ map u_password_hash (users w')
       = ["$2a$12$hash"; "$2a$12$other"; "$2a$14$Better456x"]
    /\ map t_is_revoked (refresh_tokens w') = [true; false; true].
Proof.
  intro req.
  destruct (PasswordChangeFacts.updatePassword_sets_the_hash_and_revokes_the_tokens
              Sample.env0 Cast.crypto0 req Cast.world2)
    as (r & w' & Hrun & H200 & _).
  exists r, w'. split; [exact Hrun |].
  assert (Hs : status r = 200).
  { vm_compute in Hrun. now inversion Hrun. }
  split; [exact Hs |].
  destruct (H200 Hs) as (p & t & new & _ & Hn & _ & _ & _ & Hu & Ht).
  vm_compute in Hn. inversion Hn; subst new.
  rewrite Hu, Ht. split; reflexivity.
Defined.

(** Alice changes the content of her message. *)
Lemma updateMessage_keeps_author_and_counters_witness :
  let req := Sample.as_alice (Sample.with_param "m1"
               (with_body [("content", JStr "A new text")] Sample.request0)) in
  (exists r w',
     updateMessage Sample.env0 req Sample.world0 = (Returned r, w')
     /\ status r = 200
     /\ other_messages_untouched "m1" (messages Sample.world0) (messages w'))
  /\ ~ In "content" kept_columns.
Proof.
  intro req.
  destruct (MessageUpdateFacts.updateMessage_keeps_author_and_counters
              Sample.env0 req Sample.world0)
    as ((r & w' & Hrun & _ & Hm & _) & Hkeys & _).
  split.
  - exists r, w'. split; [exact Hrun |].
    split; [| exact Hm].
    vm_compute in Hrun. now inversion Hrun.
  - apply (Hkeys (principal_of Sample.alice)
             (Sample.post "m1" "Hello 1" "hello-1" "active" 41)
             Sample.world0 [("content", CJson (JStr "A new text"))]
             Sample.world0 eq_refl "content").
    now left.
Defined.

(** Two calls that filter by user and action, one with hostile values. *)
Lemma getAuditLogs_never_throws_and_binds_the_filters_witness :
  let f := {| AuditQuery.f_userId := Some (JStr "u1"); AuditQuery.f_action := Some (JStr "login");
              AuditQuery.f_resourceType := None; AuditQuery.f_resourceId := None;
              AuditQuery.f_dateFrom := Some (JStr ""); AuditQuery.f_dateTo := None |} in
  let f' := {| AuditQuery.f_userId := Some (JStr "' OR 1=1 --");
               AuditQuery.f_action := Some (JStr "x'; DROP TABLE audit_logs; --");
               AuditQuery.f_resourceType := Some JNull; AuditQuery.f_resourceId := None;
               AuditQuery.f_dateFrom := None; AuditQuery.f_dateTo := None |} in
  AuditQuery.aq_where (AuditQuery.audit_logs_query f 1 50)
  = ["1=1"; "al.user_id = $1"; "al.action = $2"]
  /\ AuditQuery.aq_where (AuditQuery.audit_logs_query f' 3 100000) = AuditQuery.aq_where (AuditQuery.audit_logs_query f 1 50)
  /\ AuditQuery.aq_limit_at (AuditQuery.audit_logs_query f' 3 100000) = "$3".
Proof.
  intros f f'.
  destruct (AuditQueryFacts.getAuditLogs_never_throws_and_binds_the_filters
              {| AuditQuery.count_audit := fun _ _ => None;
                 AuditQuery.page_of_audit := fun _ _ _ => None |}
              f f' 1 50 3 100000 Sample.world0)
    as (_ & _ & _ & H).
  destruct (H eq_refl) as (Hw & Hl & _).
  split; [reflexivity |]. split; [symmetry; exact Hw |].
  rewrite <- Hl. reflexivity.
Defined.

End FurtherWitness.
